(** * Ledger mutation engine and recurring billing scheduler

    A shallow embedding of [src/routes/transactions.ts] (the POST, PUT and
    DELETE handlers on transactions) and of the subscription processor
    ([processSubscriptions]), over an explicit model of the Prisma store and
    of the ECMAScript [Date] operations the processor calls. *)

From stdpp Require Import gmap strings list fin_maps.
From Stdlib Require Import ZArith Lia.

Local Open Scope Z_scope.

(** ** Data model *)

(** [z.enum(['INCOME', 'EXPENSE', 'TRANSFER'])] *)
Inductive TransactionType := INCOME | EXPENSE | TRANSFER.

(** [z.enum(['MONTHLY', 'YEARLY'])] *)
Inductive BillingCycle := MONTHLY | YEARLY.

(** [z.enum(['USD', 'ARS'])] *)
Inductive Currency := USD | ARS.

Global Instance TransactionType_eq_dec : EqDecision TransactionType.
Proof. solve_decision. Defined.
Global Instance BillingCycle_eq_dec : EqDecision BillingCycle.
Proof. solve_decision. Defined.
Global Instance Currency_eq_dec : EqDecision Currency.
Proof. solve_decision. Defined.

(** Amounts and balances are decimals in the store; they are modelled as
    integers counting the smallest unit of the decimal column, so that the
    store's [increment] and [decrement] are exact.  A [Date] is its time
    value: milliseconds since the epoch. *)

(** The [metadata] object the processor attaches to the rows it emits. *)
Record SubscriptionMeta := {
  subscriptionId : string;
  subscriptionName : string;
  billingCycle : BillingCycle;
}.

Module Account.
(** The columns of an account row the ledger code reads or writes
    ([name] and [type] are never touched by it and are left out). *)
Record t := {
  userId : string;
  currency : Currency;
  balance : Z;
  isActive : bool;
}.
Definition add_balance (d : Z) (a : t) : t :=
  {| userId := userId a; currency := currency a;
     balance := balance a + d; isActive := isActive a |}.
End Account.

Module Category.
Record t := {
  userId : option string;
  isDefault : bool;
}.
End Category.

Module Transaction.
Record t := {
  amount : Z;
  description : option string;
  type : TransactionType;
  date : Z;
  currency : Currency;
  processed : bool;
  aiExtracted : bool;
  userId : string;
  accountId : string;
  categoryId : option string;
  metadata : option SubscriptionMeta;
}.
End Transaction.

Module Subscription.
Record t := {
  name : string;
  description : option string;
  amount : Z;
  billingCycle : BillingCycle;
  nextBillingDate : Z;
  userId : string;
  accountId : string;
  categoryId : option string;
  isActive : bool;
}.
Definition set_nextBillingDate (d : Z) (s : t) : t :=
  {| name := name s; description := description s; amount := amount s;
     billingCycle := billingCycle s; nextBillingDate := d;
     userId := userId s; accountId := accountId s;
     categoryId := categoryId s; isActive := isActive s |}.
End Subscription.

(** The tables of the store, keyed by the row's [id]. *)
Record Db := {
  accounts : gmap string Account.t;
  transactions : gmap string Transaction.t;
  subscriptions : gmap string Subscription.t;
  categories : gmap string Category.t;
}.

Definition set_accounts (m : gmap string Account.t) (d : Db) : Db :=
  {| accounts := m; transactions := transactions d;
     subscriptions := subscriptions d; categories := categories d |}.
Definition set_transactions (m : gmap string Transaction.t) (d : Db) : Db :=
  {| accounts := accounts d; transactions := m;
     subscriptions := subscriptions d; categories := categories d |}.
Definition set_subscriptions (m : gmap string Subscription.t) (d : Db) : Db :=
  {| accounts := accounts d; transactions := transactions d;
     subscriptions := m; categories := categories d |}.

(** ** Effects *)

(** What a store call or a schema parse can throw. *)
Inductive Error :=
  | ZodError              (* [Schema.parse] rejected the request body *)
  | RecordNotFound        (* [update] or [delete] of a row that is absent *)
  | ForeignKeyViolation   (* a written reference has no target row *)
  | InvalidDate           (* an invalid [Date] handed to the store *)
  | StorageFailure.       (* connection loss or timeout of the store *)

(** How a block of statements ends: normally with a value, by a [return]
    (or, in a loop body, [continue]) carrying [r], or by a [throw]. *)
Inductive Completion (R A : Type) :=
  | Normal (a : A)
  | Return (r : R)
  | Throw (e : Error).
Arguments Normal {R A} a.
Arguments Return {R A} r.
Arguments Throw {R A} e.

(** The argument of [balance: { increment: d }] and [{ decrement: d }]. *)
Inductive BalanceOp := increment (d : Z) | decrement (d : Z).

Definition signed (op : BalanceOp) : Z :=
  match op with increment d => d | decrement d => - d end.

(** The optional fields of [UpdateTransactionSchema]. *)
Record TransactionPatch := {
  p_amount : option Z;
  p_description : option string;
  p_type : option TransactionType;
  p_date : option Z;
  p_accountId : option string;
  p_categoryId : option string;
}.

(** The store calls the code issues, as they appear in the trace. *)
Inductive Call :=
  | AccountFindFirst (id userId : string)
  | AccountFindUnique (id : string)
  | AccountUpdate (id : string) (op : BalanceOp)
  | CategoryFindFirst (id userId : string)
  | TransactionCreate (data : Transaction.t)
  | TransactionFindFirst (id userId : string)
  | TransactionUpdate (id : string) (data : TransactionPatch)
  | TransactionDelete (id : string)
  | SubscriptionFindMany (now : Z)
  | SubscriptionUpdate (id : string) (nextBillingDate : Z).

(** The lines written with [console.log] and [console.error]. *)
Inductive ConsoleLine :=
  | HandlerError (what : string) (e : Error)
  | ProcessingSubscriptions
  | FoundSubscriptions (n : nat)
  | AccountNotFoundFor (subscription : string)
  | ProcessedSubscription (name id : string)
  | ErrorProcessingSubscription (id : string) (e : Error)
  | ProcessingCompleted
  | ErrorInProcessSubscriptions (e : Error).

(** The world a handler runs in: the store, the calls issued so far (oldest
    first), the lines on the console, and which calls (by position in the
    trace) the store fails with [StorageFailure]. *)
Record World := {
  db : Db;
  trace : list Call;
  console : list ConsoleLine;
  faulty : nat -> bool;
}.

Definition M (R A : Type) : Type := World -> Completion R A * World.

Definition pure {R A} (a : A) : M R A := fun w => (Normal a, w).
Definition return_ {R A} (r : R) : M R A := fun w => (Return r, w).
Definition throw {R A} (e : Error) : M R A := fun w => (Throw e, w).

Definition bind {R A B} (m : M R A) (k : A -> M R B) : M R B := fun w =>
  match m w with
  | (Normal a, w1) => k a w1
  | (Return r, w1) => (Return r, w1)
  | (Throw e, w1) => (Throw e, w1)
  end.

Notation "x <- c1 ;; c2" := (bind c1 (fun x => c2))
  (at level 100, c1 at next level, c2 at level 200, right associativity).

(** [try { body } catch (error) { handler }]: what the body did to the world
    before it threw stays done. *)
Definition try_catch {R A} (body : M R A) (handler : Error -> M R A) : M R A :=
  fun w =>
    match body w with
    | (Throw e, w1) => handler e w1
    | r => r
    end.

(** Running a function body whose every path ends in [return]. *)
Definition call {R R'} (body : M R R) : M R' R := fun w =>
  match body w with
  | (Normal r, w1) => (Normal r, w1)
  | (Return r, w1) => (Normal r, w1)
  | (Throw e, w1) => (Throw e, w1)
  end.

(** The world after call [c] was issued and left the tables as [d]. *)
Definition after_call (w : World) (c : Call) (d : Db) : World :=
  {| db := d; trace := trace w ++ [c]; console := console w; faulty := faulty w |}.

(** The world after line [l] was written to the console. *)
Definition after_log (w : World) (l : ConsoleLine) : World :=
  {| db := db w; trace := trace w; console := console w ++ [l]; faulty := faulty w |}.

Definition console_log {R} (l : ConsoleLine) : M R unit := fun w =>
  (Normal tt, after_log w l).

(** One awaited store call: it is appended to the trace; it throws
    [StorageFailure] when the store is down for this call, and otherwise
    what [op] decides on the current tables. *)
Definition storage {R A} (c : Call) (op : Db -> Error + A * Db) : M R A :=
  fun w =>
    let n := length (trace w) in
    if faulty w n then (Throw StorageFailure, after_call w c (db w))
    else match op (db w) with
         | inl e => (Throw e, after_call w c (db w))
         | inr (a, d) => (Normal a, after_call w c d)
         end.

(** ** The store: the Prisma calls the code makes *)

(** JavaScript truthiness of a string that may be [undefined] or [null]:
    the empty string is falsy. *)
Definition truthy (s : option string) : bool :=
  match s with
  | Some s => negb (String.eqb s EmptyString)
  | None => false
  end.

(** [a ?? b] *)
Definition nullish {A} (a : option A) (b : A) : A :=
  match a with Some x => x | None => b end.

Module Prisma.

(** A relation column must point at an existing row. *)
Definition references {V} (m : gmap string V) (id : string) : bool :=
  bool_decide (is_Some (m !! id)).

Definition references_opt {V} (m : gmap string V) (id : option string) : bool :=
  match id with Some id => references m id | None => true end.

(** [prisma.account.findFirst({ where: { id, userId, isActive: true } })] *)
Definition account_findFirst {R} (id userId : string) : M R (option Account.t) :=
  storage (AccountFindFirst id userId) (fun d =>
    inr (match accounts d !! id with
         | Some a =>
             if bool_decide (Account.userId a = userId) && Account.isActive a
             then Some a else None
         | None => None
         end, d)).

(** [prisma.account.findUnique({ where: { id }, select: { currency: true } })] *)
Definition account_findUnique {R} (id : string) : M R (option Currency) :=
  storage (AccountFindUnique id) (fun d =>
    inr (Account.currency <$> accounts d !! id, d)).

(** [prisma.account.update({ where: { id }, data: { balance: op } })] *)
Definition account_update {R} (id : string) (op : BalanceOp) : M R Account.t :=
  storage (AccountUpdate id op) (fun d =>
    match accounts d !! id with
    | Some a =>
        let a' := Account.add_balance (signed op) a in
        inr (a', set_accounts (<[id := a']> (accounts d)) d)
    | None => inl RecordNotFound
    end).

(** [prisma.category.findFirst({ where: { id, OR: [{ userId }, { isDefault: true }] } })] *)
Definition category_findFirst {R} (id userId : string) : M R (option Category.t) :=
  storage (CategoryFindFirst id userId) (fun d =>
    inr (match categories d !! id with
         | Some c =>
             if bool_decide (Category.userId c = Some userId) || Category.isDefault c
             then Some c else None
         | None => None
         end, d)).

(** [prisma.transaction.create({ data })]: the store gives the row an [id]
    no other transaction has and returns the row. *)
Definition transaction_create {R} (data : Transaction.t)
  : M R (string * Transaction.t) :=
  storage (TransactionCreate data) (fun d =>
    if references (accounts d) (Transaction.accountId data)
       && references_opt (categories d) (Transaction.categoryId data)
    then
      let id := fresh (dom (transactions d)) in
      inr ((id, data), set_transactions (<[id := data]> (transactions d)) d)
    else inl ForeignKeyViolation).

(** [prisma.transaction.findFirst({ where: { id, userId } })] *)
Definition transaction_findFirst {R} (id userId : string)
  : M R (option Transaction.t) :=
  storage (TransactionFindFirst id userId) (fun d =>
    inr (match transactions d !! id with
         | Some t =>
             if bool_decide (Transaction.userId t = userId) then Some t else None
         | None => None
         end, d)).

(** The row after [data] is written over it: a field that is present
    replaces the column, an absent one leaves it. *)
Definition patched (p : TransactionPatch) (t : Transaction.t) : Transaction.t :=
  {| Transaction.amount := nullish (p_amount p) (Transaction.amount t);
     Transaction.description :=
       match p_description p with
       | Some s => Some s
       | None => Transaction.description t
       end;
     Transaction.type := nullish (p_type p) (Transaction.type t);
     Transaction.date := nullish (p_date p) (Transaction.date t);
     Transaction.currency := Transaction.currency t;
     Transaction.processed := Transaction.processed t;
     Transaction.aiExtracted := Transaction.aiExtracted t;
     Transaction.userId := Transaction.userId t;
     Transaction.accountId := nullish (p_accountId p) (Transaction.accountId t);
     Transaction.categoryId :=
       match p_categoryId p with
       | Some s => Some s
       | None => Transaction.categoryId t
       end;
     Transaction.metadata := Transaction.metadata t |}.

(** [prisma.transaction.update({ where: { id }, data })] *)
Definition transaction_update {R} (id : string) (data : TransactionPatch)
  : M R Transaction.t :=
  storage (TransactionUpdate id data) (fun d =>
    match transactions d !! id with
    | Some t =>
        if references_opt (accounts d) (p_accountId data)
           && references_opt (categories d) (p_categoryId data)
        then
          let t' := patched data t in
          inr (t', set_transactions (<[id := t']> (transactions d)) d)
        else inl ForeignKeyViolation
    | None => inl RecordNotFound
    end).

(** [prisma.transaction.delete({ where: { id } })] *)
Definition transaction_delete {R} (id : string) : M R unit :=
  storage (TransactionDelete id) (fun d =>
    match transactions d !! id with
    | Some _ => inr (tt, set_transactions (delete id (transactions d)) d)
    | None => inl RecordNotFound
    end).

(** The rows selected by [where: { isActive: true, nextBillingDate:
    { lte: now } }], each with its [id]. *)
Definition due (now : Z) (d : Db) : list (string * Subscription.t) :=
  filter (fun r => Subscription.isActive r.2 = true
                   ∧ Subscription.nextBillingDate r.2 <= now)
         (map_to_list (subscriptions d)).

(** [prisma.subscription.findMany({ where: { isActive: true,
    nextBillingDate: { lte: now } } })] *)
Definition subscription_findMany {R} (now : Z)
  : M R (list (string * Subscription.t)) :=
  storage (SubscriptionFindMany now) (fun d => inr (due now d, d)).

(** [prisma.subscription.update({ where: { id }, data: { nextBillingDate } })] *)
Definition subscription_update {R} (id : string) (nextBillingDate : Z)
  : M R Subscription.t :=
  storage (SubscriptionUpdate id nextBillingDate) (fun d =>
    match subscriptions d !! id with
    | Some s =>
        let s' := Subscription.set_nextBillingDate nextBillingDate s in
        inr (s', set_subscriptions (<[id := s']> (subscriptions d)) d)
    | None => inl RecordNotFound
    end).

End Prisma.

(** ** The request layer *)

Inductive Body :=
  | TransactionBody (id : string) (t : Transaction.t)
  | ErrorBody (error : string)
  | SuccessBody.

Record Response := { body : Body; status : Z }.

(** [c.json(body, status)]; the status is 200 when it is not given. *)
Definition json (b : Body) (s : Z) : Response := {| body := b; status := s |}.

(** The fields of [CreateTransactionSchema]. *)
Record CreateTransaction := {
  c_amount : Z;
  c_description : option string;
  c_type : TransactionType;
  c_date : Z;
  c_accountId : string;
  c_categoryId : option string;
}.

(** [CreateTransactionSchema.parse(body)]: [amount] is [z.number().positive()]. *)
Definition CreateTransactionSchema_parse {R} (body : CreateTransaction)
  : M R CreateTransaction :=
  if 0 <? c_amount body then pure body else throw ZodError.

(** [UpdateTransactionSchema.parse(body)]: [amount], when present, is positive. *)
Definition UpdateTransactionSchema_parse {R} (body : TransactionPatch)
  : M R TransactionPatch :=
  match p_amount body with
  | Some a => if 0 <? a then pure body else throw ZodError
  | None => pure body
  end.

(** [if (cond) { block }] *)
Definition when_ {R} (cond : bool) (block : M R unit) : M R unit :=
  if cond then block else pure tt.

(** [if (s) { block }] on an optional string [s], which the block may use. *)
Definition if_truthy {R} (s : option string) (block : string -> M R unit) : M R unit :=
  match s with
  | Some x => when_ (truthy (Some x)) (block x)
  | None => pure tt
  end.

Definition is_TRANSFER (t : TransactionType) : bool :=
  bool_decide (t = TRANSFER).
Definition is_EXPENSE (t : TransactionType) : bool :=
  bool_decide (t = EXPENSE).

(** The category check shared by POST and PUT. *)
Definition check_category (userId : string) (categoryId : option string)
  : M Response unit :=
  if_truthy categoryId (fun categoryId =>
    category <- Prisma.category_findFirst categoryId userId ;;
    when_ (bool_decide (category = None :> option Category.t))
      (return_ (json (ErrorBody "Categoría no encontrada") 404))).

(** The account check of PUT, made when the request names an account other
    than the transaction's. *)
Definition check_account (userId : string) (existingTransaction : Transaction.t)
  (accountId : option string) : M Response unit :=
  if_truthy accountId (fun accountId =>
    when_ (negb (String.eqb accountId (Transaction.accountId existingTransaction)))
      (account <- Prisma.account_findFirst accountId userId ;;
       when_ (bool_decide (account = None :> option Account.t))
         (return_ (json (ErrorBody "Cuenta no encontrada") 404)))).

(** ** [routes/transactions.ts] *)

(** The [data] of the row POST creates: the validated fields, the user,
    the account's currency and the two flags. *)
Definition created_row (userId : string) (validatedData : CreateTransaction)
  (account : Account.t) : Transaction.t :=
  {| Transaction.amount := c_amount validatedData;
     Transaction.description := c_description validatedData;
     Transaction.type := c_type validatedData;
     Transaction.date := c_date validatedData;
     Transaction.currency := Account.currency account;
     Transaction.processed := true;
     Transaction.aiExtracted := false;
     Transaction.userId := userId;
     Transaction.accountId := c_accountId validatedData;
     Transaction.categoryId := c_categoryId validatedData;
     Transaction.metadata := None |}.

(** [transactions.post('/')] *)
Definition post {R} (userId : string) (body : CreateTransaction) : M R Response :=
  call (try_catch
    (validatedData <- CreateTransactionSchema_parse body ;;
     account <- Prisma.account_findFirst (c_accountId validatedData) userId ;;
     match account with
     | None => return_ (json (ErrorBody "Cuenta no encontrada") 404)
     | Some account =>
         _ <- check_category userId (c_categoryId validatedData) ;;
         transaction <- Prisma.transaction_create
                          (created_row userId validatedData account) ;;
         _ <- when_ (negb (is_TRANSFER (c_type validatedData)))
                (let balanceChange :=
                   if is_EXPENSE (c_type validatedData)
                   then - c_amount validatedData else c_amount validatedData in
                 _ <- Prisma.account_update (c_accountId validatedData)
                        (increment balanceChange) ;;
                 pure tt) ;;
         return_ (json (TransactionBody transaction.1 transaction.2) 201)
     end)
    (fun error =>
       _ <- console_log (HandlerError "Error al crear transacción:" error) ;;
       return_ (json (ErrorBody "Error al crear la transacción") 500))).

(** [transactions.put('/:id')] *)
Definition put {R} (userId id : string) (body : TransactionPatch) : M R Response :=
  call (try_catch
    (validatedData <- UpdateTransactionSchema_parse body ;;
     existingTransaction <- Prisma.transaction_findFirst id userId ;;
     match existingTransaction with
     | None => return_ (json (ErrorBody "Transacción no encontrada") 404)
     | Some existingTransaction =>
         _ <- check_account userId existingTransaction
                (p_accountId validatedData) ;;
         _ <- check_category userId (p_categoryId validatedData) ;;
         transaction <- Prisma.transaction_update id validatedData ;;
         _ <- when_ (bool_decide (p_amount validatedData <> None)
                     || bool_decide (p_type validatedData <> None)
                     || bool_decide (p_accountId validatedData <> None))
                (_ <- when_ (negb (is_TRANSFER (Transaction.type existingTransaction)))
                        (let originalBalanceChange :=
                           if is_EXPENSE (Transaction.type existingTransaction)
                           then Transaction.amount existingTransaction
                           else - Transaction.amount existingTransaction in
                         _ <- Prisma.account_update
                                (Transaction.accountId existingTransaction)
                                (increment originalBalanceChange) ;;
                         pure tt) ;;
                 let newAmount :=
                   nullish (p_amount validatedData)
                           (Transaction.amount existingTransaction) in
                 let newType :=
                   nullish (p_type validatedData)
                           (Transaction.type existingTransaction) in
                 let newAccountId :=
                   nullish (p_accountId validatedData)
                           (Transaction.accountId existingTransaction) in
                 when_ (negb (is_TRANSFER newType))
                   (let newBalanceChange :=
                      if is_EXPENSE newType then - newAmount else newAmount in
                    _ <- Prisma.account_update newAccountId
                           (increment newBalanceChange) ;;
                    pure tt)) ;;
         return_ (json (TransactionBody id transaction) 200)
     end)
    (fun error =>
       _ <- console_log (HandlerError "Error al actualizar transacción:" error) ;;
       return_ (json (ErrorBody "Error al actualizar la transacción") 500))).

(** [transactions.delete('/:id')] *)
Definition delete_ {R} (userId id : string) : M R Response :=
  call (try_catch
    (transaction <- Prisma.transaction_findFirst id userId ;;
     match transaction with
     | None => return_ (json (ErrorBody "Transacción no encontrada") 404)
     | Some transaction =>
         _ <- Prisma.transaction_delete id ;;
         _ <- when_ (negb (is_TRANSFER (Transaction.type transaction)))
                (let balanceChange :=
                   if is_EXPENSE (Transaction.type transaction)
                   then Transaction.amount transaction
                   else - Transaction.amount transaction in
                 _ <- Prisma.account_update (Transaction.accountId transaction)
                        (increment balanceChange) ;;
                 pure tt) ;;
         return_ (json SuccessBody 200)
     end)
    (fun error =>
       _ <- console_log (HandlerError "Error al eliminar transacción:" error) ;;
       return_ (json (ErrorBody "Error al eliminar la transacción") 500))).

(** ** The ECMAScript [Date] operations the processor calls

    Time values are milliseconds since the epoch; the definitions are those
    of the ECMAScript specification (Day Number and Time within Day, Year
    Number, Month Number, Date Number, MakeDay, MakeDate, TimeClip).  The
    host's local time zone adjustment is taken as a constant offset. *)
Module JSDate.

Definition msPerDay : Z := 86400000.

Definition Day (t : Z) : Z := t / msPerDay.
Definition TimeWithinDay (t : Z) : Z := t mod msPerDay.

Definition leap (y : Z) : bool :=
  (y mod 4 =? 0) && (negb (y mod 100 =? 0) || (y mod 400 =? 0)).

Definition DaysInYear (y : Z) : Z := if leap y then 366 else 365.

Definition DayFromYear (y : Z) : Z :=
  365 * (y - 1970) + (y - 1969) / 4 - (y - 1901) / 100 + (y - 1601) / 400.

(** The year of day number [d]: the largest [y] with [DayFromYear y <= d],
    found from an estimate that is off by at most one. *)
Definition YearFromDay (d : Z) : Z :=
  let y := 1970 + (400 * d) / 146097 in
  if DayFromYear (y + 1) <=? d then y + 1
  else if DayFromYear y <=? d then y
  else y - 1.

Definition YearFromTime (t : Z) : Z := YearFromDay (Day t).
Definition InLeapYear (t : Z) : Z := if leap (YearFromTime t) then 1 else 0.
Definition DayWithinYear (t : Z) : Z := Day t - DayFromYear (YearFromTime t).

(** Month number, 0 for January to 11 for December. *)
Definition MonthFromTime (t : Z) : Z :=
  let d := DayWithinYear t in
  let l := InLeapYear t in
  if d <? 31 then 0
  else if d <? 59 + l then 1
  else if d <? 90 + l then 2
  else if d <? 120 + l then 3
  else if d <? 151 + l then 4
  else if d <? 181 + l then 5
  else if d <? 212 + l then 6
  else if d <? 243 + l then 7
  else if d <? 273 + l then 8
  else if d <? 304 + l then 9
  else if d <? 334 + l then 10
  else 11.

(** Day of the month, from 1. *)
Definition DateFromTime (t : Z) : Z :=
  let d := DayWithinYear t in
  let l := InLeapYear t in
  match MonthFromTime t with
  | 0 => d + 1
  | 1 => d - 30
  | 2 => d - 58 - l
  | 3 => d - 89 - l
  | 4 => d - 119 - l
  | 5 => d - 150 - l
  | 6 => d - 180 - l
  | 7 => d - 211 - l
  | 8 => d - 242 - l
  | 9 => d - 272 - l
  | 10 => d - 303 - l
  | _ => d - 333 - l
  end.

(** The day within year [y] on which month [m] (0 to 11) starts. *)
Definition monthStart (y m : Z) : Z :=
  let l := if leap y then 1 else 0 in
  match m with
  | 0 => 0
  | 1 => 31
  | 2 => 59 + l
  | 3 => 90 + l
  | 4 => 120 + l
  | 5 => 151 + l
  | 6 => 181 + l
  | 7 => 212 + l
  | 8 => 243 + l
  | 9 => 273 + l
  | 10 => 304 + l
  | _ => 334 + l
  end.

(** Number of days of month [m] (0 to 11) of year [y]. *)
Definition DaysInMonth (y m : Z) : Z :=
  match m with
  | 1 => if leap y then 29 else 28
  | 3 | 5 | 8 | 10 => 30
  | _ => 31
  end.

(** A month within the year and a date within the month. *)
Definition valid_date (y m d : Z) : Prop :=
  0 <= m <= 11 /\ 1 <= d <= DaysInMonth y m.

(** [MakeDay(year, month, date)]: the month may lie outside 0..11 and the
    date outside the month; both carry over. *)
Definition MakeDay (year month date : Z) : Z :=
  let ym := year + month / 12 in
  let mn := month mod 12 in
  DayFromYear ym + monthStart ym mn + date - 1.

Definition MakeDate (day time : Z) : Z := day * msPerDay + time.

(** [TimeClip]: [None] is [NaN], the time value of an invalid [Date]. *)
Definition TimeClip (time : Z) : option Z :=
  if Z.abs time <=? 8640000000000000 then Some time else None.

Section Local.
Variable LocalTZA : Z.

Definition LocalTime (t : Z) : Z := t + LocalTZA.
Definition UTC (t : Z) : Z := t - LocalTZA.

(** [new Date(value)] on a [Date] read from the store. *)
Definition new_Date (value : Z) : option Z := TimeClip value.

Definition getMonth (t : Z) : Z := MonthFromTime (LocalTime t).
Definition getFullYear (t : Z) : Z := YearFromTime (LocalTime t).

(** [d.setMonth(month)], as the new time value of [d]. *)
Definition setMonth (t : Z) (month : Z) : option Z :=
  let t := LocalTime t in
  let newDate :=
    MakeDate (MakeDay (YearFromTime t) month (DateFromTime t))
             (TimeWithinDay t) in
  TimeClip (UTC newDate).

(** [d.setFullYear(year)] *)
Definition setFullYear (t : Z) (year : Z) : option Z :=
  let t := LocalTime t in
  let newDate :=
    MakeDate (MakeDay year (MonthFromTime t) (DateFromTime t))
             (TimeWithinDay t) in
  TimeClip (UTC newDate).
End Local.

End JSDate.

(** ** The subscription processor *)

(** [for (const x of xs) { body }] *)
Fixpoint for_of {R A} (xs : list A) (body : A -> M R unit) : M R unit :=
  match xs with
  | [] => pure tt
  | x :: xs => _ <- body x ;; for_of xs body
  end.

(** The date the processor computes under "Calculate next billing date":
    a copy of the subscription's date, moved by [setMonth] or [setFullYear].
    [None] is an invalid [Date]. *)
Definition nextBillingDate_after (LocalTZA : Z) (cycle : BillingCycle) (current : Z)
  : option Z :=
  match JSDate.new_Date current with
  | Some nextBillingDate =>
      match cycle with
      | MONTHLY =>
          JSDate.setMonth LocalTZA nextBillingDate
            (JSDate.getMonth LocalTZA nextBillingDate + 1)
      | YEARLY =>
          JSDate.setFullYear LocalTZA nextBillingDate
            (JSDate.getFullYear LocalTZA nextBillingDate + 1)
      end
  | None => None
  end.

(** The row the processor creates for a subscription. *)
Definition expense_of (id : string) (subscription : Subscription.t)
  (currency : Currency) : Transaction.t :=
  {| Transaction.amount := Subscription.amount subscription;
     Transaction.description :=
       Some (Subscription.name subscription ++
             match Subscription.description subscription with
             | Some d => if truthy (Some d) then " - " ++ d else EmptyString
             | None => EmptyString
             end)%string;
     Transaction.type := EXPENSE;
     Transaction.date := Subscription.nextBillingDate subscription;
     Transaction.currency := currency;
     Transaction.processed := true;
     Transaction.aiExtracted := false;
     Transaction.userId := Subscription.userId subscription;
     Transaction.accountId := Subscription.accountId subscription;
     Transaction.categoryId := Subscription.categoryId subscription;
     Transaction.metadata :=
       Some {| subscriptionId := id;
               subscriptionName := Subscription.name subscription;
               billingCycle := Subscription.billingCycle subscription |} |}.

(** The body of the loop over the due subscriptions; [continue] ends the
    iteration as a [return] ends a function. *)
Definition processSubscription {R} (LocalTZA : Z)
  (row : string * Subscription.t) : M R unit :=
  let id := row.1 in
  let subscription := row.2 in
  call (try_catch
    (account <- Prisma.account_findUnique (Subscription.accountId subscription) ;;
     match account with
     | None =>
         _ <- console_log (AccountNotFoundFor id) ;;
         return_ tt
     | Some currency =>
         _ <- Prisma.transaction_create (expense_of id subscription currency) ;;
         _ <- Prisma.account_update (Subscription.accountId subscription)
                (decrement (Subscription.amount subscription)) ;;
         match nextBillingDate_after LocalTZA
                 (Subscription.billingCycle subscription)
                 (Subscription.nextBillingDate subscription) with
         | Some nextBillingDate =>
             _ <- Prisma.subscription_update id nextBillingDate ;;
             console_log (ProcessedSubscription (Subscription.name subscription) id)
         | None => throw InvalidDate
         end
     end)
    (fun error => console_log (ErrorProcessingSubscription id error))).

(** [processSubscriptions()]; [now] is the clock reading of [new Date()]. *)
Definition processSubscriptions {R} (LocalTZA : Z) (now : Z) : M R unit :=
  _ <- console_log ProcessingSubscriptions ;;
  call (try_catch
    (dueSubscriptions <- Prisma.subscription_findMany now ;;
     _ <- console_log (FoundSubscriptions (length dueSubscriptions)) ;;
     _ <- for_of dueSubscriptions (processSubscription LocalTZA) ;;
     console_log ProcessingCompleted)
    (fun error => console_log (ErrorInProcessSubscriptions error))).

(** ** Vocabulary of the properties *)

(** The store answers every call. *)
Definition fault_free (w : World) : Prop := forall n, faulty w n = false.

(** The signed amount by which a transaction counts in its account's
    balance. *)
Definition delta (type : TransactionType) (amount : Z) : Z :=
  match type with
  | INCOME => amount
  | EXPENSE => - amount
  | TRANSFER => 0
  end.

Definition contribution (t : Transaction.t) : Z :=
  delta (Transaction.type t) (Transaction.amount t).

(** What transaction [t] counts for in account [A]: its signed amount when
    it is an INCOME or EXPENSE row that references [A]. *)
Definition posted (A : string) (t : Transaction.t) : Z :=
  if bool_decide (Transaction.accountId t = A)
     && negb (is_TRANSFER (Transaction.type t))
  then (if is_EXPENSE (Transaction.type t)
        then - Transaction.amount t else Transaction.amount t)
  else 0.

(** The sum of the signed amounts of the INCOME and EXPENSE rows on [A]. *)
Definition ledger_sum (txs : gmap string Transaction.t) (A : string) : Z :=
  map_fold (fun _ t acc => acc + posted A t) 0 txs.

(** Every account's cached balance is the sum of its ledger. *)
Definition balanced (d : Db) : Prop :=
  forall A a, accounts d !! A = Some a ->
    Account.balance a = ledger_sum (transactions d) A.

(** The relation from a transaction to its account holds in the store. *)
Definition referential (d : Db) : Prop :=
  forall id t, transactions d !! id = Some t ->
    is_Some (accounts d !! Transaction.accountId t).

(** The two invariants of the ledger. *)
Definition ledger_ok (d : Db) : Prop := referential d /\ balanced d.

(** Account [id] exists, belongs to the user and is active. *)
Definition account_visible (userId : string) (d : Db) (id : string) : Prop :=
  exists a, accounts d !! id = Some a /\
            Account.userId a = userId /\ Account.isActive a = true.

(** The category named by a request, if any, is one the user may use. *)
Definition category_visible (userId : string) (d : Db) (categoryId : option string)
  : Prop :=
  match categoryId with
  | Some id =>
      truthy (Some id) = true /\
      exists c, categories d !! id = Some c /\
                (Category.userId c = Some userId \/ Category.isDefault c = true)
  | None => True
  end.

(** The account named by an update, if any, is the transaction's own or one
    the user may use. *)
Definition account_movable (userId : string) (d : Db) (existing : Transaction.t)
  (accountId : option string) : Prop :=
  match accountId with
  | Some id => id = Transaction.accountId existing \/ account_visible userId d id
  | None => True
  end.

(** An update names an amount, a type or an account: the test under which
    PUT adjusts balances. *)
Definition provided (p : TransactionPatch) : bool :=
  bool_decide (p_amount p <> None) || bool_decide (p_type p <> None)
  || bool_decide (p_accountId p <> None).

(** The amount of an update, when given, is positive. *)
Definition patch_valid (p : TransactionPatch) : Prop :=
  match p_amount p with
  | Some a => 0 < a
  | None => True
  end.

(** The accounts after [d] is added to the balance of account [id]. *)
Definition adjust (id : string) (d : Z) (m : gmap string Account.t)
  : gmap string Account.t :=
  alter (Account.add_balance d) id m.

(** The balance updates among the calls of a trace: account and signed
    amount, in the order issued. *)
Definition balance_updates (tr : list Call) : list (string * Z) :=
  omap (fun c => match c with
                 | AccountUpdate id op => Some (id, signed op)
                 | _ => None
                 end) tr.

(** The calls issued between world [w] and a later world [w']. *)
Definition issued (w w' : World) : list Call :=
  drop (length (trace w)) (trace w').

(** A request to the transactions router. *)
Inductive Request :=
  | POST (userId : string) (body : CreateTransaction)
  | PUT (userId id : string) (body : TransactionPatch)
  | DELETE (userId id : string).

Definition handle (q : Request) : M Empty_set Response :=
  match q with
  | POST userId body => post userId body
  | PUT userId id body => put userId id body
  | DELETE userId id => delete_ userId id
  end.

(** The world after a sequence of requests, served one after the other. *)
Fixpoint serve (qs : list Request) (w : World) : World :=
  match qs with
  | [] => w
  | q :: qs => serve qs (handle q w).2
  end.

(** ** Vocabulary of the proofs *)

(** [Q] holds of the completion and the world that [m] ends with when it is
    run in [w]. *)
Definition wp {R A} (m : M R A) (w : World) (Q : Completion R A -> World -> Prop)
  : Prop :=
  Q (m w).1 (m w).2.

(** World [w1] comes from [w] by calls that left the tables as they were
    and were no balance updates. *)
Definition reads (w w1 : World) : Prop :=
  db w1 = db w /\ faulty w1 = faulty w /\
  exists cs, trace w1 = trace w ++ cs /\ balance_updates cs = [].

(** What a check leaves behind: the store as it was, 404 when it returns,
    and a normal end when the store answers and the checked row is there. *)
Definition checked (pass : Prop) (w : World)
  (c : Completion Response unit) (w1 : World) : Prop :=
  reads w w1 /\
  match c with
  | Normal _ => True
  | Return r => status r = 404
  | Throw _ => True
  end /\
  (fault_free w -> pass -> c = Normal tt).

(** ** The writes of a unit of work *)

(** A write to the store. *)
Definition Write : Type := Db -> Db.

Definition write_transaction (id : string) (t : Transaction.t) : Write :=
  fun d => set_transactions (<[id := t]> (transactions d)) d.

Definition remove_transaction (id : string) : Write :=
  fun d => set_transactions (delete id (transactions d)) d.

Definition adjust_balance (account : string) (by_ : Z) : Write :=
  fun d => set_accounts (adjust account by_ (accounts d)) d.

Definition advance_subscription (id : string) (nextBillingDate : Z) : Write :=
  fun d => set_subscriptions
             (alter (Subscription.set_nextBillingDate nextBillingDate) id
                    (subscriptions d)) d.

(** The store after the writes [ws], made in order. *)
Definition apply_writes (ws : list Write) (d : Db) : Db :=
  foldl (fun d write => write d) d ws.

(** The writes POST makes: the new row, then the balance of its account. *)
Definition post_unit (userId : string) (b : CreateTransaction) (d : Db)
  : list Write :=
  match accounts d !! c_accountId b with
  | Some a =>
      write_transaction (fresh (dom (transactions d))) (created_row userId b a)
      :: (if is_TRANSFER (c_type b) then []
          else [adjust_balance (c_accountId b) (delta (c_type b) (c_amount b))])
  | None => []
  end.

(** The writes PUT makes: the row, the revert on the old account, the
    apply on the new one. *)
Definition put_unit (id : string) (p : TransactionPatch) (d : Db) : list Write :=
  match transactions d !! id with
  | Some old =>
      let new := Prisma.patched p old in
      write_transaction id new
      :: (if provided p
          then (if is_TRANSFER (Transaction.type old) then []
                else [adjust_balance (Transaction.accountId old)
                        (- contribution old)]) ++
               (if is_TRANSFER (Transaction.type new) then []
                else [adjust_balance (Transaction.accountId new)
                        (contribution new)])
          else [])
  | None => []
  end.

(** The writes DELETE makes: the row, then the revert on its account. *)
Definition delete_unit (id : string) (d : Db) : list Write :=
  match transactions d !! id with
  | Some t =>
      remove_transaction id
      :: (if is_TRANSFER (Transaction.type t) then []
          else [adjust_balance (Transaction.accountId t) (- contribution t)])
  | None => []
  end.

(** The writes the processor makes for one due subscription: the expense
    row, the decrement, the new billing date. *)
Definition billing_unit (LocalTZA : Z) (row : string * Subscription.t) (d : Db)
  : list Write :=
  match accounts d !! Subscription.accountId row.2 with
  | Some a =>
      [write_transaction (fresh (dom (transactions d)))
         (expense_of row.1 row.2 (Account.currency a));
       adjust_balance (Subscription.accountId row.2)
         (- Subscription.amount row.2)] ++
      match nextBillingDate_after LocalTZA
              (Subscription.billingCycle row.2)
              (Subscription.nextBillingDate row.2) with
      | Some nextBillingDate => [advance_subscription row.1 nextBillingDate]
      | None => []
      end
  | None => []
  end.

(** ** A billing run on a store that answers every call *)

(** The expense row of a subscription can be written: its account and its
    category, if it has one, are there. *)
Definition billable (d : Db) (row : string * Subscription.t) : bool :=
  Prisma.references (accounts d) (Subscription.accountId row.2)
  && Prisma.references_opt (categories d) (Subscription.categoryId row.2).

(** The store after the processor has handled one due subscription. *)
Definition bill (LocalTZA : Z) (d : Db) (row : string * Subscription.t) : Db :=
  if billable d row then apply_writes (billing_unit LocalTZA row d) d else d.

(** The store after the processor has handled the subscriptions [rows]. *)
Definition bill_all (LocalTZA : Z) (rows : list (string * Subscription.t)) (d : Db)
  : Db :=
  foldl (bill LocalTZA) d rows.

(** What the subscriptions [rows] that can be billed charge to [account]. *)
Definition charged (d : Db) (rows : list (string * Subscription.t))
  (account : string) : Z :=
  foldr (fun row total =>
           (if billable d row
               && bool_decide (Subscription.accountId row.2 = account)
            then Subscription.amount row.2 else 0) + total)
        0 rows.

(** The subscription a transaction row was emitted for, if any. *)
Definition emitted_for (t : Transaction.t) : option string :=
  subscriptionId <$> Transaction.metadata t.

(** What a billing run leaves alone: the categories, and which accounts
    there are in which currency. *)
Definition same_frame (d d' : Db) : Prop :=
  categories d' = categories d /\
  forall j, Account.currency <$> accounts d' !! j = Account.currency <$> accounts d !! j.

(** The rows a billing run adds to the transactions, with the ids the
    store gives them, in the order they are created. *)
Fixpoint emitted (LocalTZA : Z) (rows : list (string * Subscription.t)) (d : Db)
  : list (string * Transaction.t) :=
  match rows with
  | [] => []
  | row :: rows =>
      (if billable d row
       then match accounts d !! Subscription.accountId row.2 with
            | Some a =>
                [(fresh (dom (transactions d)),
                  expense_of row.1 row.2 (Account.currency a))]
            | None => []
            end
       else []) ++ emitted LocalTZA rows (bill LocalTZA d row)
  end.

(** ** Concrete stores for the scenarios *)

Module Scenario.

Definition user : string := "user_123".

(** Two active USD accounts of the user, opened at balance zero. *)
Definition account_A : Account.t :=
{| Account.userId := user; Account.currency := USD;
   Account.balance := 0; Account.isActive := true |}.

Definition store0 : Db :=
{| accounts := {[ "acc_A" := account_A; "acc_B" := account_A ]};
   transactions := ∅; subscriptions := ∅; categories := ∅ |}.

(** A world in which the store answers every call. *)
Definition world0 : World :=
{| db := store0; trace := []; console := []; faulty := fun _ => false |}.

(** The same, but the store is down for the third call it receives. *)
Definition world_flaky : World :=
{| db := store0; trace := []; console := [];
   faulty := fun n => Nat.eqb n 2 |}.

(** An EXPENSE of 50 on account A. *)
Definition expense50 : CreateTransaction :=
{| c_amount := 50; c_description := None; c_type := EXPENSE;
   c_date := 1704067200000; c_accountId := "acc_A"; c_categoryId := None |}.

(** A TRANSFER of 50 on account A. *)
Definition transfer50 : CreateTransaction :=
{| c_amount := 50; c_description := None; c_type := TRANSFER;
   c_date := 1704067200000; c_accountId := "acc_A"; c_categoryId := None |}.

Definition no_change : TransactionPatch :=
{| p_amount := None; p_description := None; p_type := None;
   p_date := None; p_accountId := None; p_categoryId := None |}.

(** [{ amount: 30 }] *)
Definition amount30 : TransactionPatch :=
{| p_amount := Some 30; p_description := None; p_type := None;
   p_date := None; p_accountId := None; p_categoryId := None |}.

(** [{ accountId: 'acc_B' }] *)
Definition move_to_B : TransactionPatch :=
{| p_amount := None; p_description := None; p_type := None;
   p_date := None; p_accountId := Some "acc_B"; p_categoryId := None |}.

(** [{ type: 'TRANSFER' }] *)
Definition make_transfer : TransactionPatch :=
{| p_amount := None; p_description := None; p_type := Some TRANSFER;
   p_date := None; p_accountId := None; p_categoryId := None |}.

(** Create an EXPENSE of 50, change its amount to 30, delete it. *)
Definition requests : list Request :=
[POST user expense50; PUT user "0" amount30; DELETE user "0"].

(** The world after the EXPENSE of 50 was created. *)
Definition world1 : World := (handle (POST user expense50) world0).2.

(** The row that creation wrote. *)
Definition row50 : Transaction.t := created_row user expense50 account_A.

(** A monthly subscription of 20, next billed on 2024-01-01T00:00Z, on an
  account that holds 100. *)
Definition account_S : Account.t :=
{| Account.userId := user; Account.currency := USD;
   Account.balance := 100; Account.isActive := true |}.

Definition monthly20 (nextBillingDate : Z) (accountId : string) : Subscription.t :=
{| Subscription.name := "Streaming"; Subscription.description := None;
   Subscription.amount := 20; Subscription.billingCycle := MONTHLY;
   Subscription.nextBillingDate := nextBillingDate;
   Subscription.userId := user; Subscription.accountId := accountId;
   Subscription.categoryId := None; Subscription.isActive := true |}.

(** 2024-01-01, 2024-02-01, 2024-01-31, 2024-03-02 and 2024-04-01, at
  00:00 UTC. *)
Definition jan01 : Z := 1704067200000.
Definition feb01 : Z := 1706745600000.
Definition jan31 : Z := 1706659200000.
Definition mar02 : Z := 1709337600000.
Definition apr01 : Z := 1711929600000.

Definition billing_store (nextBillingDate : Z) : Db :=
{| accounts := {[ "acc_S" := account_S ]};
   transactions := ∅;
   subscriptions :=
     {[ "sub_1" := monthly20 nextBillingDate "acc_S";
        "sub_2" := monthly20 nextBillingDate "acc_gone" ]};
   categories := ∅ |}.

Definition billing_world (nextBillingDate : Z) : World :=
{| db := billing_store nextBillingDate; trace := []; console := [];
   faulty := fun _ => false |}.

(** The same, but the store is down for the fourth call it receives. *)
Definition billing_world_flaky : World :=
{| db := billing_store jan01; trace := []; console := [];
   faulty := fun n => Nat.eqb n 3 |}.

End Scenario.

(** ** Reading a transaction *)

(** [transactions.get('/:id')]; the relations joined to the row by
    [include] are left out of the body, as in POST and PUT. *)
Definition get {R} (userId id : string) : M R Response :=
  call (try_catch
    (transaction <- Prisma.transaction_findFirst id userId ;;
     match transaction with
     | None => return_ (json (ErrorBody "Transacción no encontrada") 404)
     | Some transaction => return_ (json (TransactionBody id transaction) 200)
     end)
    (fun error =>
       _ <- console_log (HandlerError "Error al obtener transacción:" error) ;;
       return_ (json (ErrorBody "Error interno del servidor") 500))).

(** ** The server over time *)

(** What the server does next: it serves a request to the transactions
    router, or the daily timer set by [startSubscriptionProcessor] fires and
    runs the processor, the clock reading [now]. *)
Inductive Event :=
  | Incoming (q : Request)
  | Midnight (now : Z).

Definition happen (LocalTZA : Z) (w : World) (e : Event) : World :=
  match e with
  | Incoming q => (handle q w).2
  | Midnight now => (@processSubscriptions Empty_set LocalTZA now w).2
  end.

(** The world after the events [es], one after the other. *)
Definition history (LocalTZA : Z) (es : list Event) (w : World) : World :=
  foldl (happen LocalTZA) w es.

(** The user a request is made by. *)
Definition requester (q : Request) : string :=
  match q with
  | POST userId _ => userId
  | PUT userId _ _ => userId
  | DELETE userId _ => userId
  end.

(** The billing date after [n] advances, each computed from the date the
    one before stored. *)
Fixpoint advanced (LocalTZA : Z) (cycle : BillingCycle) (n : nat) (t : Z)
  : option Z :=
  match n with
  | O => Some t
  | S n =>
      match nextBillingDate_after LocalTZA cycle t with
      | Some t' => advanced LocalTZA cycle n t'
      | None => None
      end
  end.

(** What an account is apart from its balance: its owner, its currency and
    whether it is active. *)
Definition standing (a : Account.t) : string * Currency * bool :=
  (Account.userId a, Account.currency a, Account.isActive a).

(** Store [d'] differs from [d] at most in the transactions, the balances
    and the billing dates. *)
Definition same_standing (d d' : Db) : Prop :=
  categories d' = categories d /\
  (forall j, standing <$> accounts d' !! j = standing <$> accounts d !! j) /\
  (forall j, Subscription.set_nextBillingDate 0 <$> subscriptions d' !! j =
             Subscription.set_nextBillingDate 0 <$> subscriptions d !! j).

(** ** More concrete stores *)

Module Cases.
Import Scenario.

Definition other : string := "user_456".

(** An active ARS account of the user. *)
Definition account_P : Account.t :=
  {| Account.userId := user; Account.currency := ARS;
     Account.balance := 0; Account.isActive := true |}.

(** The user's USD account A and ARS account P, and no transaction. *)
Definition store_two : Db :=
  {| accounts := {[ "acc_A" := account_A; "acc_P" := account_P ]};
     transactions := ∅; subscriptions := ∅; categories := ∅ |}.

Definition world_two : World :=
  {| db := store_two; trace := []; console := []; faulty := fun _ => false |}.

(** The same after the user's EXPENSE of 50 on the USD account. *)
Definition world_spent : World := (handle (POST user expense50) world_two).2.

(** [{ accountId: 'acc_P' }] *)
Definition move_to_P : TransactionPatch :=
  {| p_amount := None; p_description := None; p_type := None;
     p_date := None; p_accountId := Some "acc_P"; p_categoryId := None |}.

(** An INCOME of 70 on the account of the subscriptions. *)
Definition income70 : CreateTransaction :=
  {| c_amount := 70; c_description := None; c_type := INCOME;
     c_date := jan01; c_accountId := "acc_S"; c_categoryId := None |}.

(** 2024-02-29, 2025-03-01, 2024-03-01 and 2025-01-01, at 00:00 UTC. *)
Definition feb29 : Z := 1709164800000.
Definition mar01_2025 : Z := 1740787200000.
Definition mar01 : Z := 1709251200000.
Definition jan01_2025 : Z := 1735689600000.

(** A yearly subscription of 20, next billed on 29 February 2024. *)
Definition yearly20 : Subscription.t :=
  {| Subscription.name := "Domain"; Subscription.description := None;
     Subscription.amount := 20; Subscription.billingCycle := YEARLY;
     Subscription.nextBillingDate := feb29;
     Subscription.userId := user; Subscription.accountId := "acc_S";
     Subscription.categoryId := None; Subscription.isActive := true |}.

Definition yearly_world : World :=
  {| db := {| accounts := {[ "acc_S" := account_S ]};
              transactions := ∅;
              subscriptions := {[ "sub_y" := yearly20 ]};
              categories := ∅ |};
     trace := []; console := []; faulty := fun _ => false |}.

(** The ledger of [billing_world jan01] is empty while its account holds
    100: the same store with the account opened at 0. *)
Definition ledger_world : World :=
  {| db := {| accounts := {[ "acc_S" := account_A ]};
              transactions := ∅;
              subscriptions := {[ "sub_1" := monthly20 jan01 "acc_S" ]};
              categories := ∅ |};
     trace := []; console := []; faulty := fun _ => false |}.

End Cases.

(** ** The subscriptions router and the balance of the accounts *)

(** The optional fields of [UpdateSubscriptionSchema]; a date is [None]
    when the string given does not parse ([new Date(val)] is then an
    invalid [Date]). *)
Record SubscriptionPatch := {
  s_name : option string;
  s_description : option string;
  s_amount : option Z;
  s_billingCycle : option BillingCycle;
  s_nextBillingDate : option (option Z);
  s_accountId : option string;
  s_categoryId : option string;
  s_isActive : option bool;
}.

(** The fields of [CreateSubscriptionSchema]. *)
Record CreateSubscription := {
  n_name : string;
  n_description : option string;
  n_amount : Z;
  n_billingCycle : BillingCycle;
  n_nextBillingDate : option Z;
  n_accountId : string;
  n_categoryId : option string;
}.

Module Wide.

(** The store calls of all the routers: those of [Call], and the further
    ones that the subscriptions router and the accounts router make. *)
Inductive StoreCall :=
  | Earlier (c : Call)
  | SubscriptionFindFirst (id userId : string)
  | SubscriptionCreate (data : CreateSubscription) (userId : string)
  | SubscriptionUpdateData (id : string) (data : SubscriptionPatch)
  | SubscriptionDelete (id : string)
  | AccountAggregate (userId : string) (currency : Currency)
  | AccountFindFirstCount (id userId : string).

(** The world of all the routers: as [World], with the wider trace. *)
Record Server := {
  store : Db;
  calls : list StoreCall;
  output : list ConsoleLine;
  down : nat -> bool;
}.

Definition N (R A : Type) : Type := Server -> Completion R A * Server.

Definition pure {R A} (a : A) : N R A := fun s => (Normal a, s).
Definition return_ {R A} (r : R) : N R A := fun s => (Return r, s).
Definition throw {R A} (e : Error) : N R A := fun s => (Throw e, s).

Definition bind {R A B} (m : N R A) (k : A -> N R B) : N R B := fun s =>
  match m s with
  | (Normal a, s1) => k a s1
  | (Return r, s1) => (Return r, s1)
  | (Throw e, s1) => (Throw e, s1)
  end.

Notation "x <~ c1 ;; c2" := (bind c1 (fun x => c2))
  (at level 100, c1 at next level, c2 at level 200, right associativity).

Definition try_catch {R A} (body : N R A) (handler : Error -> N R A) : N R A :=
  fun s =>
    match body s with
    | (Throw e, s1) => handler e s1
    | r => r
    end.

Definition call {R R'} (body : N R R) : N R' R := fun s =>
  match body s with
  | (Normal r, s1) => (Normal r, s1)
  | (Return r, s1) => (Normal r, s1)
  | (Throw e, s1) => (Throw e, s1)
  end.

Definition console_error {R} (l : ConsoleLine) : N R unit := fun s =>
  (Normal tt,
   {| store := store s; calls := calls s; output := output s ++ [l];
      down := down s |}).

(** One awaited store call, as [storage]. *)
Definition storage {R A} (c : StoreCall) (op : Db -> Error + A * Db) : N R A :=
  fun s =>
    let after d :=
      {| store := d; calls := calls s ++ [c]; output := output s;
         down := down s |} in
    if down s (length (calls s)) then (Throw StorageFailure, after (store s))
    else match op (store s) with
         | inl e => (Throw e, after (store s))
         | inr (a, d) => (Normal a, after d)
         end.

(** The world in which code of the transactions router or the processor
    runs when the server is in state [s]: its calls are counted on from
    those made so far. *)
Definition world_of (s : Server) : World :=
  {| db := store s; trace := []; console := [];
     faulty := fun n => down s (length (calls s) + n) |}.

(** The server after such code has run and left world [w]. *)
Definition server_after (s : Server) (w : World) : Server :=
  {| store := db w; calls := calls s ++ (Earlier <$> trace w);
     output := output s ++ console w; down := down s |}.

(** Code of the transactions router or the processor, run by the server. *)
Definition embed {R A} (m : M R A) : N R A := fun s =>
  ((m (world_of s)).1, server_after s (m (world_of s)).2).

(** What the routers answer. *)
Inductive Reply :=
  | SubscriptionReply (id : string) (s : Subscription.t)
  | BalanceReply (currency : string) (balance : Z)
  | AccountReply (id : string) (a : Account.t) (transactions : nat)
  | CategoryReply (id : string) (c : Category.t)
  | ErrorReply (error : string)
  | SuccessReply.

Record Answer := { reply : Reply; code : Z }.

Definition json (b : Reply) (c : Z) : Answer := {| reply := b; code := c |}.

(** [CreateSubscriptionSchema.parse(body)]: [name] is [z.string().min(1)],
    [amount] is [z.number().positive()]. *)
Definition CreateSubscriptionSchema_parse {R} (body : CreateSubscription)
  : N R CreateSubscription :=
  if negb (String.eqb (n_name body) EmptyString) && (0 <? n_amount body)
  then pure body else throw ZodError.

(** [UpdateSubscriptionSchema.parse(body)] *)
Definition UpdateSubscriptionSchema_parse {R} (body : SubscriptionPatch)
  : N R SubscriptionPatch :=
  if match s_name body with
     | Some name => negb (String.eqb name EmptyString)
     | None => true
     end
     && match s_amount body with Some a => 0 <? a | None => true end
  then pure body else throw ZodError.

Section Schema.
(** The value the Prisma schema ([schema.prisma]) gives [isActive] in a
    new subscription. *)
Variable isActive_default : bool.

(** The row [prisma.subscription.create] writes for [data]. *)
Definition subscription_row (data : CreateSubscription) (userId : string)
  (nextBillingDate : Z) : Subscription.t :=
  {| Subscription.name := n_name data;
     Subscription.description := n_description data;
     Subscription.amount := n_amount data;
     Subscription.billingCycle := n_billingCycle data;
     Subscription.nextBillingDate := nextBillingDate;
     Subscription.userId := userId;
     Subscription.accountId := n_accountId data;
     Subscription.categoryId := n_categoryId data;
     Subscription.isActive := isActive_default |}.

(** [prisma.subscription.create({ data: { ...validatedData, userId } })] *)
Definition subscription_create {R} (data : CreateSubscription) (userId : string)
  : N R (string * Subscription.t) :=
  storage (SubscriptionCreate data userId) (fun d =>
    match n_nextBillingDate data with
    | None => inl InvalidDate
    | Some nextBillingDate =>
        if Prisma.references (accounts d) (n_accountId data)
           && Prisma.references_opt (categories d) (n_categoryId data)
        then
          let id := fresh (dom (subscriptions d)) in
          let row := subscription_row data userId nextBillingDate in
          inr ((id, row), set_subscriptions (<[id := row]> (subscriptions d)) d)
        else inl ForeignKeyViolation
    end).

(** [subscriptions.post('/')] *)
Definition subscriptions_post {R} (userId : string) (body : CreateSubscription)
  : N R Answer :=
  call (try_catch
    (validatedData <~ CreateSubscriptionSchema_parse body ;;
     account <~ embed (Prisma.account_findFirst (n_accountId validatedData)
                         userId) ;;
     match account with
     | None => return_ (json (ErrorReply "Account not found") 404)
     | Some _ =>
         _ <~ match n_categoryId validatedData with
              | Some categoryId =>
                  if truthy (Some categoryId)
                  then category <~ embed (Prisma.category_findFirst
                                            categoryId userId) ;;
                       match category with
                       | None =>
                           return_ (json (ErrorReply "Category not found") 404)
                       | Some _ => pure tt
                       end
                  else pure tt
              | None => pure tt
              end ;;
         subscription <~ subscription_create validatedData userId ;;
         return_ (json (SubscriptionReply subscription.1 subscription.2) 201)
     end)
    (fun error =>
       _ <~ console_error (HandlerError "Error creating subscription:" error) ;;
       return_ (json (ErrorReply "Error creating subscription") 500))).
End Schema.

(** [prisma.subscription.findFirst({ where: { id, userId } })] *)
Definition subscription_findFirst {R} (id userId : string)
  : N R (option Subscription.t) :=
  storage (SubscriptionFindFirst id userId) (fun d =>
    inr (match subscriptions d !! id with
         | Some s =>
             if bool_decide (Subscription.userId s = userId)
             then Some s else None
         | None => None
         end, d)).

(** The row after [data] is written over it; [None] when [data] carries
    an invalid date. *)
Definition revised (p : SubscriptionPatch) (s : Subscription.t)
  : option Subscription.t :=
  match s_nextBillingDate p with
  | Some None => None
  | date =>
      Some
        {| Subscription.name := nullish (s_name p) (Subscription.name s);
           Subscription.description :=
             match s_description p with
             | Some x => Some x
             | None => Subscription.description s
             end;
           Subscription.amount := nullish (s_amount p) (Subscription.amount s);
           Subscription.billingCycle :=
             nullish (s_billingCycle p) (Subscription.billingCycle s);
           Subscription.nextBillingDate :=
             match date with
             | Some (Some t) => t
             | _ => Subscription.nextBillingDate s
             end;
           Subscription.userId := Subscription.userId s;
           Subscription.accountId :=
             nullish (s_accountId p) (Subscription.accountId s);
           Subscription.categoryId :=
             match s_categoryId p with
             | Some x => Some x
             | None => Subscription.categoryId s
             end;
           Subscription.isActive :=
             nullish (s_isActive p) (Subscription.isActive s) |}
  end.

(** [prisma.subscription.update({ where: { id }, data })] *)
Definition subscription_update {R} (id : string) (data : SubscriptionPatch)
  : N R Subscription.t :=
  storage (SubscriptionUpdateData id data) (fun d =>
    match subscriptions d !! id with
    | Some s =>
        match revised data s with
        | None => inl InvalidDate
        | Some s' =>
            if Prisma.references_opt (accounts d) (s_accountId data)
               && Prisma.references_opt (categories d) (s_categoryId data)
            then inr (s', set_subscriptions (<[id := s']> (subscriptions d)) d)
            else inl ForeignKeyViolation
        end
    | None => inl RecordNotFound
    end).

(** [prisma.subscription.delete({ where: { id } })] *)
Definition subscription_delete {R} (id : string) : N R unit :=
  storage (SubscriptionDelete id) (fun d =>
    match subscriptions d !! id with
    | Some _ => inr (tt, set_subscriptions (delete id (subscriptions d)) d)
    | None => inl RecordNotFound
    end).

(** [subscriptions.get('/:id')] *)
Definition subscriptions_get {R} (userId id : string) : N R Answer :=
  call (try_catch
    (subscription <~ subscription_findFirst id userId ;;
     match subscription with
     | None => return_ (json (ErrorReply "Subscription not found") 404)
     | Some subscription => return_ (json (SubscriptionReply id subscription) 200)
     end)
    (fun error =>
       _ <~ console_error (HandlerError "Error getting subscription:" error) ;;
       return_ (json (ErrorReply "Internal server error") 500))).

(** [subscriptions.put('/:id')] *)
Definition subscriptions_put {R} (userId id : string) (body : SubscriptionPatch)
  : N R Answer :=
  call (try_catch
    (validatedData <~ UpdateSubscriptionSchema_parse body ;;
     existingSubscription <~ subscription_findFirst id userId ;;
     match existingSubscription with
     | None => return_ (json (ErrorReply "Subscription not found") 404)
     | Some existingSubscription =>
         _ <~ match s_accountId validatedData with
              | Some accountId =>
                  if truthy (Some accountId)
                     && negb (String.eqb accountId
                                (Subscription.accountId existingSubscription))
                  then account <~ embed (Prisma.account_findFirst
                                           accountId userId) ;;
                       match account with
                       | None =>
                           return_ (json (ErrorReply "Account not found") 404)
                       | Some _ => pure tt
                       end
                  else pure tt
              | None => pure tt
              end ;;
         _ <~ match s_categoryId validatedData with
              | Some categoryId =>
                  if truthy (Some categoryId)
                  then category <~ embed (Prisma.category_findFirst
                                            categoryId userId) ;;
                       match category with
                       | None =>
                           return_ (json (ErrorReply "Category not found") 404)
                       | Some _ => pure tt
                       end
                  else pure tt
              | None => pure tt
              end ;;
         subscription <~ subscription_update id validatedData ;;
         return_ (json (SubscriptionReply id subscription) 200)
     end)
    (fun error =>
       _ <~ console_error (HandlerError "Error updating subscription:" error) ;;
       return_ (json (ErrorReply "Error updating subscription") 500))).

(** [subscriptions.delete('/:id')] *)
Definition subscriptions_delete {R} (userId id : string) : N R Answer :=
  call (try_catch
    (subscription <~ subscription_findFirst id userId ;;
     match subscription with
     | None => return_ (json (ErrorReply "Subscription not found") 404)
     | Some _ =>
         _ <~ subscription_delete id ;;
         return_ (json SuccessReply 200)
     end)
    (fun error =>
       _ <~ console_error (HandlerError "Error deleting subscription:" error) ;;
       return_ (json (ErrorReply "Error deleting subscription") 500))).

(** The accounts [where: { userId, currency, isActive: true }] selects. *)
Definition counted (userId : string) (currency : Currency) (a : Account.t)
  : bool :=
  bool_decide (Account.userId a = userId)
  && bool_decide (Account.currency a = currency) && Account.isActive a.

(** The rows that [where] selects, and the sum of their balances. *)
Definition selected (userId : string) (currency : Currency) (d : Db)
  : list (string * Account.t) :=
  filter (fun r => counted userId currency r.2 = true) (map_to_list (accounts d)).

Definition total (rows : list (string * Account.t)) : Z :=
  foldr (fun r sum => Account.balance r.2 + sum) 0 rows.

(** [prisma.account.aggregate({ where: { userId, currency, isActive: true },
    _sum: { balance: true } })]: the sum is [null] when no account is
    selected. *)
Definition account_aggregate {R} (userId : string) (currency : Currency)
  : N R (option Z) :=
  storage (AccountAggregate userId currency) (fun d =>
    inr (match selected userId currency d with
         | [] => None
         | rows => Some (total rows)
         end, d)).

(** [accounts.get('/balance')]; [currency] is the query parameter. *)
Definition accounts_balance {R} (userId : string) (currency : option string)
  : N R Answer :=
  call (try_catch
    (match currency with
     | Some name =>
         match (if String.eqb name "USD" then Some USD
                else if String.eqb name "ARS" then Some ARS else None) with
         | Some known =>
             result <~ account_aggregate userId known ;;
             let balance := match result with Some b => b | None => 0 end in
             return_ (json (BalanceReply name balance) 200)
         | None =>
             return_ (json (ErrorReply
                              "Currency parameter is required (USD or ARS)") 400)
         end
     | None =>
         return_ (json (ErrorReply
                          "Currency parameter is required (USD or ARS)") 400)
     end)
    (fun error =>
       _ <~ console_error (HandlerError "Error al obtener balance:" error) ;;
       return_ (json (ErrorReply "Error interno del servidor") 500))).

(** The transactions of account [id]: what [_count: { select:
    { transactions: true } }] counts. *)
Definition transactions_of (id : string) (d : Db)
  : list (string * Transaction.t) :=
  filter (fun r => Transaction.accountId r.2 = id) (map_to_list (transactions d)).

(** [prisma.account.findFirst({ where: { id, userId, isActive: true },
    include: { _count: { select: { transactions: true } } } })] *)
Definition account_findFirst_count {R} (id userId : string)
  : N R (option (Account.t * nat)) :=
  storage (AccountFindFirstCount id userId) (fun d =>
    inr (match accounts d !! id with
         | Some a =>
             if bool_decide (Account.userId a = userId) && Account.isActive a
             then Some (a, length (transactions_of id d))
             else None
         | None => None
         end, d)).

(** [accounts.get('/:id')] *)
Definition accounts_get {R} (userId id : string) : N R Answer :=
  call (try_catch
    (account <~ account_findFirst_count id userId ;;
     match account with
     | None => return_ (json (ErrorReply "Cuenta no encontrada") 404)
     | Some account =>
         return_ (json (AccountReply id account.1 account.2) 200)
     end)
    (fun error =>
       _ <~ console_error (HandlerError "Error al obtener cuenta:" error) ;;
       return_ (json (ErrorReply "Error interno del servidor") 500))).

(** [categories.get('/:id')] *)
Definition categories_get {R} (userId id : string) : N R Answer :=
  call (try_catch
    (category <~ embed (Prisma.category_findFirst id userId) ;;
     match category with
     | None => return_ (json (ErrorReply "Categoría no encontrada") 404)
     | Some category => return_ (json (CategoryReply id category) 200)
     end)
    (fun error =>
       _ <~ console_error (HandlerError "Error al obtener categoría:" error) ;;
       return_ (json (ErrorReply "Error interno del servidor") 500))).

(** [Q] holds of the completion and the server that [m] ends with when it
    is run in [s]. *)
Definition wp {R A} (m : N R A) (s : Server)
  (Q : Completion R A -> Server -> Prop) : Prop :=
  Q (m s).1 (m s).2.

(** The store answers every call. *)
Definition up (s : Server) : Prop := forall n, down s n = false.

(** A request to the subscriptions router. *)
Inductive Request :=
  | POST (userId : string) (body : CreateSubscription)
  | PUT (userId id : string) (body : SubscriptionPatch)
  | DELETE (userId id : string).

Definition handle (isActive_default : bool) (q : Request) : N Empty_set Answer :=
  match q with
  | POST userId body => subscriptions_post isActive_default userId body
  | PUT userId id body => subscriptions_put userId id body
  | DELETE userId id => subscriptions_delete userId id
  end.

(** The user a request is made by. *)
Definition requester (q : Request) : string :=
  match q with
  | POST userId _ => userId
  | PUT userId _ _ => userId
  | DELETE userId _ => userId
  end.

(** A billing run made by the server. *)
Definition billing (LocalTZA now : Z) : N Empty_set unit :=
  embed (processSubscriptions LocalTZA now).

End Wide.

(** ** Concrete servers *)

Module Served.
Import Scenario Cases.

(** A server on [store_two] whose store answers. *)
Definition server_two : Wide.Server :=
  {| Wide.store := store_two; Wide.calls := []; Wide.output := [];
     Wide.down := fun _ => false |}.

(** [{ name: 'Music', amount: 20, billingCycle: 'MONTHLY',
       nextBillingDate: '2024-01-01T00:00:00Z', accountId: 'acc_A' }] *)
Definition music : CreateSubscription :=
  {| n_name := "Music"; n_description := None; n_amount := 20;
     n_billingCycle := MONTHLY; n_nextBillingDate := Some jan01;
     n_accountId := "acc_A"; n_categoryId := None |}.

(** The server after the user's POST of [music], new subscriptions being
    active. *)
Definition server_music : Wide.Server :=
  (Wide.handle true (Wide.POST user music) server_two).2.

(** [{ isActive: false }] *)
Definition pause : SubscriptionPatch :=
  {| s_name := None; s_description := None; s_amount := None;
     s_billingCycle := None; s_nextBillingDate := None; s_accountId := None;
     s_categoryId := None; s_isActive := Some false |}.

(** The server after the user's PUT of [pause] on the new subscription. *)
Definition server_paused : Wide.Server :=
  (Wide.handle true (Wide.PUT user "0" pause) server_music).2.

(** The server after the user's EXPENSE of 50 on the USD account. *)
Definition server_spent : Wide.Server :=
  (Wide.embed (handle (POST user expense50)) server_two).2.

End Served.

(** * Properties of the ledger sum *)

Section ledger_sum.
Implicit Types (txs : gmap string Transaction.t) (t : Transaction.t).

Lemma ledger_sum_empty A : ledger_sum ∅ A = 0.
Proof. unfold ledger_sum. by rewrite map_fold_empty. Qed.

Lemma ledger_sum_delete txs id t A :
  txs !! id = Some t ->
  ledger_sum txs A = ledger_sum (delete id txs) A + posted A t.
Proof.
  intros Hid. unfold ledger_sum.
  rewrite (map_fold_delete_L _ _ id t txs); [done | | done].
  intros; lia.
Qed.

Lemma ledger_sum_insert_fresh txs id t A :
  txs !! id = None ->
  ledger_sum (<[id := t]> txs) A = ledger_sum txs A + posted A t.
Proof.
  intros Hid. unfold ledger_sum.
  rewrite map_fold_insert_L; [done | | done].
  intros; lia.
Qed.

Lemma ledger_sum_insert txs id t t' A :
  txs !! id = Some t ->
  ledger_sum (<[id := t']> txs) A = ledger_sum txs A - posted A t + posted A t'.
Proof.
  intros Hid.
  rewrite <- insert_delete_eq.
  rewrite ledger_sum_insert_fresh by apply lookup_delete_eq.
  rewrite (ledger_sum_delete txs id t A Hid). lia.
Qed.
End ledger_sum.

(** [posted] in terms of the delta function. *)
Lemma posted_delta A t :
  posted A t = if bool_decide (Transaction.accountId t = A) then contribution t else 0.
Proof.
  unfold posted, contribution, delta, is_TRANSFER, is_EXPENSE.
  destruct (Transaction.type t); repeat case_bool_decide; simpl; congruence.
Qed.

(** * Accounts under balance adjustments *)

Lemma add_balance_0 a : Account.add_balance 0 a = a.
Proof. destruct a; unfold Account.add_balance; simpl. f_equal. lia. Qed.

Lemma add_balance_add d1 d2 a :
  Account.add_balance d1 (Account.add_balance d2 a) = Account.add_balance (d2 + d1) a.
Proof. destruct a; unfold Account.add_balance; simpl. f_equal. lia. Qed.

Lemma adjust_0 id m : adjust id 0 m = m.
Proof. unfold adjust. apply alter_id. intros. apply add_balance_0. Qed.

Lemma adjust_lookup id d m a :
  m !! id = Some a -> adjust id d m !! id = Some (Account.add_balance d a).
Proof. intros H. unfold adjust. by rewrite lookup_alter_eq, H. Qed.

Lemma adjust_lookup_ne id id' d m : id <> id' -> adjust id d m !! id' = m !! id'.
Proof. intros H. unfold adjust. by rewrite lookup_alter_ne. Qed.

Lemma adjust_insert id d m a :
  m !! id = Some a -> <[id := Account.add_balance d a]> m = adjust id d m.
Proof.
  intros H. unfold adjust. apply map_eq. intros j.
  rewrite lookup_insert, lookup_alter. case_decide; subst; rewrite ?H; done.
Qed.

Lemma adjust_adjust id d1 d2 m : adjust id d1 (adjust id d2 m) = adjust id (d2 + d1) m.
Proof.
  unfold adjust. apply map_eq. intros j.
  destruct (decide (id = j)) as [->|Hne].
  - rewrite !lookup_alter_eq. destruct (m !! j); simpl; [|done].
    by rewrite add_balance_add.
  - by rewrite !lookup_alter_ne.
Qed.

Lemma adjust_cancel id d m : adjust id d (adjust id (- d) m) = m.
Proof. rewrite adjust_adjust. replace (- d + d) with 0 by lia. apply adjust_0. Qed.

Lemma adjust_is_Some id d m j : is_Some (adjust id d m !! j) <-> is_Some (m !! j).
Proof.
  unfold adjust. rewrite lookup_alter. case_decide; subst; [|done].
  by rewrite fmap_is_Some.
Qed.

(** * Reasoning about computations: weakest preconditions *)

Section wp_rules.
Context {R A : Type}.
Implicit Types (Q : Completion R A -> World -> Prop) (w : World).

Lemma wp_pure a w Q : Q (Normal a) w -> wp (pure a) w Q.
Proof. done. Qed.

Lemma wp_return r w Q : Q (Return r) w -> wp (return_ r) w Q.
Proof. done. Qed.

Lemma wp_throw e w Q : Q (Throw e) w -> wp (throw e) w Q.
Proof. done. Qed.

Lemma wp_bind {B} (m : M R B) (k : B -> M R A) w Q :
  wp m w (fun c w1 =>
    match c with
    | Normal b => wp (k b) w1 Q
    | Return r => Q (Return r) w1
    | Throw e => Q (Throw e) w1
    end) ->
  wp (bind m k) w Q.
Proof. unfold wp, bind. by destruct (m w) as [[b|r|e] w1]. Qed.

Lemma wp_try_catch (body : M R A) handler w Q :
  wp body w (fun c w1 =>
    match c with
    | Throw e => wp (handler e) w1 Q
    | _ => Q c w1
    end) ->
  wp (try_catch body handler) w Q.
Proof. unfold wp, try_catch. by destruct (body w) as [[b|r|e] w1]. Qed.

Lemma wp_storage c (op : Db -> Error + A * Db) w Q :
  (if faulty w (length (trace w))
   then Q (Throw StorageFailure) (after_call w c (db w))
   else match op (db w) with
        | inl e => Q (Throw e) (after_call w c (db w))
        | inr (a, d) => Q (Normal a) (after_call w c d)
        end) ->
  wp (storage c op) w Q.
Proof.
  unfold wp, storage, after_call.
  destruct (faulty w _); [done|]. by destruct (op (db w)) as [e|[a d]].
Qed.
End wp_rules.

Lemma wp_call {R R'} (body : M R R) w (Q : Completion R' R -> World -> Prop) :
  wp body w (fun (c : Completion R R) (w1 : World) =>
    match c with
    | Normal r => Q (Normal r) w1
    | Return r => Q (Normal r) w1
    | Throw e => Q (Throw e) w1
    end) ->
  wp (call body) w Q.
Proof. unfold wp, call. by destruct (body w) as [[b|r|e] w1]. Qed.

Lemma wp_console_log {R} l w (Q : Completion R unit -> World -> Prop) :
  Q (Normal tt) (after_log w l) -> wp (console_log l) w Q.
Proof. done. Qed.

Lemma wp_when {R} (cond : bool) (block : M R unit) w Q :
  (if cond then wp block w Q else Q (Normal tt) w) -> wp (when_ cond block) w Q.
Proof. by destruct cond. Qed.

Lemma wp_if_truthy {R} (s : option string) (block : string -> M R unit) w Q :
  match s with
  | Some x => if truthy (Some x) then wp (block x) w Q else Q (Normal tt) w
  | None => Q (Normal tt) w
  end ->
  wp (if_truthy s block) w Q.
Proof. destruct s as [x|]; [|done]. unfold if_truthy. by destruct (truthy _). Qed.

Lemma wp_mono {R A} (m : M R A) w (Q Q' : Completion R A -> World -> Prop) :
  (forall c w', Q c w' -> Q' c w') -> wp m w Q -> wp m w Q'.
Proof. unfold wp. auto. Qed.

Lemma wp_elim {R A} (m : M R A) w Q c w' : wp m w Q -> m w = (c, w') -> Q c w'.
Proof. unfold wp. intros H E. by rewrite E in H. Qed.

Lemma references_Some {V} (m : gmap string V) id v :
  m !! id = Some v -> Prisma.references m id = true.
Proof. intros H. unfold Prisma.references. rewrite H. by apply bool_decide_eq_true_2. Qed.

Lemma references_None {V} (m : gmap string V) id :
  m !! id = None -> Prisma.references m id = false.
Proof.
  intros H. unfold Prisma.references. rewrite H.
  apply bool_decide_eq_false_2. by intros [? ?].
Qed.

Lemma wp_account_update {R} id op w (Q : Completion R Account.t -> World -> Prop) :
  (if faulty w (length (trace w))
   then Q (Throw StorageFailure) (after_call w (AccountUpdate id op) (db w))
   else match accounts (db w) !! id with
        | Some a =>
            Q (Normal (Account.add_balance (signed op) a))
              (after_call w (AccountUpdate id op)
                 (set_accounts (adjust id (signed op) (accounts (db w))) (db w)))
        | None => Q (Throw RecordNotFound) (after_call w (AccountUpdate id op) (db w))
        end) ->
  wp (Prisma.account_update id op) w Q.
Proof.
  intros H. unfold Prisma.account_update. apply wp_storage.
  destruct (faulty w _); [done|].
  destruct (accounts (db w) !! id) as [a|] eqn:Ha; [|done].
  by rewrite (adjust_insert _ _ _ _ Ha).
Qed.

Lemma wp_subscription_update {R} id nd w
    (Q : Completion R Subscription.t -> World -> Prop) :
  (if faulty w (length (trace w))
   then Q (Throw StorageFailure) (after_call w (SubscriptionUpdate id nd) (db w))
   else match subscriptions (db w) !! id with
        | Some s =>
            Q (Normal (Subscription.set_nextBillingDate nd s))
              (after_call w (SubscriptionUpdate id nd)
                 (set_subscriptions
                    (alter (Subscription.set_nextBillingDate nd) id
                       (subscriptions (db w))) (db w)))
        | None =>
            Q (Throw RecordNotFound) (after_call w (SubscriptionUpdate id nd) (db w))
        end) ->
  wp (Prisma.subscription_update id nd) w Q.
Proof.
  intros H. unfold Prisma.subscription_update. apply wp_storage.
  destruct (faulty w _); [done|].
  destruct (subscriptions (db w) !! id) as [s|] eqn:Hs; [|done].
  replace (<[id:=Subscription.set_nextBillingDate nd s]> (subscriptions (db w)))
    with (alter (Subscription.set_nextBillingDate nd) id (subscriptions (db w)));
    [done|].
  apply map_eq. intros j. rewrite lookup_insert, lookup_alter.
  case_decide; subst; rewrite ?Hs; done.
Qed.

Lemma wp_account_findUnique {R} id w
    (Q : Completion R (option Currency) -> World -> Prop) :
  (if faulty w (length (trace w))
   then Q (Throw StorageFailure) (after_call w (AccountFindUnique id) (db w))
   else match accounts (db w) !! id with
        | Some a =>
            Q (Normal (Some (Account.currency a)))
              (after_call w (AccountFindUnique id) (db w))
        | None => Q (Normal None) (after_call w (AccountFindUnique id) (db w))
        end) ->
  wp (Prisma.account_findUnique id) w Q.
Proof.
  intros H. unfold Prisma.account_findUnique. apply wp_storage.
  destruct (faulty w _); [done|].
  by destruct (accounts (db w) !! id).
Qed.

(** Projections of the worlds and rows built by the rules. *)
Ltac wsimpl :=
  cbn [db trace console faulty after_call after_log
       accounts transactions subscriptions categories
       set_accounts set_transactions set_subscriptions fst snd signed
       Transaction.amount Transaction.description Transaction.type
       Transaction.date Transaction.currency Transaction.processed
       Transaction.aiExtracted Transaction.userId Transaction.accountId
       Transaction.categoryId Transaction.metadata
       Prisma.references_opt Prisma.patched created_row expense_of
       negb andb orb nullish] in *;
  repeat first
    [ progress change (is_TRANSFER INCOME) with false in *
    | progress change (is_TRANSFER EXPENSE) with false in *
    | progress change (is_TRANSFER TRANSFER) with true in *
    | progress change (is_EXPENSE INCOME) with false in *
    | progress change (is_EXPENSE EXPENSE) with true in *
    | progress change (is_EXPENSE TRANSFER) with false in * ];
  cbn [negb andb orb] in *.

Ltac wsimpl_goal :=
  cbn [db trace console faulty after_call after_log
       accounts transactions subscriptions categories
       set_accounts set_transactions set_subscriptions fst snd signed
       Transaction.amount Transaction.description Transaction.type
       Transaction.date Transaction.currency Transaction.processed
       Transaction.aiExtracted Transaction.userId Transaction.accountId
       Transaction.categoryId Transaction.metadata
       Prisma.references_opt Prisma.patched created_row expense_of
       negb andb orb nullish];
  repeat first
    [ progress change (is_TRANSFER INCOME) with false
    | progress change (is_TRANSFER EXPENSE) with false
    | progress change (is_TRANSFER TRANSFER) with true
    | progress change (is_EXPENSE INCOME) with false
    | progress change (is_EXPENSE EXPENSE) with true
    | progress change (is_EXPENSE TRANSFER) with false ];
  cbn [negb andb orb].

Ltac use_eqs :=
  repeat match goal with
         | H : ?x = _ |- context [?x] =>
             lazymatch x with
             | _ !! _ => rewrite H
             | faulty _ _ => rewrite H
             | faulty _ => rewrite H
             | db _ => rewrite H
             | nextBillingDate_after _ _ _ => rewrite H
             end
         | H : ?m !! ?i = Some _ |- context [Prisma.references ?m ?i] =>
             rewrite (references_Some _ _ _ H)
         | H : ?m !! ?i = None |- context [Prisma.references ?m ?i] =>
             rewrite (references_None _ _ H)
         | H : fault_free ?w |- context [faulty ?w ?n] => rewrite (H n)
         | H : ?x = true |- context [?x] =>
             lazymatch x with true => fail | false => fail | _ => rewrite H end
         | H : ?x = false |- context [?x] =>
             lazymatch x with true => fail | false => fail | _ => rewrite H end
         end.

(** The innermost scrutinee of nested matches. *)
Ltac innermost x :=
  lazymatch x with
  | match ?y with _ => _ end => innermost y
  | _ => x
  end.

(** Rewrites the scrutinee [y] by what is known of it; fails when nothing
    is. *)
Ltac known y :=
  first
    [ match goal with H : y = _ |- _ => rewrite H end
    | match y with
      | ?a && ?b => first [known a | known b]
      | ?a || ?b => first [known a | known b]
      | negb ?a => known a
      end
    | match y with
      | context [db ?w1] =>
          match goal with H : db w1 = _ |- _ => rewrite H end
      end
    | match y with
      | context [faulty ?w1] =>
          match goal with H : faulty w1 = _ |- _ => rewrite H end
      end
    | match y with
      | faulty ?w1 ?n =>
          match goal with H : fault_free w1 |- _ => rewrite (H n) end
      end
    | match y with
      | Prisma.references ?m ?i =>
          match goal with
          | H : m !! i = Some _ |- _ => rewrite (references_Some _ _ _ H)
          | H : m !! i = None |- _ => rewrite (references_None _ _ H)
          end
      end ].

Ltac case_on x :=
  let y := innermost x in
  first [ known y | destruct y eqn:? ].

Ltac wp_step :=
  lazymatch goal with
  | |- wp (bind _ _) _ _ => apply wp_bind
  | |- wp (try_catch _ _) _ _ => apply wp_try_catch
  | |- wp (call _) _ _ => apply wp_call
  | |- wp (pure _) _ _ => apply wp_pure
  | |- wp (return_ _) _ _ => apply wp_return
  | |- wp (throw _) _ _ => apply wp_throw
  | |- wp (console_log _) _ _ => apply wp_console_log
  | |- wp (when_ _ _) _ _ => apply wp_when
  | |- wp (if_truthy _ _) _ _ => apply wp_if_truthy
  | |- wp (storage _ _) _ _ => apply wp_storage
  | |- wp (check_category _ _) _ _ => unfold check_category
  | |- wp (check_account _ _ _) _ _ => unfold check_account
  | |- wp (CreateTransactionSchema_parse _) _ _ => unfold CreateTransactionSchema_parse
  | |- wp (UpdateTransactionSchema_parse _) _ _ => unfold UpdateTransactionSchema_parse
  | |- wp (Prisma.account_findFirst _ _) _ _ => unfold Prisma.account_findFirst
  | |- wp (Prisma.account_findUnique _) _ _ => apply wp_account_findUnique
  | |- wp (Prisma.account_update _ _) _ _ => apply wp_account_update
  | |- wp (Prisma.category_findFirst _ _) _ _ => unfold Prisma.category_findFirst
  | |- wp (Prisma.transaction_create _) _ _ => unfold Prisma.transaction_create
  | |- wp (Prisma.transaction_findFirst _ _) _ _ => unfold Prisma.transaction_findFirst
  | |- wp (Prisma.transaction_update _ _) _ _ => unfold Prisma.transaction_update
  | |- wp (Prisma.transaction_delete _) _ _ => unfold Prisma.transaction_delete
  | |- wp (Prisma.subscription_findMany _) _ _ => unfold Prisma.subscription_findMany
  | |- wp (Prisma.subscription_update _ _) _ _ => apply wp_subscription_update
  | |- wp (processSubscription _ _) _ _ => unfold processSubscription
  | |- wp (processSubscriptions _ _) _ _ => unfold processSubscriptions
  | |- wp (match ?x with _ => _ end) _ _ => case_on x
  | |- wp (let _ := _ in _) _ _ => cbv zeta
  | |- match ?x with _ => _ end => case_on x
  end; cbv beta iota; wsimpl_goal; cbv beta iota.

Ltac wp_run := repeat wp_step.

(** * Blocks that only read the store *)

Lemma reads_refl w : reads w w.
Proof. repeat split. exists []. by rewrite app_nil_r. Qed.

Lemma reads_trans w w1 w2 : reads w w1 -> reads w1 w2 -> reads w w2.
Proof.
  intros (Hd & Hf & cs & Ht & Hb) (Hd' & Hf' & cs' & Ht' & Hb').
  split; [congruence|]. split; [congruence|].
  exists (cs ++ cs'). split; [by rewrite Ht', Ht, app_assoc|].
  unfold balance_updates in *. by rewrite omap_app, Hb, Hb'.
Qed.

Lemma reads_log w l : reads w (after_log w l).
Proof. repeat split. exists []. by rewrite app_nil_r. Qed.

Lemma reads_call w c :
  balance_updates [c] = [] -> reads w (after_call w c (db w)).
Proof. intros H. repeat split. by exists [c]. Qed.

Lemma reads_fault_free w w1 : reads w w1 -> fault_free w -> fault_free w1.
Proof. intros (_ & Hf & _) H n. by rewrite Hf. Qed.

(** Sequencing through an intermediate assertion. *)
Lemma wp_seq {R A B} (m : M R B) (k : B -> M R A) w
    (P : Completion R B -> World -> Prop) (Q : Completion R A -> World -> Prop) :
  wp m w P ->
  (forall c w1, P c w1 ->
     match c with
     | Normal b => wp (k b) w1 Q
     | Return r => Q (Return r) w1
     | Throw e => Q (Throw e) w1
     end) ->
  wp (bind m k) w Q.
Proof. intros Hm Hk. apply wp_bind. revert Hm. apply wp_mono. exact Hk. Qed.

Lemma fault_free_not_faulty w n : fault_free w -> faulty w n = true -> False.
Proof. intros H. rewrite (H n). discriminate. Qed.

Lemma check_category_checked userId categoryId w :
  wp (check_category userId categoryId) w
     (checked (category_visible userId (db w) categoryId) w).
Proof.
  unfold checked. wp_run; (split; [|split; [done|]]);
    auto using reads_refl, reads_call.
  all: intros Hf Hv; try done.
  all: try (exfalso; eapply fault_free_not_faulty; eassumption).
  all: unfold category_visible in Hv; simplify_eq; destruct Hv as (Htr & c & Hc & Hvis).
  all: try congruence.
  all: match goal with H : bool_decide _ = true |- _ =>
         apply bool_decide_eq_true_1 in H; rewrite Hc in H end.
  all: destruct (_ || _) eqn:Hor; [done|].
  all: apply orb_false_iff in Hor as [H1 H2].
  all: apply bool_decide_eq_false_1 in H1.
  all: destruct Hvis; congruence.
Qed.

Lemma check_account_checked userId existing accountId w :
  wp (check_account userId existing accountId) w
     (checked (account_movable userId (db w) existing accountId) w).
Proof.
  unfold checked. wp_run; (split; [|split; [done|]]);
    auto using reads_refl, reads_call.
  all: intros Hf Hv; try done.
  all: try (exfalso; eapply fault_free_not_faulty; eassumption).
  all: unfold account_movable, account_visible in Hv; simplify_eq.
  all: match goal with H : negb (String.eqb _ _) = true |- _ =>
         apply negb_true_iff, String.eqb_neq in H end.
  all: destruct Hv as [?|(a & Ha & Hu & Hact)]; [done|].
  all: match goal with H : bool_decide _ = true |- _ =>
         apply bool_decide_eq_true_1 in H; rewrite Ha in H end.
  all: destruct (_ && _) eqn:Hand; [done|].
  all: apply andb_false_iff in Hand as [H1|H1].
  all: try (apply bool_decide_eq_false_1 in H1); congruence.
Qed.

(** Stepping through a handler: the checks by their lemma, the rest by the
    rules. *)
Ltac wp_check :=
  lazymatch goal with
  | |- wp (bind (check_category _ _) _) _ _ =>
      eapply wp_seq; [apply check_category_checked|]
  | |- wp (bind (check_account _ _ _) _) _ _ =>
      eapply wp_seq; [apply check_account_checked|]
  end;
  let Hr := fresh "Hreads" in
  let Hd := fresh "Hdb" in
  let Hf := fresh "Hfaulty" in
  let Ht := fresh "Htrace" in
  let Hb := fresh "Hupd" in
  let Hs := fresh "Hstatus" in
  let Hp := fresh "Hpass" in
  let c := fresh "c" in
  intros c ? (Hr & Hs & Hp);
  first [ assert (c = Normal tt) as -> by
            (apply Hp;
             [ eauto using reads_fault_free
             | use_eqs; wsimpl; assumption ]);
          clear Hp
        | clear Hp; destruct c as [[]|?|?] ];
  pose proof Hr as (Hd & Hf & ? & Ht & Hb);
  cbv beta iota; wsimpl; use_eqs; cbv beta iota.

Ltac wp_go := repeat first [wp_check | wp_step]; wsimpl; use_eqs; wsimpl.

(** The calls issued since [w], read off a trace that extends [w]'s. *)
Lemma issued_app w w' cs : trace w' = trace w ++ cs -> issued w w' = cs.
Proof. intros H. unfold issued. rewrite H. apply drop_app_length. Qed.

Lemma balance_updates_app cs1 cs2 :
  balance_updates (cs1 ++ cs2) = balance_updates cs1 ++ balance_updates cs2.
Proof. unfold balance_updates. apply omap_app. Qed.

Ltac trace_eqs :=
  repeat match goal with
         | H : trace ?w = _ |- context [trace ?w] => rewrite H
         end.

(** Normalises [balance_updates (issued w w')] for a world [w'] built by
    the rules. *)
Ltac issued_updates :=
  first
    [ erewrite issued_app;
      [|wsimpl; trace_eqs; wsimpl; trace_eqs; rewrite <- ?app_assoc; reflexivity]
    | erewrite (issued_app _ _ []);
      [|wsimpl; trace_eqs; wsimpl; by rewrite app_nil_r] ];
  rewrite ?balance_updates_app;
  repeat match goal with
         | H : balance_updates ?x = [] |- context [balance_updates ?x] => rewrite H
         end;
  cbn [balance_updates omap list_omap app signed].

(** * The store invariants under the writes of the handlers *)

Lemma fresh_lookup {V} (m : gmap string V) : m !! fresh (dom m) = None.
Proof. apply not_elem_of_dom. apply is_fresh. Qed.

(** When the ledger of every account moves by [shift] and so does its
    balance, the store stays balanced. *)
Lemma balanced_shift d d' (shift : string -> Z) :
  balanced d ->
  (forall A, ledger_sum (transactions d') A = ledger_sum (transactions d) A + shift A) ->
  (forall A a', accounts d' !! A = Some a' ->
     exists a, accounts d !! A = Some a /\
               Account.balance a' = Account.balance a + shift A) ->
  balanced d'.
Proof.
  intros Hb Hsum Hacc A a' HA.
  destruct (Hacc _ _ HA) as (a & Ha & ->).
  rewrite Hsum, (Hb _ _ Ha). done.
Qed.

Lemma referential_step d d' :
  referential d ->
  (forall j, is_Some (accounts d !! j) -> is_Some (accounts d' !! j)) ->
  (forall i t, transactions d' !! i = Some t ->
     transactions d !! i = Some t \/ is_Some (accounts d' !! Transaction.accountId t)) ->
  referential d'.
Proof.
  intros Hr Hacc Htx i t Hi.
  destruct (Htx _ _ Hi) as [H|H]; [|done]. apply Hacc. by apply (Hr i).
Qed.

(** The balance of an account after adjustments. *)
Lemma adjust_lookup_Some id d m j a' :
  adjust id d m !! j = Some a' ->
  exists a, m !! j = Some a /\
    Account.balance a' = Account.balance a + (if bool_decide (id = j) then d else 0).
Proof.
  unfold adjust. rewrite lookup_alter. case_decide as E.
  - subst. rewrite bool_decide_eq_true_2 by done.
    destruct (m !! j) as [a|]; simpl; [|done]. intros ?; simplify_eq.
    exists a. by destruct a.
  - rewrite bool_decide_eq_false_2 by done. intros H. exists a'. split; [done|lia].
Qed.

Lemma posted_cases A t :
  posted A t =
  if bool_decide (Transaction.accountId t = A)
  then delta (Transaction.type t) (Transaction.amount t) else 0.
Proof. apply posted_delta. Qed.

Lemma ledger_ok_step d d' (shift : string -> Z) :
  ledger_ok d ->
  (forall A, ledger_sum (transactions d') A = ledger_sum (transactions d) A + shift A) ->
  (forall A a', accounts d' !! A = Some a' ->
     exists a, accounts d !! A = Some a /\
               Account.balance a' = Account.balance a + shift A) ->
  (forall j, is_Some (accounts d !! j) -> is_Some (accounts d' !! j)) ->
  (forall i t, transactions d' !! i = Some t ->
     transactions d !! i = Some t \/ is_Some (accounts d !! Transaction.accountId t)) ->
  ledger_ok d'.
Proof.
  intros [Hr Hb] Hsum Hacc Hdom Htx. split.
  - apply (referential_step d); [done..|].
    intros i t Hi. destruct (Htx _ _ Hi); auto.
  - by apply (balanced_shift d d' shift).
Qed.

(** The three writes on the transactions table. *)
Lemma ledger_ok_insert d d' id t :
  ledger_ok d ->
  transactions d !! id = None ->
  transactions d' = <[id := t]> (transactions d) ->
  is_Some (accounts d !! Transaction.accountId t) ->
  (forall A a', accounts d' !! A = Some a' ->
     exists a, accounts d !! A = Some a /\
               Account.balance a' = Account.balance a + posted A t) ->
  (forall j, is_Some (accounts d !! j) -> is_Some (accounts d' !! j)) ->
  ledger_ok d'.
Proof.
  intros Hok Hid Htx Ht Hacc Hdom.
  apply (ledger_ok_step d d' (fun A => posted A t)); [done| |done|done|].
  - intros A. rewrite Htx. by apply ledger_sum_insert_fresh.
  - intros i t'. rewrite Htx, lookup_insert.
    case_decide; intros ?; simplify_eq; auto.
Qed.

Lemma ledger_ok_replace d d' id old new :
  ledger_ok d ->
  transactions d !! id = Some old ->
  transactions d' = <[id := new]> (transactions d) ->
  is_Some (accounts d !! Transaction.accountId new) ->
  (forall A a', accounts d' !! A = Some a' ->
     exists a, accounts d !! A = Some a /\
               Account.balance a' = Account.balance a + (posted A new - posted A old)) ->
  (forall j, is_Some (accounts d !! j) -> is_Some (accounts d' !! j)) ->
  ledger_ok d'.
Proof.
  intros Hok Hid Htx Ht Hacc Hdom.
  apply (ledger_ok_step d d' (fun A => posted A new - posted A old));
    [done| |done|done|].
  - intros A. rewrite Htx, (ledger_sum_insert _ _ old) by done. lia.
  - intros i t'. rewrite Htx, lookup_insert.
    case_decide; intros ?; simplify_eq; auto.
Qed.

Lemma ledger_ok_delete d d' id old :
  ledger_ok d ->
  transactions d !! id = Some old ->
  transactions d' = delete id (transactions d) ->
  (forall A a', accounts d' !! A = Some a' ->
     exists a, accounts d !! A = Some a /\
               Account.balance a' = Account.balance a + - posted A old) ->
  (forall j, is_Some (accounts d !! j) -> is_Some (accounts d' !! j)) ->
  ledger_ok d'.
Proof.
  intros Hok Hid Htx Hacc Hdom.
  apply (ledger_ok_step d d' (fun A => - posted A old)); [done| |done|done|].
  - intros A. rewrite Htx, (ledger_sum_delete (transactions d) id old A) by done. lia.
  - intros i t'. rewrite Htx, lookup_delete.
    case_decide; intros ?; simplify_eq; auto.
Qed.

Lemma referential_lookup d id t :
  ledger_ok d -> transactions d !! id = Some t ->
  is_Some (accounts d !! Transaction.accountId t).
Proof. intros [Hr _]. apply Hr. Qed.

Lemma references_opt_nullish {V} (m : gmap string V) (o : option string) dflt :
  Prisma.references_opt m o = true -> is_Some (m !! dflt) ->
  is_Some (m !! nullish o dflt).
Proof.
  destruct o as [s|]; simpl; [|done]. unfold Prisma.references.
  intros H _. by apply bool_decide_eq_true_1 in H.
Qed.

(** Balances read back through a stack of adjustments. *)
Ltac read_adjust H :=
  repeat match type of H with
         | adjust _ _ _ !! _ = Some _ =>
             let a := fresh "a" in
             let E := fresh "E" in
             apply adjust_lookup_Some in H as (a & H & E)
         end.

Lemma not_provided p :
  bool_decide (p_amount p <> None) || bool_decide (p_type p <> None)
  || bool_decide (p_accountId p <> None) = false ->
  p_amount p = None /\ p_type p = None /\ p_accountId p = None.
Proof.
  rewrite !orb_false_iff, !bool_decide_eq_false.
  intros [[H1 H2] H3].
  destruct (p_amount p), (p_type p), (p_accountId p); try done;
    exfalso; first [by apply H1 | by apply H2 | by apply H3].
Qed.

(** Case analysis on the transaction types that occur under [delta] or in
    the handlers' tests. *)
Ltac case_type ty :=
  lazymatch ty with
  | INCOME => fail
  | EXPENSE => fail
  | TRANSFER => fail
  | _ => let E := fresh "Ety" in destruct ty eqn:E; rewrite ?E in *; wsimpl
  end.

Ltac case_types :=
  repeat match goal with
         | |- context [delta ?ty _] => case_type ty
         | |- context [is_EXPENSE ?ty] => case_type ty
         | H : context [is_TRANSFER ?ty] |- _ => case_type ty
         end;
  wsimpl; cbn [delta] in *.

Ltac absent_fields :=
  repeat match goal with
         | H : ?x = None |- context [nullish ?x _] => rewrite H
         end;
  wsimpl.

Ltac goal_bool_decide :=
  repeat match goal with
         | |- context [bool_decide ?P] => destruct (bool_decide_reflect P)
         end.

Ltac accounts_shift :=
  let A := fresh "A" in
  let a' := fresh "a'" in
  let H := fresh "HA" in
  intros A a' H; wsimpl; read_adjust H;
  eexists; split; [exact H|];
  rewrite ?posted_cases; wsimpl; absent_fields;
  repeat match goal with E : Account.balance _ = _ |- _ => rewrite E; clear E end;
  absent_fields; goal_bool_decide; case_types; simplify_eq; try lia.

Ltac accounts_dom :=
  let j := fresh "j" in
  intros j; wsimpl; rewrite ?adjust_is_Some; done.

Lemma adjust_lookup_None id d m j : adjust id d m !! j = None <-> m !! j = None.
Proof. rewrite !eq_None_not_Some. by rewrite adjust_is_Some. Qed.

(** A lookup that found nothing where a row is known to be. *)
Ltac absurd_lookup :=
  repeat match goal with
         | H : adjust _ _ _ !! _ = None |- _ => apply adjust_lookup_None in H
         end;
  match goal with
  | H : ?m !! ?i = None, H' : is_Some (?m !! ?i) |- _ =>
      rewrite H in H'; by destruct H'
  end.

(** * The handlers keep the ledger invariants *)

Ltac with_existing_row Hok :=
  match goal with
  | Ht : transactions (db _) !! _ = Some ?t |- _ =>
      let Hold := fresh "Hold" in
      pose proof (referential_lookup _ _ _ Hok Ht) as Hold
  end.

Lemma post_ledger_ok u b w :
  fault_free w -> ledger_ok (db w) ->
  ledger_ok (db (@post Empty_set u b w).2).
Proof.
  intros Hf Hok.
  change (wp (@post Empty_set u b) w (fun _ w' => ledger_ok (db w'))).
  unfold post. wp_go; try assumption.
  all: wsimpl.
  all: match goal with
       | Ha : accounts ?d !! ?acc = Some _
         |- ledger_ok (_ (set_transactions (<[?i := ?t]> _) _)) =>
           apply (ledger_ok_insert d _ i t);
             [done|apply fresh_lookup|done|wsimpl; by rewrite Ha
             | |accounts_dom]
       | Ha : accounts ?d !! ?acc = Some _
         |- ledger_ok (set_transactions (<[?i := ?t]> _) _) =>
           apply (ledger_ok_insert d _ i t);
             [done|apply fresh_lookup|done|wsimpl; by rewrite Ha
             | |accounts_dom]
       end.
  all: accounts_shift.
Qed.

Lemma put_ledger_ok u id p w :
  fault_free w -> ledger_ok (db w) ->
  ledger_ok (db (@put Empty_set u id p w).2).
Proof.
  intros Hf Hok.
  change (wp (@put Empty_set u id p) w (fun _ w' => ledger_ok (db w'))).
  unfold put. wp_go; try assumption.
  all: wsimpl.
  all: with_existing_row Hok.
  all: match goal with
       | H : _ && _ = true |- _ =>
           apply andb_true_iff in H as [Hfk _];
           pose proof (references_opt_nullish _ _ _ Hfk Hold) as Hnew
       end.
  all: try match goal with
       | H : _ || _ = false |- _ =>
           apply not_provided in H as (Ea & Et & Eacc);
           rewrite ?Ea, ?Et, ?Eacc in *; wsimpl
       end.
  all: try absurd_lookup.
  all: match goal with
       | Ht : transactions ?d !! ?i = Some ?t |- _ =>
           apply (ledger_ok_replace d _ i t (Prisma.patched p t));
             [done|done|done|wsimpl; absent_fields; done| |accounts_dom]
       end.
  all: accounts_shift.
Qed.

Lemma delete_ledger_ok u id w :
  fault_free w -> ledger_ok (db w) ->
  ledger_ok (db (@delete_ Empty_set u id w).2).
Proof.
  intros Hf Hok.
  change (wp (@delete_ Empty_set u id) w (fun _ w' => ledger_ok (db w'))).
  unfold delete_. wp_go; try assumption.
  all: wsimpl.
  all: with_existing_row Hok.
  all: try absurd_lookup.
  all: match goal with
       | Ht : transactions ?d !! ?i = Some ?t |- _ =>
           apply (ledger_ok_delete d _ i t); [done|done|done| |accounts_dom]
       end.
  all: accounts_shift.
Qed.

Lemma handle_fault_free q w : fault_free w -> fault_free (handle q w).2.
Proof.
  intros Hf.
  assert (forall R (m : M R Response),
             wp m w (fun _ w' => faulty w' = faulty w) ->
             fault_free (m w).2) as Hwp.
  { intros R m H n. unfold wp in H. by rewrite H. }
  destruct q as [u b|u id p|u id]; simpl; apply Hwp.
  - unfold post. wp_go; wsimpl; congruence.
  - unfold put. wp_go; wsimpl; congruence.
  - unfold delete_. wp_go; wsimpl; congruence.
Qed.

Lemma handle_ledger_ok q w :
  fault_free w -> ledger_ok (db w) -> ledger_ok (db (handle q w).2).
Proof.
  destruct q; simpl;
    auto using post_ledger_ok, put_ledger_ok, delete_ledger_ok.
Qed.

(** C1.  Whatever create, update and delete requests are served, one after
    the other and with the store answering every call, every account's
    cached balance equals the sum of the signed amounts (+amount for INCOME,
    -amount for EXPENSE) of the INCOME and EXPENSE transactions that
    currently reference it, provided that held to begin with (as it does
    for accounts opened at balance zero with no transactions). *)
Theorem balance_invariant (qs : list Request) (w : World) :
  fault_free w ->
  referential (db w) ->
  balanced (db w) ->
  balanced (db (serve qs w)).
Proof.
  intros Hf Hr Hb.
  assert (ledger_ok (db w)) as Hok by (by split).
  clear Hr Hb. revert w Hf Hok.
  induction qs as [|q qs IH]; intros w Hf Hok; simpl.
  - apply Hok.
  - apply IH; [by apply handle_fault_free | by apply handle_ledger_ok].
Qed.

(** * What the handlers do when every step succeeds *)

Lemma category_visible_references u d cid :
  category_visible u d cid -> Prisma.references_opt (categories d) cid = true.
Proof.
  destruct cid as [c|]; simpl; [|done].
  intros (_ & cat & Hc & _). by apply (references_Some _ _ cat).
Qed.

Lemma account_movable_references u d existing acc :
  account_movable u d existing acc ->
  is_Some (accounts d !! Transaction.accountId existing) ->
  Prisma.references_opt (accounts d) acc = true.
Proof.
  destruct acc as [id|]; simpl; [|done].
  intros [->|(a & Ha & _)] Hold.
  - destruct Hold as [a Ha]. by apply (references_Some _ _ a).
  - by apply (references_Some _ _ a).
Qed.

Lemma post_ok {R} u b w a :
  fault_free w ->
  0 < c_amount b ->
  accounts (db w) !! c_accountId b = Some a ->
  Account.userId a = u ->
  Account.isActive a = true ->
  category_visible u (db w) (c_categoryId b) ->
  let id := fresh (dom (transactions (db w))) in
  let t := created_row u b a in
  wp (@post R u b) w (fun c w' =>
    c = Normal (json (TransactionBody id t) 201) /\
    transactions (db w') = <[id := t]> (transactions (db w)) /\
    accounts (db w') =
      adjust (c_accountId b) (delta (c_type b) (c_amount b)) (accounts (db w)) /\
    faulty w' = faulty w /\
    balance_updates (issued w w') =
      if is_TRANSFER (c_type b) then []
      else [(c_accountId b, delta (c_type b) (c_amount b))]).
Proof.
  intros Hf Hpos Ha Hu Hact Hcat id t.
  apply Z.ltb_lt in Hpos.
  assert (bool_decide (Account.userId a = u) && Account.isActive a = true) as Hvis.
  { rewrite Hact, bool_decide_eq_true_2; done. }
  pose proof (category_visible_references _ _ _ Hcat) as Hfk.
  unfold post. wp_go.
  all: subst id t; repeat split; try done.
  all: try (symmetry; by apply adjust_0).
  all: case_types; try done.
  all: try by issued_updates.
  all: symmetry; apply adjust_0.
Qed.

Lemma put_ok {R} u id p w old :
  fault_free w ->
  transactions (db w) !! id = Some old ->
  Transaction.userId old = u ->
  patch_valid p ->
  account_movable u (db w) old (p_accountId p) ->
  category_visible u (db w) (p_categoryId p) ->
  is_Some (accounts (db w) !! Transaction.accountId old) ->
  let new := Prisma.patched p old in
  wp (@put R u id p) w (fun c w' =>
    c = Normal (json (TransactionBody id new) 200) /\
    transactions (db w') = <[id := new]> (transactions (db w)) /\
    accounts (db w') =
      (if provided p
       then adjust (Transaction.accountId new) (contribution new)
              (adjust (Transaction.accountId old) (- contribution old)
                 (accounts (db w)))
       else accounts (db w)) /\
    faulty w' = faulty w /\
    balance_updates (issued w w') =
      if provided p
      then (if is_TRANSFER (Transaction.type old) then []
            else [(Transaction.accountId old, - contribution old)]) ++
           (if is_TRANSFER (Transaction.type new) then []
            else [(Transaction.accountId new, contribution new)])
      else []).
Proof.
  intros Hf Hold Hu Hvalid Hmov Hcat Hacc new.
  pose proof (category_visible_references _ _ _ Hcat) as Hfkc.
  pose proof (account_movable_references _ _ _ _ Hmov Hacc) as Hfka.
  pose proof (references_opt_nullish _ _ _ Hfka Hacc) as Hnew.
  destruct Hacc as [a0 Ha0].
  assert (bool_decide (Transaction.userId old = u) = true) as Hown
    by (by apply bool_decide_eq_true_2).
  unfold put. wp_go.
  all: try absurd_lookup.
  all: try match goal with
       | H : (0 <? _) = false, E : p_amount _ = Some _ |- _ =>
           exfalso; unfold patch_valid in Hvalid; rewrite E in Hvalid;
           apply Z.ltb_ge in H; lia
       end.
  all: subst new; unfold provided, contribution; wsimpl; use_eqs; cbv iota.
  all: repeat split; try done.
  all: try (issued_updates; case_types; rewrite ?Z.opp_involutive; done).
  all: case_types; rewrite ?adjust_0, ?Z.opp_involutive; try done.
Qed.

Lemma delete_ok {R} u id w t :
  fault_free w ->
  transactions (db w) !! id = Some t ->
  Transaction.userId t = u ->
  is_Some (accounts (db w) !! Transaction.accountId t) ->
  wp (@delete_ R u id) w (fun c w' =>
    c = Normal (json SuccessBody 200) /\
    transactions (db w') = delete id (transactions (db w)) /\
    accounts (db w') =
      adjust (Transaction.accountId t) (- contribution t) (accounts (db w)) /\
    faulty w' = faulty w /\
    balance_updates (issued w w') =
      if is_TRANSFER (Transaction.type t) then []
      else [(Transaction.accountId t, - contribution t)]).
Proof.
  intros Hf Ht Hu [a Ha].
  assert (bool_decide (Transaction.userId t = u) = true) as Hown
    by (by apply bool_decide_eq_true_2).
  unfold delete_. wp_go.
  all: unfold contribution; repeat split; try done.
  all: try (issued_updates; case_types; rewrite ?Z.opp_involutive; done).
  all: case_types; rewrite ?adjust_0, ?Z.opp_involutive; try done.
Qed.

(** What a 201 answer of POST says about the store, whatever the store did
    to other calls. *)
Lemma post_created {R} u b w :
  wp (@post R u b) w (fun c w' =>
    forall id t, c = Normal (json (TransactionBody id t) 201) ->
      transactions (db w) !! id = None /\
      transactions (db w') = <[id := t]> (transactions (db w)) /\
      accounts (db w') =
        adjust (Transaction.accountId t) (contribution t) (accounts (db w)) /\
      faulty w' = faulty w).
Proof.
  unfold post. wp_go.
  all: intros id' t' Heq; unfold json in Heq; simplify_eq; unfold contribution; wsimpl.
  all: repeat split; try done; try apply fresh_lookup.
  all: case_types; rewrite ?adjust_0; done.
Qed.

Lemma wp_result {R A} (m : M R A) w Q :
  wp m w Q -> exists c w', m w = (c, w') /\ Q c w'.
Proof. unfold wp. intros H. exists (m w).1, (m w).2. by destruct (m w). Qed.

(** What a successful update leaves, with the two balance updates written
    uniformly: when nothing relevant was provided they cancel. *)
Lemma put_result u id p w old :
  fault_free w ->
  transactions (db w) !! id = Some old ->
  Transaction.userId old = u ->
  patch_valid p ->
  account_movable u (db w) old (p_accountId p) ->
  category_visible u (db w) (p_categoryId p) ->
  is_Some (accounts (db w) !! Transaction.accountId old) ->
  let new := Prisma.patched p old in
  let unchanged :=
    Transaction.amount new = Transaction.amount old /\
    Transaction.type new = Transaction.type old /\
    Transaction.accountId new = Transaction.accountId old in
  exists w',
    handle (PUT u id p) w = (Normal (json (TransactionBody id new) 200), w') /\
    transactions (db w') = <[id := new]> (transactions (db w)) /\
    accounts (db w') =
      adjust (Transaction.accountId new) (contribution new)
        (adjust (Transaction.accountId old) (- contribution old)
           (accounts (db w))) /\
    (unchanged -> accounts (db w') = accounts (db w)) /\
    (provided p = false -> unchanged) /\
    balance_updates (issued w w') =
      if provided p
      then (if is_TRANSFER (Transaction.type old) then []
            else [(Transaction.accountId old, - contribution old)]) ++
           (if is_TRANSFER (Transaction.type new) then []
            else [(Transaction.accountId new, contribution new)])
      else [].
Proof.
  intros Hf Hold Hu Hvalid Hmov Hcat Hacc new unchanged.
  pose proof (put_ok (R := Empty_set) u id p w old
                Hf Hold Hu Hvalid Hmov Hcat Hacc) as H.
  cbv zeta in H. apply wp_result in H.
  destruct H as (c & w' & Hrun & -> & Htx & Haccs & _ & Hupd).
  fold new in Htx, Haccs, Hupd.
  assert (provided p = false -> unchanged) as Hnot.
  { intros Hp. apply not_provided in Hp as (Ea & Et & Eacc).
    subst unchanged new. unfold Prisma.patched; simpl.
    by rewrite Ea, Et, Eacc. }
  assert (unchanged ->
          adjust (Transaction.accountId new) (contribution new)
            (adjust (Transaction.accountId old) (- contribution old)
               (accounts (db w)))
          = accounts (db w)) as Hsame.
  { intros (Eam & Ety & EB). unfold contribution. rewrite Eam, Ety, EB.
    apply adjust_cancel. }
  assert (accounts (db w') =
          adjust (Transaction.accountId new) (contribution new)
            (adjust (Transaction.accountId old) (- contribution old)
               (accounts (db w))))
    as Hfinal.
  { rewrite Haccs. destruct (provided p) eqn:Hp; [done|].
    symmetry. by apply Hsame, Hnot. }
  exists w'. split; [exact Hrun|]. split; [exact Htx|].
  split; [exact Hfinal|]. split; [|split; [exact Hnot|exact Hupd]].
  intros Hun. rewrite Hfinal. by apply Hsame.
Qed.

(** TRANSFER rows under arbitrary behaviour of the store. *)
Lemma post_transfer {R} u b w :
  c_type b = TRANSFER ->
  wp (@post R u b) w (fun _ w' =>
    accounts (db w') = accounts (db w) /\ balance_updates (issued w w') = []).
Proof.
  intros Ht.
  assert (is_TRANSFER (c_type b) = true) as Htr by (by rewrite Ht).
  unfold post. wp_go.
  all: split; [done|]; by issued_updates.
Qed.

Lemma delete_transfer {R} u id w t :
  transactions (db w) !! id = Some t ->
  Transaction.type t = TRANSFER ->
  wp (@delete_ R u id) w (fun _ w' =>
    accounts (db w') = accounts (db w) /\ balance_updates (issued w w') = []).
Proof.
  intros Hid Ht.
  assert (is_TRANSFER (Transaction.type t) = true) as Htr by (by rewrite Ht).
  unfold delete_. wp_go.
  all: split; [done|]; by issued_updates.
Qed.

(** * The ledger operations *)

(** C2.  Creating a transaction on an account the user may use answers 201
    and changes that account's balance by exactly delta(type, amount):
    +amount for INCOME, -amount for EXPENSE, 0 for TRANSFER; every other
    account is untouched, and exactly one balance update is issued, none
    when the type is TRANSFER. *)
Theorem create_applies_delta (u : string) (b : CreateTransaction) (w : World)
    (a : Account.t) :
  fault_free w ->
  0 < c_amount b ->
  accounts (db w) !! c_accountId b = Some a ->
  Account.userId a = u ->
  Account.isActive a = true ->
  category_visible u (db w) (c_categoryId b) ->
  let id := fresh (dom (transactions (db w))) in
  let d := delta (c_type b) (c_amount b) in
  exists w',
    handle (POST u b) w = (Normal (json (TransactionBody id (created_row u b a)) 201), w') /\
    transactions (db w') = <[id := created_row u b a]> (transactions (db w)) /\
    accounts (db w') !! c_accountId b = Some (Account.add_balance d a) /\
    Account.balance (Account.add_balance d a) = Account.balance a + d /\
    (forall other, other <> c_accountId b ->
       accounts (db w') !! other = accounts (db w) !! other) /\
    balance_updates (issued w w') =
      if is_TRANSFER (c_type b) then [] else [(c_accountId b, d)].
Proof.
  intros Hf Hpos Ha Hu Hact Hcat id d.
  pose proof (post_ok (R := Empty_set) u b w a Hf Hpos Ha Hu Hact Hcat) as H.
  cbv zeta in H. apply wp_result in H.
  destruct H as (c & w' & Hrun & -> & Htx & Hacc & _ & Hupd).
  exists w'. simpl. split; [exact Hrun|]. split; [exact Htx|].
  rewrite Hacc. split; [by apply adjust_lookup|]. split; [done|].
  split; [|exact Hupd].
  intros other Hne. by apply adjust_lookup_ne.
Qed.

(** C3.  An update that succeeds adds -delta(old) to the balance of the old
    account and delta(new) to the balance of the new account.  When none of
    amount, type and account changed, no balance changes; when one did, both
    updates are issued (the one of a TRANSFER side, which is zero, is left
    out), also when the two accounts differ: moving a transaction from A to
    B takes the old contribution off A and adds the new one to B. *)
Theorem update_reverts_then_applies (u id : string) (p : TransactionPatch)
    (w : World) (old : Transaction.t) :
  fault_free w ->
  transactions (db w) !! id = Some old ->
  Transaction.userId old = u ->
  patch_valid p ->
  account_movable u (db w) old (p_accountId p) ->
  category_visible u (db w) (p_categoryId p) ->
  is_Some (accounts (db w) !! Transaction.accountId old) ->
  let new := Prisma.patched p old in
  let A := Transaction.accountId old in
  let B := Transaction.accountId new in
  let unchanged :=
    Transaction.amount new = Transaction.amount old /\
    Transaction.type new = Transaction.type old /\ B = A in
  exists w',
    handle (PUT u id p) w = (Normal (json (TransactionBody id new) 200), w') /\
    transactions (db w') = <[id := new]> (transactions (db w)) /\
    accounts (db w') =
      adjust B (contribution new) (adjust A (- contribution old) (accounts (db w))) /\
    (unchanged -> accounts (db w') = accounts (db w)) /\
    (~ unchanged ->
       balance_updates (issued w w') =
         (if is_TRANSFER (Transaction.type old) then []
          else [(A, - contribution old)]) ++
         (if is_TRANSFER (Transaction.type new) then []
          else [(B, contribution new)])) /\
    (A <> B -> forall a b,
       accounts (db w) !! A = Some a -> accounts (db w) !! B = Some b ->
       exists a' b',
         accounts (db w') !! A = Some a' /\ accounts (db w') !! B = Some b' /\
         Account.balance a' = Account.balance a - contribution old /\
         Account.balance b' = Account.balance b + contribution new).
Proof.
  intros Hf Hold Hu Hvalid Hmov Hcat Hacc new A B unchanged.
  destruct (put_result u id p w old Hf Hold Hu Hvalid Hmov Hcat Hacc)
    as (w' & Hrun & Htx & Hfinal & Hsame & Hnot & Hupd).
  fold new A B unchanged in Hfinal, Hsame, Hnot, Hupd, Htx, Hrun.
  exists w'. split; [exact Hrun|]. split; [exact Htx|].
  split; [exact Hfinal|]. split; [exact Hsame|]. split.
  - intros Hch. rewrite Hupd. destruct (provided p) eqn:Hp; [done|].
    destruct Hch. by apply Hnot.
  - intros Hne a b HA HB. rewrite Hfinal.
    exists (Account.add_balance (- contribution old) a),
           (Account.add_balance (contribution new) b).
    split; [|split; [|split]].
    + rewrite adjust_lookup_ne by done. by apply adjust_lookup.
    + apply adjust_lookup. by rewrite adjust_lookup_ne.
    + simpl. lia.
    + done.
Qed.

(** C4.  Deleting a transaction answers 200, removes the row and adds
    -delta(type, amount) to the balance of its account; so when the row had
    just been created by a POST, the accounts and the transactions are back
    to what they were before that POST. *)
Theorem delete_inverts_create (u id : string) (w : World) (t : Transaction.t) :
  fault_free w ->
  transactions (db w) !! id = Some t ->
  Transaction.userId t = u ->
  is_Some (accounts (db w) !! Transaction.accountId t) ->
  exists w',
    handle (DELETE u id) w = (Normal (json SuccessBody 200), w') /\
    transactions (db w') = delete id (transactions (db w)) /\
    accounts (db w') =
      adjust (Transaction.accountId t)
        (- delta (Transaction.type t) (Transaction.amount t)) (accounts (db w)) /\
    forall b w0,
      handle (POST u b) w0 = (Normal (json (TransactionBody id t) 201), w) ->
      accounts (db w') = accounts (db w0) /\
      transactions (db w') = transactions (db w0).
Proof.
  intros Hf Ht Hu Hacc.
  pose proof (delete_ok (R := Empty_set) u id w t Hf Ht Hu Hacc) as H.
  apply wp_result in H.
  destruct H as (c & w' & Hrun & -> & Htx & Haccs & _ & _).
  exists w'. simpl. split; [exact Hrun|]. split; [exact Htx|].
  split; [exact Haccs|].
  intros b w0 Hpost. simpl in Hpost.
  pose proof (wp_elim _ _ _ _ _ (post_created u b w0) Hpost id t eq_refl)
    as (Hfresh & Htx0 & Hacc0 & _).
  split.
  - rewrite Haccs, Hacc0. rewrite adjust_adjust.
    unfold contribution.
    replace (_ + - _) with 0 by lia. apply adjust_0.
  - rewrite Htx, Htx0. by apply delete_insert_id.
Qed.

(** C5.  A TRANSFER never counts in a balance.  Creating a TRANSFER row and
    deleting one leave every account as it was and issue no balance update,
    whatever else happens; an update from type TRANSFER only adds the new
    contribution, an update to type TRANSFER only takes the old one off,
    and in both no balance update is issued for the TRANSFER side. *)
Theorem transfer_has_no_balance_effect :
  (forall u b w,
     c_type b = TRANSFER ->
     let w' := (handle (POST u b) w).2 in
     accounts (db w') = accounts (db w) /\ balance_updates (issued w w') = []) /\
  (forall u id w t,
     transactions (db w) !! id = Some t ->
     Transaction.type t = TRANSFER ->
     let w' := (handle (DELETE u id) w).2 in
     accounts (db w') = accounts (db w) /\ balance_updates (issued w w') = []) /\
  (forall u id p w old,
     fault_free w ->
     transactions (db w) !! id = Some old ->
     Transaction.userId old = u ->
     patch_valid p ->
     account_movable u (db w) old (p_accountId p) ->
     category_visible u (db w) (p_categoryId p) ->
     is_Some (accounts (db w) !! Transaction.accountId old) ->
     let new := Prisma.patched p old in
     let w' := (handle (PUT u id p) w).2 in
     (handle (PUT u id p) w).1 = Normal (json (TransactionBody id new) 200) /\
     (Transaction.type old = TRANSFER ->
        accounts (db w') =
          adjust (Transaction.accountId new) (contribution new) (accounts (db w)) /\
        balance_updates (issued w w') =
          if provided p && negb (is_TRANSFER (Transaction.type new))
          then [(Transaction.accountId new, contribution new)] else []) /\
     (Transaction.type new = TRANSFER ->
        accounts (db w') =
          adjust (Transaction.accountId old) (- contribution old) (accounts (db w)) /\
        balance_updates (issued w w') =
          if provided p && negb (is_TRANSFER (Transaction.type old))
          then [(Transaction.accountId old, - contribution old)] else [])).
Proof.
  split; [|split].
  - intros u b w Ht w'. apply (post_transfer (R := Empty_set) u b w Ht).
  - intros u id w t Hid Ht w'.
    apply (delete_transfer (R := Empty_set) u id w t Hid Ht).
  - intros u id p w old Hf Hold Hu Hvalid Hmov Hcat Hacc new w'.
    destruct (put_result u id p w old Hf Hold Hu Hvalid Hmov Hcat Hacc)
      as (w1 & Hrun & _ & Haccs & _ & _ & Hupd).
    fold new in Haccs, Hupd. subst w'. rewrite Hrun. simpl.
    split; [done|]. split.
    + intros Ht. split.
      * rewrite Haccs. unfold contribution at 2. rewrite Ht. simpl.
        by rewrite adjust_0.
      * rewrite Hupd. simpl. rewrite !Ht. simpl.
        destruct (provided p); [|done]. simpl.
        by destruct (is_TRANSFER (nullish (p_type p) TRANSFER)).
    + intros Ht. split.
      * rewrite Haccs. unfold contribution at 1. simpl. rewrite Ht. simpl.
        by rewrite adjust_0.
      * rewrite Hupd. simpl. rewrite Ht. simpl.
        destruct (provided p); [|done].
        destruct (is_TRANSFER (Transaction.type old)); simpl;
          by rewrite ?app_nil_r.
Qed.

(** * Units of work under a failing store *)

Ltac negb_hyps :=
  repeat match goal with
         | H : negb _ = true |- _ => apply negb_true_iff in H
         | H : negb _ = false |- _ => apply negb_false_iff in H
         end.

(** Closes a leaf by naming how many writes of the unit were made. *)
Ltac prefix_at k :=
  eexists _, k; split; [reflexivity|]; split;
  [ cbn [take apply_writes foldl];
    unfold write_transaction, remove_transaction, adjust_balance,
      advance_subscription;
    wsimpl; rewrite ?Z.opp_involutive; reflexivity
  | first [ congruence
          | intros _; split; [reflexivity|discriminate]
          | done ] ].

Ltac prefix_leaf unit_ :=
  negb_hyps; unfold unit_, provided, contribution; use_eqs; wsimpl;
  case_types; try congruence; use_eqs; wsimpl;
  first [prefix_at 0%nat | prefix_at 1%nat | prefix_at 2%nat | prefix_at 3%nat].

Lemma post_prefix {R} u b w :
  wp (@post R u b) w (fun c w' =>
    exists r k,
      c = Normal r /\
      db w' = apply_writes (take k (post_unit u b (db w))) (db w) /\
      (status r = 201 ->
       k = length (post_unit u b (db w)) /\ k <> 0%nat)).
Proof.
  unfold post. wp_go.
  all: prefix_leaf post_unit.
Qed.

Lemma put_prefix {R} u id p w :
  wp (@put R u id p) w (fun c w' =>
    exists r k,
      c = Normal r /\
      db w' = apply_writes (take k (put_unit id p (db w))) (db w) /\
      (status r = 200 ->
       k = length (put_unit id p (db w)) /\ k <> 0%nat)).
Proof.
  unfold put. wp_go.
  all: prefix_leaf put_unit.
Qed.

Lemma delete_prefix {R} u id w :
  wp (@delete_ R u id) w (fun c w' =>
    exists r k,
      c = Normal r /\
      db w' = apply_writes (take k (delete_unit id (db w))) (db w) /\
      (status r = 200 ->
       k = length (delete_unit id (db w)) /\ k <> 0%nat)).
Proof.
  unfold delete_. wp_go.
  all: prefix_leaf delete_unit.
Qed.

Ltac billing_at k :=
  eexists _, k; split; [reflexivity|]; split;
  [ cbn [take apply_writes foldl app];
    unfold write_transaction, adjust_balance, advance_subscription;
    wsimpl; reflexivity
  | split; [reflexivity|];
    first [ discriminate | intros _; split; reflexivity ] ].

Lemma billing_prefix {R} tza row w :
  wp (@processSubscription R tza row) w (fun c w' =>
    exists line k,
      c = Normal tt /\
      db w' = apply_writes (take k (billing_unit tza row (db w))) (db w) /\
      console w' = console w ++ [line] /\
      (line = ProcessedSubscription (Subscription.name row.2) row.1 ->
       k = length (billing_unit tza row (db w)) /\ k = 3%nat)).
Proof.
  wp_go.
  all: unfold billing_unit; use_eqs; wsimpl.
  all: first [billing_at 0%nat | billing_at 1%nat | billing_at 2%nat | billing_at 3%nat].
Qed.


(** * The calendar of [Date] *)

Module JSDateFacts.
Import JSDate.

Ltac leap_cases :=
  unfold leap in *;
  repeat match goal with
         | |- context [if ?b then _ else _] => destruct b eqn:?
         | H : context [if ?b then _ else _] |- _ => destruct b eqn:?
         end;
  rewrite ?andb_true_iff, ?andb_false_iff, ?orb_true_iff, ?orb_false_iff,
    ?negb_true_iff, ?negb_false_iff, ?Z.eqb_eq, ?Z.eqb_neq in *.

Lemma DaysInYear_cases y : DaysInYear y = 365 \/ DaysInYear y = 366.
Proof. unfold DaysInYear. destruct (leap y); auto. Qed.

Lemma DayFromYear_succ y : DayFromYear (y + 1) = DayFromYear y + DaysInYear y.
Proof.
  unfold DayFromYear, DaysInYear. leap_cases; Z.div_mod_to_equations; lia.
Qed.

Lemma DayFromYear_pred y : DayFromYear (y - 1) = DayFromYear y - DaysInYear (y - 1).
Proof.
  pose proof (DayFromYear_succ (y - 1)) as H.
  replace (y - 1 + 1) with y in H by lia. lia.
Qed.

Lemma DayFromYear_mono y1 y2 : y1 <= y2 -> DayFromYear y1 <= DayFromYear y2.
Proof. unfold DayFromYear. intros. Z.div_mod_to_equations. lia. Qed.

(** [YearFromDay d] is the year that contains day [d]. *)
Lemma YearFromDay_spec d :
  DayFromYear (YearFromDay d) <= d < DayFromYear (YearFromDay d + 1).
Proof.
  unfold YearFromDay.
  set (y := 1970 + 400 * d / 146097).
  assert (DayFromYear (y - 1) <= d < DayFromYear (y + 2)) as Hest.
  { rewrite DayFromYear_pred.
    replace (y + 2) with (y + 1 + 1) by lia. rewrite !DayFromYear_succ.
    pose proof (DaysInYear_cases (y - 1)). pose proof (DaysInYear_cases y).
    pose proof (DaysInYear_cases (y + 1)).
    unfold DayFromYear. subst y. Z.div_mod_to_equations. lia. }
  destruct (DayFromYear (y + 1) <=? d) eqn:H1;
    [apply Z.leb_le in H1|apply Z.leb_gt in H1].
  - replace (y + 1 + 1) with (y + 2) by lia. lia.
  - destruct (DayFromYear y <=? d) eqn:H2;
      [apply Z.leb_le in H2|apply Z.leb_gt in H2].
    + lia.
    + replace (y - 1 + 1) with y by lia. lia.
Qed.

Lemma YearFromDay_unique y d :
  DayFromYear y <= d < DayFromYear (y + 1) -> YearFromDay d = y.
Proof.
  intros H. pose proof (YearFromDay_spec d) as S.
  set (Y := YearFromDay d) in *.
  destruct (Z.lt_trichotomy Y y) as [Hlt|[Heq|Hgt]]; [|done|].
  - pose proof (DayFromYear_mono (Y + 1) y). lia.
  - pose proof (DayFromYear_mono (y + 1) Y). lia.
Qed.

Lemma Day_MakeDate day time :
  0 <= time < msPerDay ->
  Day (MakeDate day time) = day /\ TimeWithinDay (MakeDate day time) = time.
Proof.
  unfold Day, TimeWithinDay, MakeDate, msPerDay. intros.
  Z.div_mod_to_equations. lia.
Qed.

Lemma TimeWithinDay_range t : 0 <= TimeWithinDay t < msPerDay.
Proof. unfold TimeWithinDay, msPerDay. Z.div_mod_to_equations. lia. Qed.

Lemma MakeDate_Day t : MakeDate (Day t) (TimeWithinDay t) = t.
Proof.
  unfold Day, TimeWithinDay, MakeDate, msPerDay. Z.div_mod_to_equations. lia.
Qed.

Ltac month_cases m :=
  let H := fresh in
  assert (m = 0 \/ m = 1 \/ m = 2 \/ m = 3 \/ m = 4 \/ m = 5 \/ m = 6 \/
          m = 7 \/ m = 8 \/ m = 9 \/ m = 10 \/ m = 11) as H by lia;
  destruct H as [->|[->|[->|[->|[->|[->|[->|[->|[->|[->|[->| ->]]]]]]]]]]].

Ltac table_cases :=
  repeat match goal with
         | |- context [?a <? ?b] =>
             let H := fresh in
             destruct (a <? b) eqn:H;
             [apply Z.ltb_lt in H|apply Z.ltb_ge in H]
         end.

Lemma MakeDay_in_year y m d :
  0 <= m <= 11 ->
  MakeDay y m d = DayFromYear y + monthStart y m + d - 1.
Proof.
  intros Hm. unfold MakeDay.
  replace (m / 12) with 0 by (Z.div_mod_to_equations; lia).
  replace (m mod 12) with m by (Z.div_mod_to_equations; lia).
  by rewrite Z.add_0_r.
Qed.

Lemma MakeDay_year_bounds y m d :
  valid_date y m d ->
  DayFromYear y <= MakeDay y m d < DayFromYear (y + 1).
Proof.
  intros [Hm Hd]. rewrite MakeDay_in_year by done.
  rewrite DayFromYear_succ. unfold DaysInYear, monthStart, DaysInMonth in *.
  month_cases m; destruct (leap y); lia.
Qed.

(** Reading the fields back from a date that was made. *)
Lemma fields_of_made y m d time :
  valid_date y m d ->
  0 <= time < msPerDay ->
  let t := MakeDate (MakeDay y m d) time in
  YearFromTime t = y /\ MonthFromTime t = m /\ DateFromTime t = d /\
  TimeWithinDay t = time.
Proof.
  intros Hv Htime t.
  destruct (Day_MakeDate (MakeDay y m d) time Htime) as [HDay HTime].
  fold t in HDay, HTime.
  assert (YearFromTime t = y) as HY.
  { unfold YearFromTime. rewrite HDay.
    by apply YearFromDay_unique, MakeDay_year_bounds. }
  assert (DayWithinYear t = monthStart y m + d - 1) as HW.
  { unfold DayWithinYear. rewrite HDay, HY.
    destruct Hv as [Hm _]. rewrite MakeDay_in_year by done. lia. }
  assert (MonthFromTime t = m) as HM.
  { unfold MonthFromTime, InLeapYear. rewrite HW, HY.
    destruct Hv as [Hm Hd]. unfold monthStart, DaysInMonth in *.
    month_cases m; destruct (leap y); table_cases; lia. }
  split; [done|]. split; [done|]. split; [|done].
  unfold DateFromTime, InLeapYear. rewrite HM, HW, HY.
  destruct Hv as [Hm Hd]. unfold monthStart.
  month_cases m; destruct (leap y); lia.
Qed.

(** Every time value is a valid date of its own fields. *)
Lemma fields_valid t :
  let y := YearFromTime t in
  let m := MonthFromTime t in
  let d := DateFromTime t in
  valid_date y m d /\ MakeDay y m d = Day t.
Proof.
  intros y m d.
  pose proof (YearFromDay_spec (Day t)) as HS. fold (YearFromTime t) in HS.
  fold y in HS. rewrite DayFromYear_succ in HS.
  assert (0 <= DayWithinYear t < DaysInYear y) as HW
    by (unfold DayWithinYear; fold y; lia).
  assert (0 <= m <= 11) as Hm.
  { subst m. unfold MonthFromTime. table_cases; lia. }
  assert (1 <= d <= DaysInMonth y m /\ DayWithinYear t = monthStart y m + d - 1)
    as [Hd Heq].
  { subst d m. unfold DateFromTime, MonthFromTime, InLeapYear, monthStart,
      DaysInMonth, DaysInYear in *. fold y in HW |- *.
    destruct (leap y); table_cases; lia. }
  split; [by split|].
  rewrite MakeDay_in_year by done. unfold DayWithinYear in Heq. fold y in Heq.
  lia.
Qed.

(** Carrying a date past the end of its month, and a month past the end
    of its year. *)
Lemma MakeDay_carry_date y m d :
  0 <= m <= 10 ->
  MakeDay y m d = MakeDay y (m + 1) (d - DaysInMonth y m).
Proof.
  intros Hm. rewrite !MakeDay_in_year by lia.
  unfold monthStart, DaysInMonth.
  assert (m = 0 \/ m = 1 \/ m = 2 \/ m = 3 \/ m = 4 \/ m = 5 \/ m = 6 \/
          m = 7 \/ m = 8 \/ m = 9 \/ m = 10) as H by lia.
  destruct H as [->|[->|[->|[->|[->|[->|[->|[->|[->|[->| ->]]]]]]]]]];
    simpl; destruct (leap y); lia.
Qed.

Lemma MakeDay_carry_month y d : MakeDay y 12 d = MakeDay (y + 1) 0 d.
Proof.
  unfold MakeDay.
  change (12 / 12) with 1. change (12 mod 12) with 0.
  change (0 / 12) with 0. change (0 mod 12) with 0.
  by rewrite !Z.add_0_r.
Qed.

(** The month after month [m] of year [y]. *)
Lemma MakeDay_next_month y m d :
  0 <= m <= 11 ->
  MakeDay y (m + 1) d = MakeDay (y + (m + 1) / 12) ((m + 1) mod 12) d.
Proof.
  intros Hm. unfold MakeDay.
  assert (0 <= (m + 1) mod 12 < 12) as Hr by (Z.div_mod_to_equations; lia).
  replace ((m + 1) mod 12 / 12) with 0 by (Z.div_mod_to_equations; lia).
  replace ((m + 1) mod 12 mod 12) with ((m + 1) mod 12)
    by (Z.div_mod_to_equations; lia).
  by rewrite Z.add_0_r.
Qed.

Lemma DaysInMonth_range y m : 28 <= DaysInMonth y m <= 31.
Proof.
  unfold DaysInMonth. repeat case_match; lia.
Qed.

Lemma TimeClip_Some v t : TimeClip v = Some t -> t = v.
Proof. unfold TimeClip. destruct (_ <=? _); congruence. Qed.

Section zone.
Variable LocalTZA : Z.
Local Abbreviation local := (LocalTime LocalTZA).

Lemma local_UTC v : local (UTC LocalTZA v) = v.
Proof. unfold LocalTime, UTC. lia. Qed.

(** The local time of the date one month on: the same fields with the
    month number one higher, made into a date again. *)
Lemma setMonth_local t t' :
  setMonth LocalTZA t (getMonth LocalTZA t + 1) = Some t' ->
  local t' =
    MakeDate (MakeDay (YearFromTime (local t)) (MonthFromTime (local t) + 1)
                      (DateFromTime (local t)))
             (TimeWithinDay (local t)).
Proof.
  unfold setMonth, getMonth. intros H.
  apply TimeClip_Some in H. subst t'. apply local_UTC.
Qed.

Lemma setFullYear_local t t' :
  setFullYear LocalTZA t (getFullYear LocalTZA t + 1) = Some t' ->
  local t' =
    MakeDate (MakeDay (YearFromTime (local t) + 1) (MonthFromTime (local t))
                      (DateFromTime (local t)))
             (TimeWithinDay (local t)).
Proof.
  unfold setFullYear, getFullYear. intros H.
  apply TimeClip_Some in H. subst t'. apply local_UTC.
Qed.

(** One month on, when the day exists in the next month: same day, same
    time of day, next month. *)
Lemma setMonth_same_day t t' :
  let y := YearFromTime (local t) in
  let m := MonthFromTime (local t) in
  let d := DateFromTime (local t) in
  setMonth LocalTZA t (getMonth LocalTZA t + 1) = Some t' ->
  d <= DaysInMonth (y + (m + 1) / 12) ((m + 1) mod 12) ->
  YearFromTime (local t') = y + (m + 1) / 12 /\
  MonthFromTime (local t') = (m + 1) mod 12 /\
  DateFromTime (local t') = d /\
  TimeWithinDay (local t') = TimeWithinDay (local t).
Proof.
  intros y m d Hset Hd. rewrite (setMonth_local _ _ Hset). fold y m d.
  destruct (fields_valid (local t)) as [[Hm Hdv] _]. fold y m d in Hm, Hdv.
  rewrite MakeDay_next_month by done.
  apply fields_of_made; [|apply TimeWithinDay_range].
  split; [Z.div_mod_to_equations; lia|lia].
Qed.

(** One month on, when the day does not exist in the next month: the
    date runs over into the month after next. *)
Lemma setMonth_overflow t t' :
  let y := YearFromTime (local t) in
  let m := MonthFromTime (local t) in
  let d := DateFromTime (local t) in
  setMonth LocalTZA t (getMonth LocalTZA t + 1) = Some t' ->
  DaysInMonth (y + (m + 1) / 12) ((m + 1) mod 12) < d ->
  m <= 9 /\
  YearFromTime (local t') = y /\
  MonthFromTime (local t') = m + 2 /\
  DateFromTime (local t') = d - DaysInMonth y (m + 1) /\
  1 <= DateFromTime (local t') <= 3 /\
  TimeWithinDay (local t') = TimeWithinDay (local t).
Proof.
  intros y m d Hset Hover. rewrite (setMonth_local _ _ Hset). fold y m d.
  destruct (fields_valid (local t)) as [[Hm Hdv] _]. fold y m d in Hm, Hdv.
  assert (m <= 9) as Hm9.
  { destruct (Z.le_gt_cases m 9) as [|Hgt]; [done|]. exfalso.
    assert (m = 10 \/ m = 11) as [->| ->] by lia.
    - change ((10 + 1) mod 12) with 11 in Hover.
      unfold DaysInMonth in *. lia.
    - change ((11 + 1) mod 12) with 0 in Hover.
      unfold DaysInMonth in *. lia. }
  assert ((m + 1) / 12 = 0 /\ (m + 1) mod 12 = m + 1) as [Hq Hr]
    by (Z.div_mod_to_equations; lia).
  rewrite Hq, Hr, Z.add_0_r in Hover.
  split; [done|].
  rewrite (MakeDay_carry_date y (m + 1)) by lia.
  replace (m + 1 + 1) with (m + 2) by lia.
  pose proof (DaysInMonth_range y (m + 1)) as Hrange.
  assert (DaysInMonth y m <= 31) as Hle by apply DaysInMonth_range.
  assert (valid_date y (m + 2) (d - DaysInMonth y (m + 1))) as Hv.
  { split; [lia|]. pose proof (DaysInMonth_range y (m + 2)). lia. }
  destruct (fields_of_made y (m + 2) (d - DaysInMonth y (m + 1))
              (TimeWithinDay (local t)) Hv (TimeWithinDay_range _))
    as (HY & HM & HD & HT).
  rewrite HY, HM, HD, HT. repeat split; try done; lia.
Qed.

(** One year on, when the day exists in that year (it is not 29
    February, or that year is a leap year too). *)
Lemma setFullYear_same_day t t' :
  let y := YearFromTime (local t) in
  let m := MonthFromTime (local t) in
  let d := DateFromTime (local t) in
  setFullYear LocalTZA t (getFullYear LocalTZA t + 1) = Some t' ->
  d <= DaysInMonth (y + 1) m ->
  YearFromTime (local t') = y + 1 /\
  MonthFromTime (local t') = m /\
  DateFromTime (local t') = d /\
  TimeWithinDay (local t') = TimeWithinDay (local t).
Proof.
  intros y m d Hset Hd. rewrite (setFullYear_local _ _ Hset). fold y m d.
  destruct (fields_valid (local t)) as [[Hm Hdv] _]. fold y m d in Hm, Hdv.
  apply fields_of_made; [|apply TimeWithinDay_range].
  split; [done|lia].
Qed.
End zone.
End JSDateFacts.

(** * The billing run *)

Lemma set_subscriptions_same d : set_subscriptions (subscriptions d) d = d.
Proof. by destruct d. Qed.

Lemma advance_missing id nd d :
  subscriptions d !! id = None -> advance_subscription id nd d = d.
Proof.
  intros H. unfold advance_subscription.
  rewrite alter_id' by done. apply set_subscriptions_same.
Qed.

(** One iteration, when the store answers every call. *)
Lemma billing_fault_free {R} tza row w :
  fault_free w ->
  wp (@processSubscription R tza row) w (fun c w' =>
    c = Normal tt /\ faulty w' = faulty w /\ db w' = bill tza (db w) row).
Proof.
  intros Hf. wp_go.
  all: split; [done|]; split; [done|].
  all: unfold bill, billable, billing_unit; use_eqs; wsimpl; use_eqs.
  all: cbn [app apply_writes foldl]; try reflexivity.
  rewrite advance_missing; [reflexivity|].
  unfold adjust_balance, write_transaction. by wsimpl.
Qed.

(** The loop, when the store answers every call. *)
Lemma for_of_fault_free {R} tza rows w :
  fault_free w ->
  exists w',
    for_of rows (@processSubscription R tza) w = (Normal tt, w') /\
    faulty w' = faulty w /\
    db w' = bill_all tza rows (db w).
Proof.
  revert w. induction rows as [|row rows IH]; intros w Hf; simpl.
  - by exists w.
  - destruct (wp_result _ _ _ (billing_fault_free (R := R) tza row w Hf))
      as (c & w1 & Hrun & -> & Hfaulty & Hdb).
    unfold bind. rewrite Hrun.
    destruct (IH w1) as (w' & Hloop & Hfaulty' & Hdb').
    { intros n. by rewrite Hfaulty. }
    exists w'. split; [done|]. split; [congruence|].
    by rewrite Hdb', Hdb.
Qed.

(** The run, when the store answers every call. *)
Lemma run_fault_free {R} tza now w :
  fault_free w ->
  wp (@processSubscriptions R tza now) w (fun c w' =>
    c = Normal tt /\ faulty w' = faulty w /\
    db w' = bill_all tza (Prisma.due now (db w)) (db w)).
Proof.
  intros Hf. wp_go.
  match goal with
  | |- wp (for_of ?rows ?body) ?w0 _ =>
      destruct (for_of_fault_free (R := unit) tza rows w0)
        as (w' & Hloop & Hfa & Hdb); [done|];
      unfold wp; rewrite Hloop; simpl in *
  end.
  by rewrite Hfa, Hdb.
Qed.

(** ** One iteration as a function of the store *)

Lemma bill_false tza d row : billable d row = false -> bill tza d row = d.
Proof. intros H. unfold bill. by rewrite H. Qed.

Lemma bill_true tza d row :
  billable d row = true ->
  exists a,
    accounts d !! Subscription.accountId row.2 = Some a /\
    transactions (bill tza d row) =
      <[fresh (dom (transactions d)) :=
          expense_of row.1 row.2 (Account.currency a)]> (transactions d) /\
    accounts (bill tza d row) =
      adjust (Subscription.accountId row.2) (- Subscription.amount row.2)
        (accounts d) /\
    categories (bill tza d row) = categories d /\
    subscriptions (bill tza d row) =
      match nextBillingDate_after tza (Subscription.billingCycle row.2)
              (Subscription.nextBillingDate row.2) with
      | Some nd =>
          alter (Subscription.set_nextBillingDate nd) row.1 (subscriptions d)
      | None => subscriptions d
      end.
Proof.
  intros H. unfold bill. rewrite H. unfold billable in H.
  apply andb_true_iff in H as [Hacc _].
  unfold Prisma.references in Hacc. apply bool_decide_eq_true_1 in Hacc.
  destruct Hacc as [a Ha]. exists a. split; [done|].
  unfold billing_unit. rewrite Ha.
  destruct (nextBillingDate_after _ _ _); by cbn.
Qed.

Lemma same_frame_refl d : same_frame d d.
Proof. by split. Qed.

Lemma same_frame_trans d1 d2 d3 :
  same_frame d1 d2 -> same_frame d2 d3 -> same_frame d1 d3.
Proof.
  intros [Hc1 Ha1] [Hc2 Ha2]. split; [congruence|].
  intros j. by rewrite Ha2, Ha1.
Qed.

Lemma adjust_currency id z m j :
  Account.currency <$> adjust id z m !! j = Account.currency <$> m !! j.
Proof.
  unfold adjust. rewrite lookup_alter. case_decide; subst; [|done].
  by destruct (m !! j).
Qed.

Lemma bill_same_frame tza d row : same_frame d (bill tza d row).
Proof.
  destruct (billable d row) eqn:Hb.
  - destruct (bill_true tza d row Hb) as (a & Ha & _ & Hacc & Hcat & _).
    split; [done|]. intros j. rewrite Hacc. apply adjust_currency.
  - rewrite bill_false by done. apply same_frame_refl.
Qed.

Lemma bill_all_cons tza row rows d :
  bill_all tza (row :: rows) d = bill_all tza rows (bill tza d row).
Proof. done. Qed.

Lemma bill_all_same_frame tza rows d : same_frame d (bill_all tza rows d).
Proof.
  revert d. induction rows as [|row rows IH]; intros d.
  - apply same_frame_refl.
  - rewrite bill_all_cons.
    eapply same_frame_trans; [apply bill_same_frame|apply IH].
Qed.

Lemma same_frame_references d d' j :
  same_frame d d' ->
  Prisma.references (accounts d') j = Prisma.references (accounts d) j.
Proof.
  intros [_ H]. unfold Prisma.references. specialize (H j).
  destruct (accounts d' !! j), (accounts d !! j); simpl in *; try done.
  all: by rewrite !bool_decide_eq_true_2 by eauto.
Qed.

Lemma same_frame_billable d d' row :
  same_frame d d' -> billable d' row = billable d row.
Proof.
  intros Hf. unfold billable.
  rewrite (same_frame_references d d') by done.
  destruct Hf as [-> _]. done.
Qed.

Lemma same_frame_currency d d' j a :
  same_frame d d' -> accounts d !! j = Some a ->
  exists a', accounts d' !! j = Some a' /\ Account.currency a' = Account.currency a.
Proof.
  intros [_ H] Ha. specialize (H j). rewrite Ha in H.
  destruct (accounts d' !! j) as [a'|]; simpl in H; [|done].
  exists a'. split; [done|congruence].
Qed.

(** ** The balances after a run *)

Lemma charged_frame d d' rows j :
  same_frame d d' -> charged d' rows j = charged d rows j.
Proof.
  intros Hf. induction rows as [|row rows IH]; simpl; [done|].
  by rewrite IH, (same_frame_billable d d').
Qed.

Lemma bill_account tza d row j :
  accounts (bill tza d row) !! j =
  Account.add_balance
    (- (if billable d row && bool_decide (Subscription.accountId row.2 = j)
        then Subscription.amount row.2 else 0))
  <$> accounts d !! j.
Proof.
  destruct (billable d row) eqn:Hb; simpl.
  - destruct (bill_true tza d row Hb) as (a & Ha & _ & -> & _).
    unfold adjust. rewrite lookup_alter.
    destruct (decide (Subscription.accountId row.2 = j)) as [->|Hne].
    + by rewrite bool_decide_eq_true_2.
    + rewrite bool_decide_eq_false_2 by done.
      destruct (accounts d !! j); simpl; [|done]. by rewrite add_balance_0.
  - rewrite bill_false by done.
    destruct (accounts d !! j); simpl; [|done]. by rewrite add_balance_0.
Qed.

Lemma bill_all_account tza rows d j :
  accounts (bill_all tza rows d) !! j =
  Account.add_balance (- charged d rows j) <$> accounts d !! j.
Proof.
  revert d. induction rows as [|row rows IH]; intros d.
  - simpl. destruct (accounts d !! j); simpl; [|done]. by rewrite add_balance_0.
  - rewrite bill_all_cons, IH, bill_account. simpl.
    rewrite (charged_frame d (bill tza d row)) by apply bill_same_frame.
    destruct (accounts d !! j); simpl; [|done].
    rewrite add_balance_add. f_equal. f_equal. lia.
Qed.

(** ** The subscriptions after a run *)

Lemma bill_subscription_other tza d row id :
  row.1 <> id -> subscriptions (bill tza d row) !! id = subscriptions d !! id.
Proof.
  intros Hne. destruct (billable d row) eqn:Hb.
  - destruct (bill_true tza d row Hb) as (a & _ & _ & _ & _ & ->).
    destruct (nextBillingDate_after _ _ _); [|done].
    by rewrite lookup_alter_ne.
  - by rewrite bill_false.
Qed.

Lemma bill_all_subscription_other tza rows d id :
  id ∉ rows.*1 ->
  subscriptions (bill_all tza rows d) !! id = subscriptions d !! id.
Proof.
  revert d. induction rows as [|row rows IH]; intros d Hid; [done|].
  rewrite fmap_cons, not_elem_of_cons in Hid. destruct Hid as [Hne Hid].
  rewrite bill_all_cons, IH by done.
  by apply bill_subscription_other.
Qed.

Lemma bill_all_subscription tza rows d id s nd :
  NoDup rows.*1 ->
  (id, s) ∈ rows ->
  billable d (id, s) = true ->
  nextBillingDate_after tza (Subscription.billingCycle s)
    (Subscription.nextBillingDate s) = Some nd ->
  subscriptions (bill_all tza rows d) !! id =
  Subscription.set_nextBillingDate nd <$> subscriptions d !! id.
Proof.
  revert d. induction rows as [|row rows IH]; intros d Hnd Hin Hb Hnext.
  - by apply elem_of_nil in Hin.
  - rewrite fmap_cons, NoDup_cons in Hnd. destruct Hnd as [Hhead Hnd].
    rewrite bill_all_cons.
    apply elem_of_cons in Hin as [<-|Hin].
    + rewrite (bill_all_subscription_other tza rows) by done.
      destruct (bill_true tza d (id, s) Hb) as (a & _ & _ & _ & _ & ->).
      simpl. rewrite Hnext. apply lookup_alter_eq.
    + assert (row.1 <> id) as Hne.
      { intros <-. apply Hhead.
        by apply (list_elem_of_fmap_2 fst) in Hin. }
      rewrite IH; try done.
      * by rewrite bill_subscription_other.
      * rewrite (same_frame_billable d) by apply bill_same_frame. done.
Qed.

(** ** The transactions after a run *)

Lemma emitted_cons tza row rows d :
  emitted tza (row :: rows) d =
  (if billable d row
   then match accounts d !! Subscription.accountId row.2 with
        | Some a =>
            [(fresh (dom (transactions d)),
              expense_of row.1 row.2 (Account.currency a))]
        | None => []
        end
   else []) ++ emitted tza rows (bill tza d row).
Proof. done. Qed.

Lemma bill_transactions tza d row i t :
  transactions (bill tza d row) !! i = Some t <->
  transactions d !! i = Some t \/
  (billable d row = true /\
   exists a, accounts d !! Subscription.accountId row.2 = Some a /\
             i = fresh (dom (transactions d)) /\
             t = expense_of row.1 row.2 (Account.currency a)).
Proof.
  destruct (billable d row) eqn:Hb.
  - destruct (bill_true tza d row Hb) as (a & Ha & -> & _).
    rewrite lookup_insert_Some. split.
    + intros [[<- <-]|[Hne Hi]]; [right|by left].
      split; [done|]. by exists a.
    + intros [Hi|(_ & a' & Ha' & -> & ->)].
      * right. split; [|done]. intros <-. by rewrite fresh_lookup in Hi.
      * left. split; [done|]. congruence.
  - rewrite bill_false by done. split; [by left|].
    intros [?|[? _]]; done.
Qed.

(** The rows after a run are the rows before it and the emitted ones. *)
Lemma bill_all_transactions tza rows d i t :
  transactions (bill_all tza rows d) !! i = Some t <->
  transactions d !! i = Some t \/ (i, t) ∈ emitted tza rows d.
Proof.
  revert d. induction rows as [|row rows IH]; intros d.
  - simpl. split; [by left|]. intros [?|H]; [done|]. by apply elem_of_nil in H.
  - rewrite bill_all_cons, IH, bill_transactions, emitted_cons, elem_of_app.
    destruct (billable d row) eqn:Hb.
    + destruct (bill_true tza d row Hb) as (a & Ha & _). rewrite Ha.
      rewrite list_elem_of_singleton. split.
      * intros [[?|(_ & a' & Ha' & -> & ->)]|?]; [by left| |by right; right].
        right; left. congruence.
      * intros [?|[[= -> ->]|?]]; [by left; left| |by right].
        left; right. split; [done|]. by exists a.
    + split.
      * intros [[?|[? _]]|?]; [by left|done|by right; right].
      * intros [?|[H|?]]; [by left; left| |by right].
        by apply elem_of_nil in H.
Qed.

(** Emitted rows get ids that were free. *)
Lemma emitted_fresh tza rows d i t :
  (i, t) ∈ emitted tza rows d -> transactions d !! i = None.
Proof.
  revert d. induction rows as [|row rows IH]; intros d.
  - intros H. by apply elem_of_nil in H.
  - rewrite emitted_cons, elem_of_app. intros [H|H].
    + destruct (billable d row); [|by apply elem_of_nil in H].
      destruct (accounts d !! _); [|by apply elem_of_nil in H].
      apply list_elem_of_singleton in H. simplify_eq. apply fresh_lookup.
    + apply IH in H.
      destruct (transactions d !! i) as [t0|] eqn:Hi; [|done].
      assert (transactions (bill tza d row) !! i = Some t0) as Hi'
        by (apply bill_transactions; by left).
      congruence.
Qed.

(** Every emitted row is the expense of a subscription of the run that can
    be billed. *)
Lemma emitted_source tza rows d i t :
  (i, t) ∈ emitted tza rows d ->
  exists row a,
    row ∈ rows /\ billable d row = true /\
    accounts d !! Subscription.accountId row.2 = Some a /\
    t = expense_of row.1 row.2 (Account.currency a).
Proof.
  revert d. induction rows as [|row rows IH]; intros d.
  - intros H. by apply elem_of_nil in H.
  - rewrite emitted_cons, elem_of_app. intros [H|H].
    + destruct (billable d row) eqn:Hb; [|by apply elem_of_nil in H].
      destruct (accounts d !! _) as [a|] eqn:Ha; [|by apply elem_of_nil in H].
      apply list_elem_of_singleton in H. simplify_eq.
      exists row, a. split; [apply elem_of_cons; by left|done].
    + destruct (IH _ H) as (row' & a' & Hin & Hb' & Ha' & ->).
      pose proof (bill_same_frame tza d row) as Hfr.
      rewrite (same_frame_billable d) in Hb' by done.
      assert (exists a, accounts d !! Subscription.accountId row'.2 = Some a /\
                        Account.currency a = Account.currency a') as (a & Ha & Hc).
      { destruct Hfr as [_ Hfr]. specialize (Hfr (Subscription.accountId row'.2)).
        rewrite Ha' in Hfr.
        destruct (accounts d !! Subscription.accountId row'.2) as [a|];
          simpl in Hfr; [|done].
        exists a. split; [done|congruence]. }
      exists row', a. split; [apply elem_of_cons; by right|].
      split; [done|]. split; [done|]. by rewrite Hc.
Qed.

(** Every subscription of the run that can be billed has its expense
    emitted. *)
Lemma emitted_for_row tza rows d row a :
  row ∈ rows ->
  billable d row = true ->
  accounts d !! Subscription.accountId row.2 = Some a ->
  exists i, (i, expense_of row.1 row.2 (Account.currency a)) ∈ emitted tza rows d.
Proof.
  revert d a. induction rows as [|row' rows IH]; intros d a Hin Hb Ha.
  - by apply elem_of_nil in Hin.
  - rewrite emitted_cons. apply elem_of_cons in Hin as [<-|Hin].
    + rewrite Hb, Ha. eexists. apply elem_of_app. left.
      by apply list_elem_of_singleton.
    + pose proof (bill_same_frame tza d row') as Hfr.
      destruct (same_frame_currency _ _ _ _ Hfr Ha) as (a' & Ha' & Hc).
      destruct (IH (bill tza d row') a' Hin) as (i & Hi); [|done|].
      { by rewrite (same_frame_billable d). }
      exists i. apply elem_of_app. right. by rewrite <- Hc.
Qed.

Lemma emitted_for_expense id s c : emitted_for (expense_of id s c) = Some id.
Proof. done. Qed.

(** No subscription has two rows emitted in one run. *)
Lemma emitted_once tza rows d i t i' t' :
  NoDup rows.*1 ->
  (i, t) ∈ emitted tza rows d ->
  (i', t') ∈ emitted tza rows d ->
  emitted_for t = emitted_for t' ->
  i = i' /\ t = t'.
Proof.
  revert d. induction rows as [|row rows IH]; intros d Hnd H1 H2 Heq.
  - by apply elem_of_nil in H1.
  - rewrite fmap_cons, NoDup_cons in Hnd. destruct Hnd as [Hhead Hnd].
    rewrite emitted_cons, elem_of_app in H1, H2.
    assert (forall j u,
               (j, u) ∈ emitted tza rows (bill tza d row) ->
               emitted_for u <> Some row.1) as Htail.
    { intros j u Hj Hu.
      destruct (emitted_source _ _ _ _ _ Hj) as (row' & a' & Hin & _ & _ & ->).
      rewrite emitted_for_expense in Hu. simplify_eq.
      apply Hhead. rewrite <- Hu. by apply (list_elem_of_fmap_2 fst) in Hin. }
    assert (forall j u,
               (j, u) ∈ (if billable d row
                         then match accounts d !! Subscription.accountId row.2 with
                              | Some a =>
                                  [(fresh (dom (transactions d)),
                                    expense_of row.1 row.2 (Account.currency a))]
                              | None => []
                              end
                         else []) ->
               emitted_for u = Some row.1 /\
               exists a, accounts d !! Subscription.accountId row.2 = Some a /\
                         j = fresh (dom (transactions d)) /\
                         u = expense_of row.1 row.2 (Account.currency a)) as Hhd.
    { intros j u Hj.
      destruct (billable d row); [|by apply elem_of_nil in Hj].
      destruct (accounts d !! _) as [a|]; [|by apply elem_of_nil in Hj].
      apply list_elem_of_singleton in Hj. simplify_eq.
      split; [done|]. by exists a. }
    destruct H1 as [H1|H1], H2 as [H2|H2].
    + destruct (Hhd _ _ H1) as (_ & a1 & Ha1 & -> & ->).
      destruct (Hhd _ _ H2) as (_ & a2 & Ha2 & -> & ->).
      split; [done|congruence].
    + destruct (Hhd _ _ H1) as (E1 & _). exfalso.
      apply (Htail _ _ H2). congruence.
    + destruct (Hhd _ _ H2) as (E2 & _). exfalso.
      apply (Htail _ _ H1). congruence.
    + by apply (IH (bill tza d row)).
Qed.

(** * The billing run on the due subscriptions *)

Lemma due_elem now d id s :
  (id, s) ∈ Prisma.due now d <->
  subscriptions d !! id = Some s /\
  Subscription.isActive s = true /\ Subscription.nextBillingDate s <= now.
Proof.
  unfold Prisma.due. rewrite list_elem_of_filter, elem_of_map_to_list. simpl.
  tauto.
Qed.

Lemma due_NoDup now d : NoDup (Prisma.due now d).*1.
Proof.
  unfold Prisma.due.
  apply (sublist_NoDup _ (map_to_list (subscriptions d)).*1);
    [apply NoDup_fst_map_to_list|].
  apply fmap_sublist, sublist_filter.
Qed.

Lemma billable_intro d id s a :
  accounts d !! Subscription.accountId s = Some a ->
  Prisma.references_opt (categories d) (Subscription.categoryId s) = true ->
  billable d (id, s) = true.
Proof.
  intros Ha Hc. unfold billable. simpl.
  by rewrite (references_Some _ _ a), Hc.
Qed.

(** The run ends normally, on the store [bill_all] describes. *)
Lemma run_result tza now w :
  fault_free w ->
  exists w',
    @processSubscriptions Empty_set tza now w = (Normal tt, w') /\
    db w' = bill_all tza (Prisma.due now (db w)) (db w).
Proof.
  intros Hf.
  destruct (wp_result _ _ _ (run_fault_free (R := Empty_set) tza now w Hf))
    as (c & w' & Hrun & -> & _ & Hdb).
  by exists w'.
Qed.

(** The subscription of a due row that can be billed is advanced once. *)
Lemma run_subscription tza now d id s a nd :
  subscriptions d !! id = Some s ->
  Subscription.isActive s = true ->
  Subscription.nextBillingDate s <= now ->
  accounts d !! Subscription.accountId s = Some a ->
  Prisma.references_opt (categories d) (Subscription.categoryId s) = true ->
  nextBillingDate_after tza (Subscription.billingCycle s)
    (Subscription.nextBillingDate s) = Some nd ->
  subscriptions (bill_all tza (Prisma.due now d) d) !! id =
  Some (Subscription.set_nextBillingDate nd s).
Proof.
  intros Hs Hact Hdue Ha Hc Hnd.
  rewrite (bill_all_subscription tza _ d id s nd);
    [by rewrite Hs|apply due_NoDup|by apply due_elem
    |by apply (billable_intro _ _ _ a)|done].
Qed.

(** Exactly one row is emitted for it. *)
Lemma run_transaction tza now d id s a :
  subscriptions d !! id = Some s ->
  Subscription.isActive s = true ->
  Subscription.nextBillingDate s <= now ->
  accounts d !! Subscription.accountId s = Some a ->
  Prisma.references_opt (categories d) (Subscription.categoryId s) = true ->
  let d' := bill_all tza (Prisma.due now d) d in
  let t := expense_of id s (Account.currency a) in
  exists txid,
    transactions d !! txid = None /\
    transactions d' !! txid = Some t /\
    forall txid' t',
      transactions d !! txid' = None ->
      transactions d' !! txid' = Some t' ->
      emitted_for t' = Some id ->
      txid' = txid /\ t' = t.
Proof.
  intros Hs Hact Hdue Ha Hc d' t.
  assert ((id, s) ∈ Prisma.due now d) as Hin by (by apply due_elem).
  pose proof (billable_intro d id s a Ha Hc) as Hb.
  destruct (emitted_for_row tza _ d (id, s) a Hin Hb Ha) as (txid & Hem).
  exists txid. split; [by apply emitted_fresh in Hem|]. split.
  - apply bill_all_transactions. by right.
  - intros txid' t' Hfree Hnew Hfor.
    apply bill_all_transactions in Hnew as [Hold|Hem']; [congruence|].
    apply (emitted_once tza (Prisma.due now d) d); [apply due_NoDup|done..].
Qed.

(** Old rows stay. *)
Lemma run_keeps_transactions tza rows d i t :
  transactions d !! i = Some t ->
  transactions (bill_all tza rows d) !! i = Some t.
Proof. intros H. apply bill_all_transactions. by left. Qed.

(** What the other due subscriptions charge to the account of [id]. *)
Lemma filter_others_id (rows : list (string * Subscription.t)) id :
  id ∉ rows.*1 -> filter (fun row => row.1 <> id) rows = rows.
Proof.
  induction rows as [|row rows IH]; intros Hid; [done|].
  rewrite fmap_cons, not_elem_of_cons in Hid. destruct Hid as [Hne Hid].
  rewrite filter_cons, decide_True by done. by rewrite IH.
Qed.

Lemma charged_split d rows id s :
  NoDup rows.*1 ->
  (id, s) ∈ rows ->
  billable d (id, s) = true ->
  charged d rows (Subscription.accountId s) =
  Subscription.amount s +
  charged d (filter (fun row => row.1 <> id) rows) (Subscription.accountId s).
Proof.
  induction rows as [|row rows IH]; intros Hnd Hin Hb.
  - by apply elem_of_nil in Hin.
  - rewrite fmap_cons, NoDup_cons in Hnd. destruct Hnd as [Hhead Hnd].
    rewrite filter_cons. apply elem_of_cons in Hin as [<-|Hin].
    + simpl in *. rewrite Hb, bool_decide_eq_true_2 by done. simpl.
      rewrite decide_False by (intros H; by apply H).
      by rewrite filter_others_id.
    + assert (row.1 <> id) as Hne.
      { intros <-. apply Hhead. by apply (list_elem_of_fmap_2 fst) in Hin. }
      rewrite decide_True by done. simpl. rewrite IH by done. lia.
Qed.

Lemma after_MONTHLY tza t nd :
  nextBillingDate_after tza MONTHLY t = Some nd ->
  JSDate.setMonth tza t (JSDate.getMonth tza t + 1) = Some nd.
Proof.
  unfold nextBillingDate_after, JSDate.new_Date.
  destruct (JSDate.TimeClip t) as [t0|] eqn:Ht; [|done].
  apply JSDateFacts.TimeClip_Some in Ht. by subst t0.
Qed.

Lemma after_YEARLY tza t nd :
  nextBillingDate_after tza YEARLY t = Some nd ->
  JSDate.setFullYear tza t (JSDate.getFullYear tza t + 1) = Some nd.
Proof.
  unfold nextBillingDate_after, JSDate.new_Date.
  destruct (JSDate.TimeClip t) as [t0|] eqn:Ht; [|done].
  apply JSDateFacts.TimeClip_Some in Ht. by subst t0.
Qed.


(** C8.  For a subscription that is due (active, [nextBillingDate <= now])
    on an account that exists, one run creates exactly one transaction for
    it: an EXPENSE of the subscription's amount, dated at the subscription's
    current [nextBillingDate], in the currency of the account, with a
    metadata link to the subscription's id, name and billing cycle.  The
    rows that were there stay, and the balance of the account is
    decremented by the amount (and by the amounts of the other due
    subscriptions on the same account). *)
Theorem billing_emits_one_expense (LocalTZA now : Z) (w : World) (id : string)
    (s : Subscription.t) (a : Account.t) :
  fault_free w ->
  subscriptions (db w) !! id = Some s ->
  Subscription.isActive s = true ->
  Subscription.nextBillingDate s <= now ->
  accounts (db w) !! Subscription.accountId s = Some a ->
  Prisma.references_opt (categories (db w)) (Subscription.categoryId s) = true ->
  let t := expense_of id s (Account.currency a) in
  let others := filter (fun row => row.1 <> id) (Prisma.due now (db w)) in
  exists w',
    @processSubscriptions Empty_set LocalTZA now w = (Normal tt, w') /\
    Transaction.type t = EXPENSE /\
    Transaction.amount t = Subscription.amount s /\
    Transaction.date t = Subscription.nextBillingDate s /\
    Transaction.currency t = Account.currency a /\
    Transaction.metadata t =
      Some {| subscriptionId := id;
              subscriptionName := Subscription.name s;
              billingCycle := Subscription.billingCycle s |} /\
    (exists txid,
       transactions (db w) !! txid = None /\
       transactions (db w') !! txid = Some t /\
       forall txid' t',
         transactions (db w) !! txid' = None ->
         transactions (db w') !! txid' = Some t' ->
         emitted_for t' = Some id ->
         txid' = txid /\ t' = t) /\
    (forall i t0, transactions (db w) !! i = Some t0 ->
                  transactions (db w') !! i = Some t0) /\
    exists a',
      accounts (db w') !! Subscription.accountId s = Some a' /\
      Account.balance a' =
        Account.balance a - Subscription.amount s
        - charged (db w) others (Subscription.accountId s).
Proof.
  intros Hf Hs Hact Hdue Ha Hc t others.
  destruct (run_result LocalTZA now w Hf) as (w' & Hrun & Hdb).
  exists w'. split; [done|]. do 5 (split; [done|]).
  rewrite Hdb. split; [|split].
  - by apply run_transaction.
  - intros i t0. apply run_keeps_transactions.
  - rewrite bill_all_account, Ha. simpl. eexists. split; [done|]. simpl.
    rewrite (charged_split (db w) _ id s);
      [subst others; lia|apply due_NoDup|by apply due_elem
      |by apply (billable_intro _ _ _ a)].
Qed.

(** ** Failures during a run *)

Lemma billing_total {R} tza row w :
  exists line w',
    @processSubscription R tza row w = (Normal tt, w') /\
    console w' = console w ++ [line].
Proof.
  destruct (wp_result _ _ _ (billing_prefix (R := R) tza row w))
    as (c & w' & Hrun & line & k & -> & _ & Hlog & _).
  by exists line, w'.
Qed.

Lemma for_of_total {R} tza rows w :
  exists w', for_of rows (@processSubscription R tza) w = (Normal tt, w').
Proof.
  revert w. induction rows as [|row rows IH]; intros w; simpl.
  - by exists w.
  - destruct (billing_total (R := R) tza row w) as (line & w1 & Hrun & _).
    unfold bind. rewrite Hrun. apply IH.
Qed.

Lemma run_total {R} tza now w :
  exists w', @processSubscriptions R tza now w = (Normal tt, w').
Proof.
  assert (wp (@processSubscriptions R tza now) w (fun c _ => c = Normal tt)) as H.
  { wp_go; try done.
    match goal with
    | |- wp (for_of ?rows ?body) ?w0 _ =>
        destruct (for_of_total (R := unit) tza rows w0) as (w' & Hloop);
        unfold wp; by rewrite Hloop
    end. }
  unfold wp in H. exists (@processSubscriptions R tza now w).2.
  by destruct (@processSubscriptions R tza now w) as [c w']; simpl in *; subst.
Qed.

Lemma billing_missing_account {R} tza row w :
  accounts (db w) !! Subscription.accountId row.2 = None ->
  faulty w (length (trace w)) = false ->
  wp (@processSubscription R tza row) w (fun c w' =>
    c = Normal tt /\ db w' = db w /\
    console w' = console w ++ [AccountNotFoundFor row.1]).
Proof. intros Ha Hf. by wp_go. Qed.

Lemma billing_keeps_transactions {R} tza row w i t :
  transactions (db w) !! i = Some t ->
  wp (@processSubscription R tza row) w (fun _ w' =>
    transactions (db w') !! i = Some t).
Proof.
  intros Hi. wp_go; try done.
  all: rewrite lookup_insert_ne; [done|].
  all: intros <-; by rewrite fresh_lookup in Hi.
Qed.

Lemma bill_all_subscription_skipped tza rows d id s :
  NoDup rows.*1 ->
  (id, s) ∈ rows ->
  billable d (id, s) = false ->
  subscriptions (bill_all tza rows d) !! id = subscriptions d !! id.
Proof.
  revert d. induction rows as [|row rows IH]; intros d Hnd Hin Hb.
  - by apply elem_of_nil in Hin.
  - rewrite fmap_cons, NoDup_cons in Hnd. destruct Hnd as [Hhead Hnd].
    rewrite bill_all_cons.
    apply elem_of_cons in Hin as [<-|Hin].
    + rewrite (bill_all_subscription_other tza rows) by done.
      by rewrite bill_false.
    + assert (row.1 <> id) as Hne.
      { intros <-. apply Hhead. by apply (list_elem_of_fmap_2 fst) in Hin. }
      rewrite IH; try done.
      * by rewrite bill_subscription_other.
      * rewrite (same_frame_billable d) by apply bill_same_frame. done.
Qed.

(** C9.  A failure while one subscription is processed is logged, that
    subscription is left, and the loop goes on with the others: the
    iteration always ends normally after writing one line to the console;
    the loop continues from the world the iteration left, so nothing done
    before is undone, and rows emitted before are still there; a
    subscription whose account no longer exists is logged as such and
    nothing is written for it, while the rest of the batch is processed.
    The run itself never throws, whatever fails. *)
Theorem billing_failures_are_isolated (LocalTZA now : Z) :
  (forall w, exists w',
     @processSubscriptions Empty_set LocalTZA now w = (Normal tt, w')) /\
  (forall row w, exists line w',
     @processSubscription unit LocalTZA row w = (Normal tt, w') /\
     console w' = console w ++ [line]) /\
  (forall row rest w,
     for_of (row :: rest) (@processSubscription unit LocalTZA) w =
     for_of rest (@processSubscription unit LocalTZA)
       (@processSubscription unit LocalTZA row w).2) /\
  (forall row w i t,
     transactions (db w) !! i = Some t ->
     transactions (db (@processSubscription unit LocalTZA row w).2) !! i = Some t) /\
  (forall row w,
     accounts (db w) !! Subscription.accountId row.2 = None ->
     faulty w (length (trace w)) = false ->
     let w' := (@processSubscription unit LocalTZA row w).2 in
     db w' = db w /\ console w' = console w ++ [AccountNotFoundFor row.1]) /\
  (forall w id s,
     fault_free w ->
     subscriptions (db w) !! id = Some s ->
     Subscription.isActive s = true ->
     Subscription.nextBillingDate s <= now ->
     accounts (db w) !! Subscription.accountId s = None ->
     let w' := (@processSubscriptions Empty_set LocalTZA now w).2 in
     db w' = bill_all LocalTZA (Prisma.due now (db w)) (db w) /\
     subscriptions (db w') !! id = Some s /\
     forall txid t',
       transactions (db w) !! txid = None ->
       transactions (db w') !! txid = Some t' ->
       emitted_for t' <> Some id).
Proof.
  split; [|split; [|split; [|split; [|split]]]].
  - intros w. apply run_total.
  - intros row w. apply billing_total.
  - intros row rest w. simpl.
    destruct (billing_total (R := unit) LocalTZA row w) as (line & w1 & Hrun & _).
    unfold bind. by rewrite Hrun.
  - intros row w i t Hi.
    apply (billing_keeps_transactions (R := unit) LocalTZA row w i t Hi).
  - intros row w Ha Hf w'.
    by destruct (billing_missing_account (R := unit) LocalTZA row w Ha Hf)
      as (_ & ? & ?).
  - intros w id s Hf Hs Hact Hdue Ha w'.
    destruct (run_result LocalTZA now w Hf) as (w1 & Hrun & Hdb).
    subst w'. rewrite Hrun. simpl. split; [done|].
    assert (billable (db w) (id, s) = false) as Hb.
    { unfold billable. simpl. by rewrite (references_None _ _ Ha). }
    assert ((id, s) ∈ Prisma.due now (db w)) as Hin by (by apply due_elem).
    rewrite Hdb. split.
    + rewrite (bill_all_subscription_skipped LocalTZA _ (db w) id s);
        [done|apply due_NoDup|done|done].
    + intros txid t' Hfree Hnew Hfor.
      apply bill_all_transactions in Hnew as [Hold|Hem]; [congruence|].
      destruct (emitted_source _ _ _ _ _ Hem)
        as ([id' s'] & a' & Hin' & Hb' & _ & ->).
      rewrite emitted_for_expense in Hfor. simplify_eq.
      apply due_elem in Hin' as (Hs' & _). simpl in *.
      assert (s' = s) as -> by congruence. congruence.
Qed.


(** * The theorems at work on the scenarios *)

Import Scenario.

Lemma world0_fault_free : fault_free world0.
Proof. intros n. reflexivity. Defined.

Lemma world0_referential : referential (db world0).
Proof. intros id t H. simpl in H. by rewrite lookup_empty in H. Defined.

Lemma world0_balanced : balanced (db world0).
Proof.
  intros A a H. simpl. rewrite ledger_sum_empty. simpl in H.
  apply lookup_insert_Some in H as [[_ <-]|[_ H]]; [done|].
  by apply lookup_singleton_Some in H as [_ <-].
Defined.

Lemma world1_fault_free : fault_free world1.
Proof. intros n. reflexivity. Defined.

(** The POST of the scenario answered 201 with row ["0"] and left
    [world1]. *)
Lemma world1_created :
  handle (POST user expense50) world0 =
  (Normal (json (TransactionBody "0" row50) 201), world1).
Proof. vm_compute. reflexivity. Defined.

(** Account A at 0: an EXPENSE of 50 brings it to -50, the change of the
    amount to 30 brings it to -30, the deletion back to 0. *)
Example scenario_create_update_delete :
  Account.balance <$> accounts (db (serve (take 1 requests) world0)) !! "acc_A"
    = Some (-50) /\
  Account.balance <$> accounts (db (serve (take 2 requests) world0)) !! "acc_A"
    = Some (-30) /\
  Account.balance <$> accounts (db (serve requests world0)) !! "acc_A" = Some 0 /\
  transactions (db (serve requests world0)) = ∅.
Proof. vm_compute. repeat split. Qed.

(** The invariant on the three requests of the scenario, served from the
    empty ledger. *)
Lemma balance_invariant_witness :
  fault_free world0 /\ referential (db world0) /\ balanced (db world0) /\
  balanced (db (serve requests world0)).
Proof.
  split; [exact world0_fault_free|].
  split; [exact world0_referential|].
  split; [exact world0_balanced|].
  exact (balance_invariant requests world0
           world0_fault_free world0_referential world0_balanced).
Defined.

(** The EXPENSE of 50 on account A: the row is stored under ["0"], A holds
    -50, one balance update was issued. *)
Lemma create_applies_delta_witness :
  (fault_free world0 /\ 0 < c_amount expense50 /\
   accounts (db world0) !! c_accountId expense50 = Some account_A /\
   Account.userId account_A = user /\ Account.isActive account_A = true /\
   category_visible user (db world0) (c_categoryId expense50)) /\
  exists w',
    handle (POST user expense50) world0 =
      (Normal (json (TransactionBody "0" row50) 201), w') /\
    accounts (db w') !! "acc_A" = Some (Account.add_balance (-50) account_A) /\
    balance_updates (issued world0 w') = [("acc_A", -50)].
Proof.
  assert (0 < c_amount expense50) as Hpos by reflexivity.
  assert (accounts (db world0) !! c_accountId expense50 = Some account_A)
    as Ha by reflexivity.
  assert (category_visible user (db world0) (c_categoryId expense50))
    as Hcat by exact I.
  split; [by repeat split; try exact world0_fault_free|].
  destruct (create_applies_delta user expense50 world0 account_A
              world0_fault_free Hpos Ha eq_refl eq_refl Hcat)
    as (w' & Hrun & _ & Hacc & _ & _ & Hupd).
  exists w'. split; [exact Hrun|]. split; [exact Hacc|exact Hupd].
Defined.

(** The transaction of the scenario is in [world1], on account A, which now
    holds -50. *)
Lemma world1_row : transactions (db world1) !! "0" = Some row50.
Proof. vm_compute. reflexivity. Defined.

Lemma world1_acc_A :
  accounts (db world1) !! "acc_A" = Some (Account.add_balance (-50) account_A).
Proof. vm_compute. reflexivity. Defined.

Lemma world1_acc_B : accounts (db world1) !! "acc_B" = Some account_A.
Proof. vm_compute. reflexivity. Defined.

(** Moving the EXPENSE of 50 from A to B: 50 goes back to A, which holds 0
    again, and 50 is taken off B. *)
Lemma update_reverts_then_applies_witness :
  (fault_free world1 /\
   transactions (db world1) !! "0" = Some row50 /\
   Transaction.userId row50 = user /\
   patch_valid move_to_B /\
   account_movable user (db world1) row50 (p_accountId move_to_B) /\
   category_visible user (db world1) (p_categoryId move_to_B) /\
   is_Some (accounts (db world1) !! Transaction.accountId row50)) /\
  exists w',
    handle (PUT user "0" move_to_B) world1 =
      (Normal (json (TransactionBody "0" (Prisma.patched move_to_B row50)) 200), w') /\
    balance_updates (issued world1 w') = [("acc_A", 50); ("acc_B", -50)] /\
    exists a' b',
      accounts (db w') !! "acc_A" = Some a' /\
      accounts (db w') !! "acc_B" = Some b' /\
      Account.balance a' = 0 /\ Account.balance b' = -50.
Proof.
  assert (patch_valid move_to_B) as Hvalid by exact I.
  assert (account_movable user (db world1) row50 (p_accountId move_to_B))
    as Hmov.
  { right. exists account_A. by repeat split. }
  assert (category_visible user (db world1) (p_categoryId move_to_B))
    as Hcat by exact I.
  assert (is_Some (accounts (db world1) !! Transaction.accountId row50))
    as Hacc by (eexists; exact world1_acc_A).
  split; [by repeat split; try exact world1_fault_free|].
  destruct (update_reverts_then_applies user "0" move_to_B world1 row50
              world1_fault_free world1_row eq_refl Hvalid Hmov Hcat Hacc)
    as (w' & Hrun & _ & _ & _ & Hupd & Hmove).
  exists w'. split; [exact Hrun|]. split.
  - rewrite Hupd; [reflexivity|].
    intros (_ & _ & Hsame). discriminate Hsame.
  - destruct (Hmove ltac:(discriminate) _ _ world1_acc_A world1_acc_B)
      as (a' & b' & HA & HB & Ha' & Hb').
    exists a', b'. split; [exact HA|]. split; [exact HB|].
    split; [rewrite Ha'|rewrite Hb']; reflexivity.
Defined.

(** Deleting the EXPENSE of 50 just created gives back the accounts and the
    transactions there were before it was created. *)
Lemma delete_inverts_create_witness :
  (fault_free world1 /\
   transactions (db world1) !! "0" = Some row50 /\
   Transaction.userId row50 = user /\
   is_Some (accounts (db world1) !! Transaction.accountId row50)) /\
  exists w',
    handle (DELETE user "0") world1 = (Normal (json SuccessBody 200), w') /\
    accounts (db w') = accounts (db world0) /\
    transactions (db w') = transactions (db world0).
Proof.
  assert (is_Some (accounts (db world1) !! Transaction.accountId row50))
    as Hacc by (eexists; exact world1_acc_A).
  split; [by repeat split; try exact world1_fault_free|].
  destruct (delete_inverts_create user "0" world1 row50
              world1_fault_free world1_row eq_refl Hacc)
    as (w' & Hrun & _ & _ & Hinv).
  exists w'. split; [exact Hrun|].
  exact (Hinv expense50 world0 world1_created).
Defined.

(** A TRANSFER of 50 is created and deleted without any balance changing;
    turning the EXPENSE of 50 into a TRANSFER only gives the 50 back. *)
Lemma transfer_has_no_balance_effect_witness :
  (c_type transfer50 = TRANSFER /\
   accounts (db (handle (POST user transfer50) world0).2) = accounts (db world0) /\
   balance_updates (issued world0 (handle (POST user transfer50) world0).2) = []) /\
  (let w := (handle (POST user transfer50) world0).2 in
   let t := created_row user transfer50 account_A in
   transactions (db w) !! "0" = Some t /\
   Transaction.type t = TRANSFER /\
   accounts (db (handle (DELETE user "0") w).2) = accounts (db w)) /\
  (Transaction.type (Prisma.patched make_transfer row50) = TRANSFER /\
   accounts (db (handle (PUT user "0" make_transfer) world1).2) =
     adjust "acc_A" 50 (accounts (db world1)) /\
   balance_updates (issued world1 (handle (PUT user "0" make_transfer) world1).2) =
     [("acc_A", 50)]).
Proof.
  destruct transfer_has_no_balance_effect as (Hpost & Hdelete & Hput).
  split; [|split].
  - split; [reflexivity|].
    exact (Hpost user transfer50 world0 eq_refl).
  - assert (transactions (db (handle (POST user transfer50) world0).2) !! "0"
            = Some (created_row user transfer50 account_A)) as Hrow
      by (vm_compute; reflexivity).
    split; [exact Hrow|]. split; [reflexivity|].
    exact (proj1 (Hdelete user "0" _ _ Hrow eq_refl)).
  - assert (is_Some (accounts (db world1) !! Transaction.accountId row50))
      as Hacc by (eexists; exact world1_acc_A).
    assert (account_movable user (db world1) row50 (p_accountId make_transfer))
      as Hmov by exact I.
    destruct (Hput user "0" make_transfer world1 row50
                world1_fault_free world1_row eq_refl I Hmov I Hacc)
      as (_ & _ & Hto).
    split; [reflexivity|].
    exact (Hto eq_refl).
Defined.


(** ** The processor *)

Lemma billing_world_fault_free t : fault_free (billing_world t).
Proof. intros n. reflexivity. Defined.

(** Subscription S, 20 a month, next billed 2024-01-01, on an account that
    holds 100: the run of 2024-01-01 creates one EXPENSE of 20, leaves 80
    on the account and moves the date to 2024-02-01; the subscription whose
    account is gone is logged and left as it was. *)
Example scenario_billing :
  let w' := (@processSubscriptions Empty_set 0 jan01 (billing_world jan01)).2 in
  transactions (db w') =
    {[ "0" := expense_of "sub_1" (monthly20 jan01 "acc_S") USD ]} /\
  Account.balance <$> accounts (db w') !! "acc_S" = Some 80 /\
  Subscription.nextBillingDate <$> subscriptions (db w') !! "sub_1" = Some feb01 /\
  subscriptions (db w') !! "sub_2" = Some (monthly20 jan01 "acc_gone") /\
  AccountNotFoundFor "sub_2" ∈ console w'.
Proof.
  do 4 (split; [vm_compute; reflexivity|]).
  vm_compute. set_solver.
Qed.

(** A subscription three months overdue: one run moves it one month, a
    second run another month, each with one more row. *)
Example scenario_overdue :
  let run := fun w => (@processSubscriptions Empty_set 0 apr01 w).2 in
  let w1 := run (billing_world jan01) in
  let w2 := run w1 in
  Subscription.nextBillingDate <$> subscriptions (db w1) !! "sub_1" = Some feb01 /\
  size (transactions (db w1)) = 1%nat /\
  Subscription.nextBillingDate <$> subscriptions (db w2) !! "sub_1"
    = Some 1709251200000 /\
  size (transactions (db w2)) = 2%nat.
Proof. repeat split; vm_compute; reflexivity. Qed.


(** The run of 2024-01-01: one EXPENSE for the subscription, 80 left on the
    account. *)
Lemma billing_emits_one_expense_witness :
  let w := billing_world jan01 in
  let s := monthly20 jan01 "acc_S" in
  (fault_free w /\
   subscriptions (db w) !! "sub_1" = Some s /\
   Subscription.isActive s = true /\
   Subscription.nextBillingDate s <= jan01 /\
   accounts (db w) !! Subscription.accountId s = Some account_S /\
   Prisma.references_opt (categories (db w)) (Subscription.categoryId s) = true) /\
  exists w',
    @processSubscriptions Empty_set 0 jan01 w = (Normal tt, w') /\
    (exists txid,
       transactions (db w') !! txid = Some (expense_of "sub_1" s USD)) /\
    exists a',
      accounts (db w') !! "acc_S" = Some a' /\ Account.balance a' = 80.
Proof.
  intros w s.
  assert (Subscription.nextBillingDate s <= jan01) as Hdue by (by vm_compute).
  split; [by repeat split; try exact (billing_world_fault_free jan01)|].
  destruct (billing_emits_one_expense 0 jan01 w "sub_1" s account_S
              (billing_world_fault_free jan01) eq_refl eq_refl Hdue
              eq_refl eq_refl)
    as (w' & Hrun & _ & _ & _ & _ & _ & (txid & _ & Htx & _) & _
        & (a' & Ha' & Hbal)).
  exists w'. split; [exact Hrun|]. split; [exists txid; exact Htx|].
  exists a'. split; [exact Ha'|].
  rewrite Hbal. vm_compute. reflexivity.
Defined.

(** The run ends normally also when the store fails under it, and the
    subscription whose account is gone stays as it was. *)
Lemma billing_failures_are_isolated_witness :
  let w := billing_world jan01 in
  let s := monthly20 jan01 "acc_gone" in
  (fault_free w /\
   subscriptions (db w) !! "sub_2" = Some s /\
   Subscription.isActive s = true /\
   Subscription.nextBillingDate s <= jan01 /\
   accounts (db w) !! Subscription.accountId s = None) /\
  (exists w',
     @processSubscriptions Empty_set 0 jan01 billing_world_flaky = (Normal tt, w')) /\
  subscriptions (db (@processSubscriptions Empty_set 0 jan01 w).2) !! "sub_2"
    = Some s.
Proof.
  intros w s.
  assert (Subscription.nextBillingDate s <= jan01) as Hdue by (by vm_compute).
  split; [by repeat split; try exact (billing_world_fault_free jan01)|].
  destruct (billing_failures_are_isolated 0 jan01)
    as (Htotal & _ & _ & _ & _ & Hgone).
  split; [exact (Htotal billing_world_flaky)|].
  exact (proj1 (proj2 (Hgone w "sub_2" s (billing_world_fault_free jan01)
                         eq_refl eq_refl Hdue eq_refl))).
Defined.


(** From 31 January of a year that is not a leap year the advance lands on
    3 March; from 29 February the YEARLY advance lands on 1 March. *)
Example scenario_month_ends :
  (nextBillingDate_after 0 MONTHLY 1675123200000 = Some 1677801600000 /\
   JSDate.MonthFromTime 1677801600000 = 2 /\
   JSDate.DateFromTime 1677801600000 = 3) /\
  (nextBillingDate_after 0 YEARLY 1709164800000 = Some 1740787200000 /\
   JSDate.MonthFromTime 1740787200000 = 2 /\
   JSDate.DateFromTime 1740787200000 = 1).
Proof. repeat split; vm_compute; reflexivity. Qed.

(** * Reading a transaction *)

Lemma get_wp {R} u id w :
  wp (@get R u id) w (fun c w' =>
    db w' = db w /\ faulty w' = faulty w /\
    exists r, c = Normal r /\
      r = if faulty w (length (trace w))
          then json (ErrorBody "Error interno del servidor") 500
          else match transactions (db w) !! id with
               | Some t =>
                   if bool_decide (Transaction.userId t = u)
                   then json (TransactionBody id t) 200
                   else json (ErrorBody "Transacción no encontrada") 404
               | None => json (ErrorBody "Transacción no encontrada") 404
               end).
Proof.
  unfold get. wp_go.
  all: repeat split; try done; eexists; split; try reflexivity.
  all: use_eqs; try done.
Qed.

(** X1.  GET /:id never changes the store and always answers.  It answers
    500 exactly when its one store call fails; otherwise 200 with the row
    exactly when the row exists and belongs to the caller, and 404 for a
    row that is missing or belongs to someone else. *)
Theorem get_shows_own_row (u id : string) (w : World) :
  exists r w',
    @get Empty_set u id w = (Normal r, w') /\
    db w' = db w /\
    (status r = 200 \/ status r = 404 \/ status r = 500) /\
    (status r = 500 <-> faulty w (length (trace w)) = true) /\
    (forall t,
       r = json (TransactionBody id t) 200 <->
       faulty w (length (trace w)) = false /\
       transactions (db w) !! id = Some t /\ Transaction.userId t = u) /\
    (status r = 200 -> exists t, r = json (TransactionBody id t) 200).
Proof.
  destruct (wp_result _ _ _ (get_wp (R := Empty_set) u id w))
    as (c & w' & Hrun & Hdb & _ & r & -> & Hr).
  exists r, w'. split; [done|]. split; [done|].
  destruct (faulty w (length (trace w)));
    [|destruct (transactions (db w) !! id) as [t0|] eqn:Ht;
      [destruct (decide (Transaction.userId t0 = u)) as [Hu|Hu];
       [rewrite (bool_decide_eq_true_2 _ Hu) in Hr
       |rewrite (bool_decide_eq_false_2 _ Hu) in Hr]|]];
    subst r; unfold json; simpl.
  all: repeat split; intros; destruct_and?; simplify_eq/=; eauto.
Qed.

(** * Requests that are turned down *)

Lemma post_rejected {R} u b w :
  wp (@post R u b) w (fun c w' =>
    forall r, c = Normal r -> status r = 404 -> db w' = db w).
Proof.
  unfold post. wp_go.
  all: intros r0 Hr Hs; simplify_eq; try done.
  all: try (simpl in Hs; discriminate Hs).
Qed.

Lemma put_rejected {R} u id p w :
  wp (@put R u id p) w (fun c w' =>
    forall r, c = Normal r -> status r = 404 -> db w' = db w).
Proof.
  unfold put. wp_go.
  all: intros r0 Hr Hs; simplify_eq; try done.
  all: try (simpl in Hs; discriminate Hs).
Qed.

Lemma delete_rejected {R} u id w :
  wp (@delete_ R u id) w (fun c w' =>
    forall r, c = Normal r -> status r = 404 -> db w' = db w).
Proof.
  unfold delete_. wp_go.
  all: intros r0 Hr Hs; simplify_eq; try done.
  all: try (simpl in Hs; discriminate Hs).
Qed.

(** X2.  A request that is answered 404 has written nothing: the store is
    as it was, whatever else failed. *)
Theorem not_found_writes_nothing (q : Request) (w : World) (r : Response)
    (w' : World) :
  handle q w = (Normal r, w') ->
  status r = 404 ->
  db w' = db w.
Proof.
  intros Hrun Hs. destruct q as [u b|u id p|u id]; simpl in Hrun.
  - exact (wp_elim _ _ _ _ _ (post_rejected u b w) Hrun r eq_refl Hs).
  - exact (wp_elim _ _ _ _ _ (put_rejected u id p w) Hrun r eq_refl Hs).
  - exact (wp_elim _ _ _ _ _ (delete_rejected u id w) Hrun r eq_refl Hs).
Qed.

(** * The rows a request leaves alone *)

Lemma post_frame {R} u b w :
  wp (@post R u b) w (fun _ w' =>
    forall i t, transactions (db w) !! i = Some t ->
                transactions (db w') !! i = Some t).
Proof.
  unfold post. wp_go.
  all: intros i0 t0 Hi; try done.
  all: rewrite lookup_insert_ne; [done|].
  all: intros E; subst i0; by rewrite fresh_lookup in Hi.
Qed.

Lemma put_frame {R} u id p w :
  wp (@put R u id p) w (fun _ w' =>
    (forall i, i <> id ->
       transactions (db w') !! i = transactions (db w) !! i) /\
    (transactions (db w) !! id = None -> transactions (db w') !! id = None) /\
    (forall t, transactions (db w) !! id = Some t ->
       (Transaction.userId t <> u -> transactions (db w') !! id = Some t) /\
       exists t', transactions (db w') !! id = Some t' /\
                  Transaction.userId t' = Transaction.userId t /\
                  Transaction.currency t' = Transaction.currency t /\
                  Transaction.metadata t' = Transaction.metadata t)).
Proof.
  unfold put. wp_go.
  all: split; [intros i Hi; by rewrite ?lookup_insert_ne by done|].
  all: split; [intros Hnone; congruence|].
  all: intros row Hrow; simplify_eq.
  all: rewrite ?lookup_insert_eq.
  all: split; [intros Hu; try done|eauto].
  all: try (exfalso;
            match goal with
            | H : bool_decide _ = true |- _ =>
                apply bool_decide_eq_true in H; done
            end).
Qed.

Lemma delete_frame {R} u id w :
  wp (@delete_ R u id) w (fun _ w' =>
    (forall i, i <> id ->
       transactions (db w') !! i = transactions (db w) !! i) /\
    (forall t, transactions (db w) !! id = Some t ->
       Transaction.userId t <> u -> transactions (db w') !! id = Some t)).
Proof.
  unfold delete_. wp_go.
  all: split; [intros i Hi; by rewrite ?lookup_delete_ne by done|].
  all: intros row Hrow Hu; simplify_eq; try done.
  all: try (exfalso;
            match goal with
            | H : bool_decide _ = true |- _ =>
                apply bool_decide_eq_true in H; done
            end).
Qed.

(** * Which answer a request gets from a store that answers *)

(** The lookups behind [account_visible] and [category_visible]. *)
Lemma account_visible_found u d id a :
  accounts d !! id = Some a ->
  bool_decide (Account.userId a = u) && Account.isActive a = true ->
  account_visible u d id.
Proof.
  intros Ha H. apply andb_true_iff in H as [Hu Hact].
  apply bool_decide_eq_true in Hu. by exists a.
Qed.

Lemma account_visible_hidden u d id a :
  accounts d !! id = Some a ->
  bool_decide (Account.userId a = u) && Account.isActive a = false ->
  ~ account_visible u d id.
Proof.
  intros Ha H (a' & Ha' & Hu & Hact). simplify_eq.
  rewrite Hact, bool_decide_eq_true_2 in H; done.
Qed.

Lemma account_visible_missing u d id :
  accounts d !! id = None -> ~ account_visible u d id.
Proof. intros Ha (a' & Ha' & _). congruence. Qed.

(** The category check in a world whose store answers: it passes when no
    category is named, when the name is the empty string, and when the
    category is one the user may use; otherwise it returns 404. *)
Lemma check_category_exact userId categoryId w :
  fault_free w ->
  wp (check_category userId categoryId) w (fun c w1 =>
    reads w w1 /\
    match c with
    | Normal _ =>
        truthy categoryId = true -> category_visible userId (db w) categoryId
    | Return r => status r = 404 /\ ~ category_visible userId (db w) categoryId
    | Throw _ => False
    end).
Proof.
  intros Hf. wp_run; (split; [auto using reads_refl, reads_call|]).
  all: try (exfalso; eapply fault_free_not_faulty; eassumption).
  all: try done.
  all: unfold category_visible; simplify_eq.
  - match goal with H : bool_decide _ = true |- _ =>
      apply bool_decide_eq_true_1 in H; rename H into Hnone end.
    split; [done|]. intros (_ & c & Hc & Hvis). rewrite Hc in Hnone.
    destruct (_ || _) eqn:Hor; [done|].
    apply orb_false_iff in Hor as [H1 H2].
    apply bool_decide_eq_false_1 in H1. destruct Hvis; congruence.
  - match goal with H : bool_decide _ = false |- _ =>
      apply bool_decide_eq_false_1 in H; rename H into Hsome end.
    intros _. split; [done|].
    destruct (categories (db w) !! s) as [c|] eqn:Hc; [|done].
    exists c. split; [done|].
    destruct (_ || _) eqn:Hor; [|done].
    apply orb_true_iff in Hor as [H|H];
      [apply bool_decide_eq_true_1 in H; by left|by right].
Qed.

(** The account check of PUT in a world whose store answers. *)
Lemma check_account_exact userId existing accountId w :
  fault_free w ->
  wp (check_account userId existing accountId) w (fun c w1 =>
    reads w w1 /\
    match c with
    | Normal _ =>
        truthy accountId = true ->
        account_movable userId (db w) existing accountId
    | Return r =>
        status r = 404 /\ ~ account_movable userId (db w) existing accountId
    | Throw _ => False
    end).
Proof.
  intros Hf. wp_run; (split; [auto using reads_refl, reads_call|]).
  all: try (exfalso; eapply fault_free_not_faulty; eassumption).
  all: try done.
  all: unfold account_movable; simplify_eq.
  all: repeat match goal with
       | H : negb (String.eqb _ _) = true |- _ =>
           apply negb_true_iff, String.eqb_neq in H
       | H : negb (String.eqb _ _) = false |- _ =>
           apply negb_false_iff, String.eqb_eq in H
       end.
  - match goal with H : bool_decide _ = true |- _ =>
      apply bool_decide_eq_true_1 in H; rename H into Hnone end.
    split; [done|]. intros [?|Hv]; [done|].
    destruct (accounts (db w) !! s) as [a|] eqn:Ha.
    + destruct (_ && _) eqn:Hand; [done|].
      by apply (account_visible_hidden userId _ _ _ Ha Hand).
    + by apply (account_visible_missing userId _ _ Ha).
  - match goal with H : bool_decide _ = false |- _ =>
      apply bool_decide_eq_false_1 in H; rename H into Hsome end.
    intros _. right.
    destruct (accounts (db w) !! s) as [a|] eqn:Ha; [|done].
    destruct (_ && _) eqn:Hand; [|done].
    by apply (account_visible_found userId _ _ _ Ha Hand).
  - intros _. by left.
Qed.

Lemma after_call_fault_free w c d : fault_free w -> fault_free (after_call w c d).
Proof. intros Hf n. apply Hf. Qed.

(** Stepping through a handler with the exact checks. *)
Ltac wp_exact :=
  lazymatch goal with
  | |- wp (bind (check_category _ _) _) _ _ =>
      eapply wp_seq;
      [apply check_category_exact;
       eauto using after_call_fault_free, reads_fault_free|]
  | |- wp (bind (check_account _ _ _) _) _ _ =>
      eapply wp_seq;
      [apply check_account_exact;
       eauto using after_call_fault_free, reads_fault_free|]
  end;
  let Hr := fresh "Hreads" in
  let Hd := fresh "Hdb" in
  let Hf := fresh "Hfaulty" in
  let Ht := fresh "Htrace" in
  let Hb := fresh "Hupd" in
  let Hc := fresh "Hcheck" in
  let c := fresh "c" in
  intros c ? (Hr & Hc);
  destruct c as [[]|?|?]; [| |done];
  pose proof Hr as (Hd & Hf & ? & Ht & Hb);
  cbv beta iota; wsimpl; use_eqs; cbv beta iota.

Lemma truthy_named (s : option string) :
  s <> Some EmptyString -> s <> None -> truthy s = true.
Proof. destruct s as [[|]|]; simpl; done. Qed.

Lemma category_checked_visible u d (cat : option string) :
  cat <> Some EmptyString ->
  (truthy cat = true -> category_visible u d cat) ->
  category_visible u d cat.
Proof.
  intros Hne H. destruct cat as [s|]; [|done].
  apply H. by apply truthy_named.
Qed.

Lemma account_checked_movable u d existing (acc : option string) :
  acc <> Some EmptyString ->
  (truthy acc = true -> account_movable u d existing acc) ->
  account_movable u d existing acc.
Proof.
  intros Hne H. destruct acc as [s|]; [|done].
  apply H. by apply truthy_named.
Qed.

Ltac ltb_hyps :=
  repeat match goal with
         | H : (_ <? _) = true |- _ => apply Z.ltb_lt in H
         | H : (_ <? _) = false |- _ => apply Z.ltb_ge in H
         end.

Lemma post_status {R} u b w :
  fault_free w ->
  c_categoryId b <> Some EmptyString ->
  let found :=
    account_visible u (db w) (c_accountId b) /\
    category_visible u (db w) (c_categoryId b) in
  wp (@post R u b) w (fun c w' =>
    exists r, c = Normal r /\
      (status r = 201 /\ 0 < c_amount b /\ found \/
       status r = 404 /\ 0 < c_amount b /\ ~ found \/
       status r = 500 /\ c_amount b <= 0)).
Proof.
  intros Hf Hcat found. subst found. unfold post.
  repeat first [wp_exact | wp_step]; wsimpl; use_eqs; wsimpl.
  all: try (exfalso; eapply fault_free_not_faulty; eassumption).
  all: eexists; split; [reflexivity|]; simpl.
  all: ltb_hyps.
  all: try match goal with
       | H : truthy ?c = true -> category_visible _ _ ?c |- _ =>
           apply (category_checked_visible _ _ _ Hcat) in H
       end.
  all: try (right; right; split; [reflexivity|lia]).
  all: try (left; split; [reflexivity|]; split; [done|];
            split; [by eapply account_visible_found|done]).
  all: try (right; left; split; [reflexivity|]; split; [done|];
            intros [Hav Hcv];
            first [ by eapply account_visible_hidden
                  | by eapply account_visible_missing
                  | tauto ]).
  - apply category_visible_references in Hcheck. congruence.
  - destruct Hcheck as [Hs Hno]. right; left.
    split; [done|]. split; [done|]. tauto.
Qed.


Lemma delete_status {R} u id w :
  fault_free w ->
  referential (db w) ->
  let owned :=
    exists t, transactions (db w) !! id = Some t /\ Transaction.userId t = u in
  wp (@delete_ R u id) w (fun c w' =>
    exists r, c = Normal r /\
      (status r = 200 /\ owned \/ status r = 404 /\ ~ owned)).
Proof.
  intros Hf Href owned. subst owned. unfold delete_.
  repeat first [wp_exact | wp_step]; wsimpl; use_eqs; wsimpl.
  all: try (exfalso; eapply fault_free_not_faulty; eassumption).
  all: eexists; split; [reflexivity|]; simpl.
  all: repeat match goal with
       | H : bool_decide _ = true |- _ => apply bool_decide_eq_true_1 in H
       | H : bool_decide _ = false |- _ => apply bool_decide_eq_false_1 in H
       end.
  all: try (left; split; [reflexivity|]; by eexists).
  all: try (right; split; [reflexivity|];
            intros (t1 & E & Hu); by simplify_eq).
  exfalso. destruct (Href id t) as [a Ha]; [done|]. congruence.
Qed.

(** X6.  With a store that answers and whose rows all have their account,
    DELETE answers 200 exactly when the row exists and belongs to the
    caller, and 404 otherwise. *)
Theorem delete_answer_table (u id : string) (w : World) :
  fault_free w ->
  referential (db w) ->
  let owned :=
    exists t, transactions (db w) !! id = Some t /\ Transaction.userId t = u in
  exists r w',
    handle (DELETE u id) w = (Normal r, w') /\
    (status r = 200 <-> owned) /\
    (status r = 404 <-> ~ owned).
Proof.
  intros Hf Href owned.
  pose proof (delete_status (R := Empty_set) u id w Hf Href) as H.
  cbv zeta in H. apply wp_result in H.
  destruct H as (c & w' & Hrun & r & -> & H).
  exists r, w'. split; [exact Hrun|]. fold owned in H.
  destruct H as [(Hs & H)|(Hs & H)]; rewrite Hs.
  all: repeat split; try done.
  all: try (intros E; discriminate E).
  all: subst owned; tauto.
Qed.

Lemma put_status {R} u id p w :
  fault_free w ->
  referential (db w) ->
  p_accountId p <> Some EmptyString ->
  p_categoryId p <> Some EmptyString ->
  let found :=
    exists old,
      transactions (db w) !! id = Some old /\ Transaction.userId old = u /\
      account_movable u (db w) old (p_accountId p) /\
      category_visible u (db w) (p_categoryId p) in
  wp (@put R u id p) w (fun c w' =>
    exists r, c = Normal r /\
      (status r = 200 /\ patch_valid p /\ found \/
       status r = 404 /\ patch_valid p /\ ~ found \/
       status r = 500 /\ ~ patch_valid p)).
Proof.
  intros Hf Href Hacc Hcat found. subst found. unfold put.
  repeat first [wp_exact | wp_step]; wsimpl; use_eqs; wsimpl.
  all: try (exfalso; eapply fault_free_not_faulty; eassumption).
  all: eexists; split; [reflexivity|]; simpl.
  all: ltb_hyps.
  all: repeat match goal with
       | H : bool_decide _ = true |- _ => apply bool_decide_eq_true_1 in H
       | H : bool_decide _ = false |- _ => apply bool_decide_eq_false_1 in H
       end.
  all: repeat match goal with
       | H : truthy ?c = true -> category_visible _ _ ?c |- _ =>
           apply (category_checked_visible _ _ _ Hcat) in H
       | H : truthy ?c = true -> account_movable _ _ _ ?c |- _ =>
           apply (account_checked_movable _ _ _ _ Hacc) in H
       end.
  all: repeat match goal with
       | H : db ?w1 = _, H' : context [db ?w1] |- _ => rewrite H in H'
       end.
  all: try match goal with
       | H : transactions (db _) !! _ = Some ?t |- _ =>
           pose proof (Href _ t H) as Hold
       end.
  all: try match goal with
       | H : account_movable _ _ _ _ |- _ =>
           pose proof (account_movable_references _ _ _ _ H Hold) as Hfka;
           pose proof (references_opt_nullish _ _ _ Hfka Hold) as Hnew
       end.
  all: try match goal with
       | H : category_visible _ _ _ |- _ =>
           pose proof (category_visible_references _ _ _ H) as Hfkc
       end.
  all: try absurd_lookup.
  all: try match goal with
       | H : _ && _ = false |- _ => rewrite Hfka, Hfkc in H; discriminate H
       end.
  all: try (right; right; split; [reflexivity|];
            unfold patch_valid;
            match goal with H : p_amount _ = _ |- _ => rewrite H end; lia).
  all: assert (patch_valid p) as Hvalid
         by (unfold patch_valid;
             match goal with H : p_amount _ = _ |- _ => rewrite H end;
             done).
  all: try (left; split; [reflexivity|]; split; [done|]; by eexists).
  all: right; left; split; [tauto|]; split; [done|].
  all: intros (old & E & Hu & Hm & Hc); simplify_eq; tauto.
Qed.


(** * What holds of the store throughout a billing run *)

(** A property of the store that the iteration on every row of the list
    keeps is kept by the loop, and by the run, whatever fails. *)
Lemma for_of_invariant {R} tza (I : Db -> Prop) rows w :
  (forall row w0, row ∈ rows -> I (db w0) ->
     wp (@processSubscription R tza row) w0 (fun _ w' => I (db w'))) ->
  I (db w) ->
  wp (for_of rows (@processSubscription R tza)) w (fun _ w' => I (db w')).
Proof.
  revert w. induction rows as [|row rows IH]; intros w Hstep HI; simpl.
  - by apply wp_pure.
  - eapply wp_seq; [apply Hstep; [apply elem_of_cons; by left|done]|].
    intros c w1 HI1. destruct c; [|done|done].
    apply IH; [|done].
    intros row' w0 Hin. apply Hstep. apply elem_of_cons. by right.
Qed.

Lemma run_invariant tza now (I : Db -> Prop) w :
  (forall row w0, row ∈ Prisma.due now (db w) -> I (db w0) ->
     wp (@processSubscription unit tza row) w0 (fun _ w' => I (db w'))) ->
  I (db w) ->
  I (db (@processSubscriptions Empty_set tza now w).2).
Proof.
  intros Hstep HI.
  assert (wp (@processSubscriptions Empty_set tza now) w
            (fun _ w' => I (db w'))) as H; [|exact H].
  wp_go; try done.
  match goal with
  | |- wp (for_of ?rows ?body) ?w0 _ =>
      pose proof (for_of_invariant (R := unit) tza I rows w0 Hstep) as Hloop
  end.
  eapply wp_mono; [|apply Hloop; exact HI].
  intros c w1 HI1. destruct c; wp_go; done.
Qed.

(** * The transactions of a user and what others do *)

Lemma handle_frame q w i t :
  transactions (db w) !! i = Some t ->
  Transaction.userId t <> requester q ->
  transactions (db (handle q w).2) !! i = Some t.
Proof.
  intros Hi Hu. destruct q as [u b|u id p|u id]; simpl in *.
  - exact (post_frame (R := Empty_set) u b w i t Hi).
  - destruct (put_frame (R := Empty_set) u id p w) as (Hother & _ & Hrow).
    destruct (decide (i = id)) as [->|Hne].
    + by apply (Hrow t Hi).
    + by rewrite Hother.
  - destruct (delete_frame (R := Empty_set) u id w) as (Hother & Hrow).
    destruct (decide (i = id)) as [->|Hne].
    + by apply (Hrow t Hi).
    + by rewrite Hother.
Qed.

Lemma run_frame tza now w i t :
  transactions (db w) !! i = Some t ->
  transactions (db (@processSubscriptions Empty_set tza now w).2) !! i = Some t.
Proof.
  intros Hi.
  apply (run_invariant tza now (fun d => transactions d !! i = Some t)); [|done].
  intros row w0 _ H0. by apply billing_keeps_transactions.
Qed.

(** X3.  A transaction survives, unchanged, every request made by other
    users and every billing run, whatever fails: only its owner's requests
    can change or remove it. *)
Theorem rows_survive_others (LocalTZA : Z) (es : list Event) (w : World)
    (i : string) (t : Transaction.t) :
  transactions (db w) !! i = Some t ->
  Forall (fun e => match e with
                   | Incoming q => requester q <> Transaction.userId t
                   | Midnight _ => True
                   end) es ->
  transactions (db (history LocalTZA es w)) !! i = Some t.
Proof.
  intros Hi Hes. revert w Hi. unfold history.
  induction Hes as [|e es He Hes IH]; intros w Hi; simpl; [done|].
  apply IH. destruct e as [q|now]; simpl.
  - by apply handle_frame.
  - by apply run_frame.
Qed.

(** X4.  Whatever PUT does to a row that exists, the row is still there
    afterwards with the same owner, the same currency and the same
    metadata: no update changes them, not even one that moves the row to an
    account held in another currency. *)
Theorem update_keeps_owner_and_currency (u id : string) (p : TransactionPatch)
    (w : World) (t : Transaction.t) :
  transactions (db w) !! id = Some t ->
  exists t',
    transactions (db (handle (PUT u id p) w).2) !! id = Some t' /\
    Transaction.userId t' = Transaction.userId t /\
    Transaction.currency t' = Transaction.currency t /\
    Transaction.metadata t' = Transaction.metadata t.
Proof.
  intros Hi.
  destruct (put_frame (R := Empty_set) u id p w) as (_ & _ & Hrow).
  by destruct (Hrow t Hi) as (_ & Hsame).
Qed.

(** * Requests one after the other *)

(** What a 201, and a 200 of PUT and of DELETE, say of the row. *)
Lemma post_written {R} u b w :
  wp (@post R u b) w (fun c w' =>
    forall id t, c = Normal (json (TransactionBody id t) 201) ->
      transactions (db w') !! id = Some t /\ Transaction.userId t = u /\
      faulty w' = faulty w).
Proof.
  unfold post. wp_go.
  all: intros id' t' Heq; unfold json in Heq; simplify_eq.
  all: by rewrite lookup_insert_eq.
Qed.

Lemma put_written {R} u id p w :
  wp (@put R u id p) w (fun c w' =>
    forall id' t, c = Normal (json (TransactionBody id' t) 200) ->
      id' = id /\
      transactions (db w') !! id = Some t /\ Transaction.userId t = u /\
      faulty w' = faulty w).
Proof.
  unfold put. wp_go.
  all: intros id' t' Heq; unfold json in Heq; simplify_eq.
  all: rewrite ?lookup_insert_eq.
  all: repeat match goal with
       | H : bool_decide _ = true |- _ => apply bool_decide_eq_true_1 in H
       end.
  all: done.
Qed.

Lemma delete_removed {R} u id w :
  wp (@delete_ R u id) w (fun c w' =>
    c = Normal (json SuccessBody 200) ->
    transactions (db w') !! id = None /\ faulty w' = faulty w).
Proof.
  unfold delete_. wp_go.
  all: intros Heq; unfold json in Heq; simplify_eq.
  all: by rewrite ?lookup_delete_eq.
Qed.

(** A row that is not there: GET, PUT and DELETE answer 404 and leave the
    store as it is. *)
Lemma put_missing {R} u id p w :
  transactions (db w) !! id = None ->
  patch_valid p ->
  faulty w (length (trace w)) = false ->
  wp (@put R u id p) w (fun c w' =>
    c = Normal (json (ErrorBody "Transacción no encontrada") 404) /\
    db w' = db w).
Proof.
  intros Hi Hvalid Hf. unfold put. wp_go; try done.
  exfalso. unfold patch_valid in Hvalid.
  match goal with H : p_amount _ = _ |- _ => rewrite H in Hvalid end.
  match goal with H : (_ <? _) = false |- _ => apply Z.ltb_ge in H end. lia.
Qed.

Lemma delete_missing {R} u id w :
  transactions (db w) !! id = None ->
  faulty w (length (trace w)) = false ->
  wp (@delete_ R u id) w (fun c w' =>
    c = Normal (json (ErrorBody "Transacción no encontrada") 404) /\
    db w' = db w).
Proof. intros Hi Hf. unfold delete_. by wp_go. Qed.

Lemma get_answer u id w :
  faulty w (length (trace w)) = false ->
  (@get Empty_set u id w).1 =
  Normal match transactions (db w) !! id with
         | Some t =>
             if bool_decide (Transaction.userId t = u)
             then json (TransactionBody id t) 200
             else json (ErrorBody "Transacción no encontrada") 404
         | None => json (ErrorBody "Transacción no encontrada") 404
         end.
Proof.
  intros Hf.
  destruct (wp_result _ _ _ (get_wp (R := Empty_set) u id w))
    as (c & w' & Hrun & _ & _ & r & -> & Hr).
  rewrite Hrun. simpl. by rewrite Hr, Hf.
Qed.

(** X8.  A write that succeeded can be read back: after POST answered 201
    with a row, GET of its id by the same user answers 200 with that row,
    and GET by any other user answers 404; after PUT answered 200 with a
    row, GET answers 200 with that row. *)
Theorem get_after_write :
  (forall u b w id t w',
     handle (POST u b) w = (Normal (json (TransactionBody id t) 201), w') ->
     faulty w' (length (trace w')) = false ->
     (@get Empty_set u id w').1 = Normal (json (TransactionBody id t) 200) /\
     forall v, v <> u ->
       (@get Empty_set v id w').1 =
       Normal (json (ErrorBody "Transacción no encontrada") 404)) /\
  (forall u id p w id' t w',
     handle (PUT u id p) w = (Normal (json (TransactionBody id' t) 200), w') ->
     faulty w' (length (trace w')) = false ->
     id' = id /\
     (@get Empty_set u id w').1 = Normal (json (TransactionBody id t) 200)).
Proof.
  split.
  - intros u b w id t w' Hrun Hf. simpl in Hrun.
    destruct (wp_elim _ _ _ _ _ (post_written u b w) Hrun id t eq_refl)
      as (Hrow & Hu & _).
    split.
    + rewrite (get_answer u id w' Hf), Hrow.
      by rewrite bool_decide_eq_true_2.
    + intros v Hv. rewrite (get_answer v id w' Hf), Hrow.
      rewrite bool_decide_eq_false_2; [done|congruence].
  - intros u id p w id' t w' Hrun Hf. simpl in Hrun.
    destruct (wp_elim _ _ _ _ _ (put_written u id p w) Hrun id' t eq_refl)
      as (-> & Hrow & Hu & _).
    split; [done|].
    rewrite (get_answer u id w' Hf), Hrow.
    by rewrite bool_decide_eq_true_2.
Qed.

(** X10.  After DELETE answered 200 the row is gone for everybody: GET,
    DELETE and any valid PUT of its id answer 404, and DELETE and PUT leave
    the store as it is. *)
Theorem delete_is_final (u id : string) (w w' : World) :
  handle (DELETE u id) w = (Normal (json SuccessBody 200), w') ->
  faulty w' (length (trace w')) = false ->
  let gone := json (ErrorBody "Transacción no encontrada") 404 in
  (forall v, (@get Empty_set v id w').1 = Normal gone) /\
  (forall v, (handle (DELETE v id) w').1 = Normal gone /\
             db (handle (DELETE v id) w').2 = db w') /\
  (forall v p, patch_valid p ->
     (handle (PUT v id p) w').1 = Normal gone /\
     db (handle (PUT v id p) w').2 = db w').
Proof.
  intros Hrun Hf gone. simpl in Hrun.
  destruct (wp_elim _ _ _ _ _ (delete_removed u id w) Hrun eq_refl)
    as (Hrow & _).
  split; [|split].
  - intros v. by rewrite (get_answer v id w' Hf), Hrow.
  - intros v.
    pose proof (delete_missing (R := Empty_set) v id w' Hrow Hf) as H.
    unfold wp in H. simpl. by destruct H as [-> ->].
  - intros v p Hvalid.
    pose proof (put_missing (R := Empty_set) v id p w' Hrow Hvalid Hf) as H.
    unfold wp in H. simpl. by destruct H as [-> ->].
Qed.

(** * What no request and no billing run changes *)

Lemma adjust_standing id d m j :
  standing <$> adjust id d m !! j = standing <$> m !! j.
Proof.
  unfold adjust. destruct (decide (j = id)) as [->|Hne].
  - rewrite lookup_alter_eq. by destruct (m !! id).
  - by rewrite lookup_alter_ne.
Qed.

Lemma same_standing_refl d : same_standing d d.
Proof. by repeat split. Qed.

Lemma same_standing_trans d1 d2 d3 :
  same_standing d1 d2 -> same_standing d2 d3 -> same_standing d1 d3.
Proof.
  intros (Hc & Ha & Hs) (Hc' & Ha' & Hs'). split; [congruence|].
  split; intros j; [by rewrite Ha', Ha|by rewrite Hs', Hs].
Qed.

Ltac standing_leaf :=
  unfold same_standing; wsimpl; use_eqs;
  repeat split; try done; intros j; rewrite ?adjust_standing; try done.

Lemma post_standing {R} u b w :
  wp (@post R u b) w (fun _ w' =>
    same_standing (db w) (db w') /\ subscriptions (db w') = subscriptions (db w)).
Proof. unfold post. wp_go. all: standing_leaf. Qed.

Lemma put_standing {R} u id p w :
  wp (@put R u id p) w (fun _ w' =>
    same_standing (db w) (db w') /\ subscriptions (db w') = subscriptions (db w)).
Proof. unfold put. wp_go. all: standing_leaf. Qed.

Lemma delete_standing {R} u id w :
  wp (@delete_ R u id) w (fun _ w' =>
    same_standing (db w) (db w') /\ subscriptions (db w') = subscriptions (db w)).
Proof. unfold delete_. wp_go. all: standing_leaf. Qed.

Lemma handle_standing q w :
  same_standing (db w) (db (handle q w).2) /\
  subscriptions (db (handle q w).2) = subscriptions (db w).
Proof.
  destruct q as [u b|u id p|u id]; simpl.
  - apply (post_standing (R := Empty_set) u b w).
  - apply (put_standing (R := Empty_set) u id p w).
  - apply (delete_standing (R := Empty_set) u id w).
Qed.

Lemma billing_standing {R} tza row w :
  wp (@processSubscription R tza row) w (fun _ w' =>
    same_standing (db w) (db w')).
Proof.
  wp_go. all: standing_leaf.
  destruct (decide (j = row.1)) as [->|Hne].
  - rewrite lookup_alter_eq, Heqo1. by destruct t0.
  - by rewrite lookup_alter_ne.
Qed.

Lemma happen_standing tza w e : same_standing (db w) (db (happen tza w e)).
Proof.
  destruct e as [q|now]; simpl.
  - apply handle_standing.
  - apply (run_invariant tza now (same_standing (db w)));
      [|apply same_standing_refl].
    intros row w0 _ H0. eapply wp_mono; [|apply billing_standing].
    intros c w' H'. by apply (same_standing_trans _ (db w0)).
Qed.

(** X11.  Requests to the transactions router and billing runs, in any
    order and whatever fails, never touch the categories, never create or
    remove an account or a subscription, never change the owner, the
    currency or the active flag of an account, and change nothing of a
    subscription but its next billing date; requests alone leave the
    subscriptions as they are. *)
Theorem only_ledger_fields_change (LocalTZA : Z) (es : list Event) (w : World) :
  let d := db w in
  let d' := db (history LocalTZA es w) in
  categories d' = categories d /\
  (forall j,
     match accounts d !! j, accounts d' !! j with
     | Some a, Some a' =>
         Account.userId a' = Account.userId a /\
         Account.currency a' = Account.currency a /\
         Account.isActive a' = Account.isActive a
     | None, None => True
     | _, _ => False
     end) /\
  (forall j,
     match subscriptions d !! j, subscriptions d' !! j with
     | Some s, Some s' =>
         exists t, s' = Subscription.set_nextBillingDate t s
     | None, None => True
     | _, _ => False
     end) /\
  (Forall (fun e => exists q, e = Incoming q) es ->
   subscriptions d' = subscriptions d).
Proof.
  intros d d'. subst d d'.
  assert (same_standing (db w) (db (history LocalTZA es w))) as (Hc & Ha & Hs).
  { unfold history. revert w.
    induction es as [|e es IH]; intros w; simpl; [apply same_standing_refl|].
    eapply same_standing_trans; [apply happen_standing|apply IH]. }
  split; [done|]. split; [|split].
  - intros j. specialize (Ha j).
    destruct (accounts (db w) !! j) as [a|],
      (accounts (db (history LocalTZA es w)) !! j) as [a'|]; try done.
    unfold standing in Ha. simpl in Ha. by injection Ha as -> -> ->.
  - intros j. specialize (Hs j).
    destruct (subscriptions (db w) !! j) as [s|],
      (subscriptions (db (history LocalTZA es w)) !! j) as [s'|]; try done.
    simpl in Hs. exists (Subscription.nextBillingDate s').
    destruct s, s'. unfold Subscription.set_nextBillingDate in *.
    simpl in *. injection Hs as -> -> -> -> -> -> -> ->. reflexivity.
  - unfold history. clear Hc Ha Hs. revert w.
    induction es as [|e es IH]; intros w Hes; simpl; [done|].
    apply Forall_cons in Hes as [[q ->] Hes].
    rewrite IH by done. simpl. apply handle_standing.
Qed.

(** * The same update twice *)

Lemma Db_eq d d' :
  accounts d' = accounts d -> transactions d' = transactions d ->
  subscriptions d' = subscriptions d -> categories d' = categories d ->
  d' = d.
Proof. destruct d, d'. simpl. by intros -> -> -> ->. Qed.

Lemma patched_twice p t : Prisma.patched p (Prisma.patched p t) = Prisma.patched p t.
Proof.
  unfold Prisma.patched. simpl.
  by destruct (p_amount p), (p_description p), (p_type p), (p_date p),
    (p_accountId p), (p_categoryId p).
Qed.

(** X9.  PUT is idempotent: when an update succeeds, the same update made
    again answers 200 with the same row and leaves the store exactly as the
    first one left it. *)
Theorem update_is_idempotent (u id : string) (p : TransactionPatch) (w : World)
    (old : Transaction.t) :
  fault_free w ->
  transactions (db w) !! id = Some old ->
  Transaction.userId old = u ->
  patch_valid p ->
  account_movable u (db w) old (p_accountId p) ->
  category_visible u (db w) (p_categoryId p) ->
  is_Some (accounts (db w) !! Transaction.accountId old) ->
  let new := Prisma.patched p old in
  exists w1 w2,
    handle (PUT u id p) w = (Normal (json (TransactionBody id new) 200), w1) /\
    handle (PUT u id p) w1 = (Normal (json (TransactionBody id new) 200), w2) /\
    db w2 = db w1.
Proof.
  intros Hf Hold Hu Hvalid Hmov Hcat Hacc new.
  destruct (put_result u id p w old Hf Hold Hu Hvalid Hmov Hcat Hacc)
    as (w1 & Hrun & Htx & Hfinal & _).
  fold new in Hrun, Htx, Hfinal.
  pose proof (handle_fault_free (PUT u id p) w Hf) as Hf1.
  pose proof (handle_standing (PUT u id p) w) as ((Hc & _) & _).
  rewrite Hrun in Hf1, Hc. simpl in Hf1, Hc.
  assert (transactions (db w1) !! id = Some new) as Hold1
    by (by rewrite Htx, lookup_insert_eq).
  assert (is_Some (accounts (db w1) !! Transaction.accountId new)) as Hacc1.
  { rewrite Hfinal, !adjust_is_Some.
    apply references_opt_nullish; [|done].
    by apply (account_movable_references u _ old). }
  assert (account_movable u (db w1) new (p_accountId p)) as Hmov1.
  { unfold account_movable. destruct (p_accountId p) as [x|] eqn:Hx; [|done].
    left. subst new. unfold Prisma.patched. simpl. by rewrite Hx. }
  assert (category_visible u (db w1) (p_categoryId p)) as Hcat1.
  { unfold category_visible in *. by rewrite Hc. }
  destruct (put_result u id p w1 new Hf1 Hold1 Hu Hvalid Hmov1 Hcat1 Hacc1)
    as (w2 & Hrun2 & Htx2 & _ & Hsame2 & _).
  pose proof (handle_standing (PUT u id p) w1) as ((Hc2 & _) & Hs2).
  rewrite Hrun2 in Hc2, Hs2. simpl in Hc2, Hs2.
  assert (Prisma.patched p new = new) as Hnew by apply patched_twice.
  rewrite Hnew in Hrun2, Htx2, Hsame2.
  exists w1, w2. split; [exact Hrun|]. split; [exact Hrun2|].
  apply Db_eq; try done.
  - by apply Hsame2.
  - rewrite Htx2. by apply insert_id.
Qed.

(** * The ledger under billing runs *)

Lemma bill_ledger_ok tza d row : ledger_ok d -> ledger_ok (bill tza d row).
Proof.
  intros Hok. destruct (billable d row) eqn:Hb; [|by rewrite bill_false].
  destruct (bill_true tza d row Hb) as (a & Ha & Htx & Hacc & _).
  apply (ledger_ok_insert d _ (fresh (dom (transactions d)))
           (expense_of row.1 row.2 (Account.currency a))).
  - done.
  - apply fresh_lookup.
  - done.
  - simpl. by rewrite Ha.
  - intros A a' HA. rewrite Hacc in HA.
    apply adjust_lookup_Some in HA as (a0 & HA & Hbal).
    exists a0. split; [done|]. rewrite Hbal, posted_delta.
    unfold contribution. simpl.
    by destruct (bool_decide (Subscription.accountId row.2 = A)).
  - intros j. rewrite Hacc. by rewrite adjust_is_Some.
Qed.

Lemma bill_all_ledger_ok tza rows d :
  ledger_ok d -> ledger_ok (bill_all tza rows d).
Proof.
  unfold bill_all. revert d.
  induction rows as [|row rows IH]; intros d Hok; simpl; [done|].
  by apply IH, bill_ledger_ok.
Qed.

Lemma happen_ledger_ok tza w e :
  fault_free w -> ledger_ok (db w) ->
  fault_free (happen tza w e) /\ ledger_ok (db (happen tza w e)).
Proof.
  intros Hf Hok. destruct e as [q|now]; simpl.
  - split; [by apply handle_fault_free|by apply handle_ledger_ok].
  - pose proof (run_fault_free (R := Empty_set) tza now w Hf) as H.
    unfold wp in H. destruct H as (_ & Hfa & Hdb).
    split; [intros n; by rewrite Hfa|].
    rewrite Hdb. by apply bill_all_ledger_ok.
Qed.

(** X12.  With a store that answers, the ledger invariants hold after any
    sequence of requests and billing runs: every transaction has its
    account, and every account's balance is the sum of the signed amounts
    of its INCOME and EXPENSE rows, those emitted by the processor
    included. *)
Theorem ledger_invariant_with_billing (LocalTZA : Z) (es : list Event)
    (w : World) :
  fault_free w ->
  referential (db w) ->
  balanced (db w) ->
  referential (db (history LocalTZA es w)) /\
  balanced (db (history LocalTZA es w)).
Proof.
  intros Hf Hr Hb.
  assert (ledger_ok (db w)) as Hok by (by split).
  clear Hr Hb. unfold history. revert w Hf Hok.
  induction es as [|e es IH]; intros w Hf Hok; simpl; [done|].
  destruct (happen_ledger_ok LocalTZA w e Hf Hok). by apply IH.
Qed.

(** * Subscriptions that are not due *)

Lemma billing_other_subscription {R} tza row w id :
  row.1 <> id ->
  wp (@processSubscription R tza row) w (fun _ w' =>
    subscriptions (db w') !! id = subscriptions (db w) !! id).
Proof.
  intros Hne. wp_go; try done.
  all: by rewrite lookup_alter_ne.
Qed.

Lemma billing_rows {R} tza row w :
  wp (@processSubscription R tza row) w (fun _ w' =>
    forall i t, transactions (db w') !! i = Some t ->
      transactions (db w) !! i = Some t \/ emitted_for t = Some row.1).
Proof.
  wp_go; try (intros; by left).
  all: intros i_ t_ Hi; apply lookup_insert_Some in Hi as [[_ <-]|[_ Hi]];
    [by right|by left].
Qed.

Lemma run_nothing_due tza now w :
  Prisma.due now (db w) = [] ->
  db (@processSubscriptions Empty_set tza now w).2 = db w.
Proof.
  intros Hdue.
  assert (wp (@processSubscriptions Empty_set tza now) w
            (fun _ w' => db w' = db w)) as H; [|exact H].
  wp_go; try done. rewrite Hdue. simpl. by wp_go.
Qed.

(** X13.  A run bills only what is due, whatever fails: a subscription
    that is inactive or whose next billing date is after [now] is left as
    it is and no row is emitted for it; and when no subscription is due the
    run leaves the whole store as it is. *)
Theorem run_bills_only_due (LocalTZA now : Z) (w : World) :
  let w' := (@processSubscriptions Empty_set LocalTZA now w).2 in
  let idle := fun s =>
    Subscription.isActive s = false \/ now < Subscription.nextBillingDate s in
  (forall id,
     (forall s, subscriptions (db w) !! id = Some s -> idle s) ->
     subscriptions (db w') !! id = subscriptions (db w) !! id /\
     forall i t, transactions (db w') !! i = Some t ->
                 emitted_for t = Some id ->
                 transactions (db w) !! i = Some t) /\
  ((forall id s, subscriptions (db w) !! id = Some s -> idle s) ->
   db w' = db w).
Proof.
  intros w' idle. subst w' idle. split.
  - intros id Hidle.
    assert (forall row, row ∈ Prisma.due now (db w) -> row.1 <> id) as Hne.
    { intros [id' s] Hin <-. apply due_elem in Hin as (Hs & Hact & Hdue).
      simpl in *. destruct (Hidle s Hs); [congruence|lia]. }
    split.
    + apply (run_invariant LocalTZA now
               (fun d => subscriptions d !! id = subscriptions (db w) !! id));
        [|done].
      intros row w0 Hin H0. rewrite <- H0.
      by apply billing_other_subscription, Hne.
    + apply (run_invariant LocalTZA now
               (fun d => forall i t, transactions d !! i = Some t ->
                           emitted_for t = Some id ->
                           transactions (db w) !! i = Some t)); [|done].
      intros row w0 Hin H0.
      eapply wp_mono; [|apply billing_rows].
      intros c w1 H1 i t Hi Hfor. simpl in H1.
      destruct (H1 i t Hi) as [Hold|Hnew]; [by apply H0|].
      exfalso. apply (Hne row Hin). congruence.
  - intros Hidle. apply run_nothing_due.
    destruct (Prisma.due now (db w)) as [|[id s] rows] eqn:Hdue; [done|].
    assert ((id, s) ∈ Prisma.due now (db w)) as Hin
      by (rewrite Hdue; apply elem_of_cons; by left).
    apply due_elem in Hin as (Hs & Hact & Hd).
    destruct (Hidle id s Hs); [congruence|lia].
Qed.

(** * A billed expense is an ordinary row of its user *)

(** X14.  The expense the processor emits is an ordinary row of the
    subscription's user: that user can DELETE it, which answers 200, removes
    the row and gives the amount back to the account, while the
    subscription keeps its advanced billing date. *)
Theorem billed_expense_can_be_deleted (LocalTZA now : Z) (w : World)
    (id : string) (s : Subscription.t) (a : Account.t) :
  fault_free w ->
  subscriptions (db w) !! id = Some s ->
  Subscription.isActive s = true ->
  Subscription.nextBillingDate s <= now ->
  accounts (db w) !! Subscription.accountId s = Some a ->
  Prisma.references_opt (categories (db w)) (Subscription.categoryId s) = true ->
  let w1 := (@processSubscriptions Empty_set LocalTZA now w).2 in
  exists txid a1 w2,
    transactions (db w) !! txid = None /\
    transactions (db w1) !! txid = Some (expense_of id s (Account.currency a)) /\
    accounts (db w1) !! Subscription.accountId s = Some a1 /\
    handle (DELETE (Subscription.userId s) txid) w1 =
      (Normal (json SuccessBody 200), w2) /\
    transactions (db w2) !! txid = None /\
    accounts (db w2) !! Subscription.accountId s =
      Some (Account.add_balance (Subscription.amount s) a1) /\
    subscriptions (db w2) = subscriptions (db w1).
Proof.
  intros Hf Hs Hact Hdue Ha Hc w1.
  pose proof (run_fault_free (R := Empty_set) LocalTZA now w Hf) as Hrun.
  unfold wp in Hrun. destruct Hrun as (_ & Hfa & Hdb). fold w1 in Hfa, Hdb.
  assert (fault_free w1) as Hf1 by (intros n; by rewrite Hfa).
  destruct (run_transaction LocalTZA now (db w) id s a Hs Hact Hdue Ha Hc)
    as (txid & Hfree & Hnew & _).
  rewrite <- Hdb in Hnew.
  assert (exists a1, accounts (db w1) !! Subscription.accountId s = Some a1)
    as (a1 & Ha1) by (rewrite Hdb, bill_all_account, Ha; by eexists).
  pose proof (delete_ok (R := Empty_set) (Subscription.userId s) txid w1 _
                Hf1 Hnew eq_refl) as Hdel.
  simpl in Hdel. specialize (Hdel ltac:(by rewrite Ha1)).
  apply wp_result in Hdel.
  destruct Hdel as (c & w2 & Hrun2 & -> & Htx2 & Hacc2 & _).
  pose proof (handle_standing (DELETE (Subscription.userId s) txid) w1)
    as (_ & Hsub).
  simpl in Hsub. rewrite Hrun2 in Hsub.
  exists txid, a1, w2. split; [done|]. split; [done|]. split; [done|].
  split; [exact Hrun2|]. split; [by rewrite Htx2, lookup_delete_eq|].
  split; [|done].
  rewrite Hacc2. unfold contribution. simpl.
  rewrite Z.opp_involutive. by apply adjust_lookup.
Qed.

(** * More of the calendar *)

Module Calendar.
Import JSDate JSDateFacts.

Lemma leap_next y : leap y = true -> leap (y + 1) = false.
Proof.
  unfold leap. intros H. apply andb_true_iff in H as [H4 _].
  apply Z.eqb_eq in H4. apply andb_false_iff. left. apply Z.eqb_neq.
  revert H4. Z.div_mod_to_equations. lia.
Qed.

Lemma month_carry a n :
  a / 12 + (a mod 12 + n) / 12 = (a + n) / 12 /\
  (a mod 12 + n) mod 12 = (a + n) mod 12.
Proof. Z.div_mod_to_equations. lia. Qed.

Lemma month_in_year m : 0 <= m <= 11 -> m / 12 = 0 /\ m mod 12 = m.
Proof. intros. Z.div_mod_to_equations. lia. Qed.

Lemma TimeClip_again v t : TimeClip v = Some t -> TimeClip t = Some t.
Proof.
  intros H. pose proof (TimeClip_Some _ _ H). by subst.
Qed.

Section zone.
Variable LocalTZA : Z.
Local Abbreviation local := (LocalTime LocalTZA).

Lemma UTC_local t : UTC LocalTZA (local t) = t.
Proof. unfold UTC, LocalTime. lia. Qed.

(** The local time value is made of its fields. *)
Lemma local_of_fields t :
  local t =
  MakeDate (MakeDay (YearFromTime (local t)) (MonthFromTime (local t))
                    (DateFromTime (local t)))
           (TimeWithinDay (local t)).
Proof.
  destruct (fields_valid (local t)) as [_ ->]. symmetry. apply MakeDate_Day.
Qed.

Lemma setFullYear_overflow t t' :
  let y := YearFromTime (local t) in
  let m := MonthFromTime (local t) in
  let d := DateFromTime (local t) in
  setFullYear LocalTZA t (getFullYear LocalTZA t + 1) = Some t' ->
  DaysInMonth (y + 1) m < d ->
  m = 1 /\ d = 29 /\
  YearFromTime (local t') = y + 1 /\
  MonthFromTime (local t') = 2 /\
  DateFromTime (local t') = 1 /\
  TimeWithinDay (local t') = TimeWithinDay (local t).
Proof.
  intros y m d Hset Hover. rewrite (setFullYear_local LocalTZA _ _ Hset). fold y m d.
  destruct (fields_valid (local t)) as [[Hm Hdv] _]. fold y m d in Hm, Hdv.
  assert (m = 1 /\ d = 29 /\ leap (y + 1) = false) as (Em & Ed & Hl).
  { unfold DaysInMonth in *. month_cases m; try lia.
    destruct (leap y) eqn:Hy; [|destruct (leap (y + 1)); lia].
    rewrite (leap_next y Hy) in *. lia. }
  split; [done|]. split; [done|]. rewrite Em, Ed.
  rewrite (MakeDay_carry_date (y + 1) 1) by lia.
  replace (29 - DaysInMonth (y + 1) 1) with 1
    by (unfold DaysInMonth; rewrite Hl; lia).
  change (1 + 1) with 2.
  apply fields_of_made; [|apply TimeWithinDay_range].
  split; [lia|]. unfold DaysInMonth. lia.
Qed.

Lemma monthly_fields t t' :
  let y := YearFromTime (local t) in
  let m := MonthFromTime (local t) in
  let d := DateFromTime (local t) in
  nextBillingDate_after LocalTZA MONTHLY t = Some t' ->
  d <= 28 ->
  YearFromTime (local t') = y + (m + 1) / 12 /\
  MonthFromTime (local t') = (m + 1) mod 12 /\
  DateFromTime (local t') = d /\
  TimeWithinDay (local t') = TimeWithinDay (local t).
Proof.
  intros y m d Hnext Hd.
  apply (setMonth_same_day LocalTZA t t').
  - unfold nextBillingDate_after, new_Date in Hnext.
    destruct (TimeClip t) as [t0|] eqn:Ht; [|done].
    apply TimeClip_Some in Ht. by subst t0.
  - pose proof (DaysInMonth_range
                  (YearFromTime (local t) + (MonthFromTime (local t) + 1) / 12)
                  ((MonthFromTime (local t) + 1) mod 12)).
    fold d. lia.
Qed.

Lemma advanced_fields n t nd :
  let y := YearFromTime (local t) in
  let m := MonthFromTime (local t) in
  let d := DateFromTime (local t) in
  advanced LocalTZA MONTHLY n t = Some nd ->
  d <= 28 ->
  YearFromTime (local nd) = y + (m + Z.of_nat n) / 12 /\
  MonthFromTime (local nd) = (m + Z.of_nat n) mod 12 /\
  DateFromTime (local nd) = d /\
  TimeWithinDay (local nd) = TimeWithinDay (local t).
Proof.
  revert t. induction n as [|n IH]; intros t y m d Hadv Hd.
  - simpl in Hadv. injection Hadv as <-. subst y m d.
    destruct (fields_valid (local t)) as [[Hm _] _].
    destruct (month_in_year _ Hm) as [Hq Hr].
    rewrite Z.add_0_r, Hq, Hr, Z.add_0_r. done.
  - cbn [advanced] in Hadv.
    destruct (nextBillingDate_after LocalTZA MONTHLY t) as [t1|] eqn:Hstep;
      [|done].
    destruct (monthly_fields t t1 Hstep Hd) as (HY & HM & HD & HT).
    fold y m d in HY, HM, HD.
    destruct (IH t1 Hadv) as (HY' & HM' & HD' & HT'); [by rewrite HD|].
    rewrite HY, HM in HY'. rewrite HM in HM'. rewrite HD in HD'.
    rewrite HT in HT'. rewrite HY', HM', HD', HT'.
    destruct (month_carry (m + 1) (Z.of_nat n)) as [Hq Hr].
    rewrite Nat2Z.inj_succ.
    replace (m + Z.succ (Z.of_nat n)) with (m + 1 + Z.of_nat n) by lia.
    rewrite <- Hq, <- Hr. repeat split; try done. lia.
Qed.

Lemma setMonth_clipped t m t' :
  setMonth LocalTZA t m = Some t' -> TimeClip t' = Some t'.
Proof. unfold setMonth. apply TimeClip_again. Qed.

Lemma setFullYear_clipped t y t' :
  setFullYear LocalTZA t y = Some t' -> TimeClip t' = Some t'.
Proof. unfold setFullYear. apply TimeClip_again. Qed.

Lemma step_clipped cycle t t' :
  nextBillingDate_after LocalTZA cycle t = Some t' ->
  TimeClip t = Some t /\ TimeClip t' = Some t'.
Proof.
  unfold nextBillingDate_after, new_Date.
  destruct (TimeClip t) as [t0|] eqn:Ht; [|done].
  pose proof (TimeClip_Some _ _ Ht). subst t0. intros Hstep.
  split; [done|].
  destruct cycle.
  - exact (setMonth_clipped _ _ _ Hstep).
  - exact (setFullYear_clipped _ _ _ Hstep).
Qed.

Lemma advanced_clipped cycle n t nd :
  advanced LocalTZA cycle n t = Some nd ->
  n <> O -> TimeClip t = Some t /\ TimeClip nd = Some nd.
Proof.
  revert t. induction n as [|n IH]; intros t Hadv Hn; [done|].
  cbn [advanced] in Hadv.
  destruct (nextBillingDate_after LocalTZA cycle t) as [t1|] eqn:Hstep;
    [|done].
  destruct (step_clipped _ _ _ Hstep) as [Ht Ht1]. split; [done|].
  destruct n as [|n].
  - cbn [advanced] in Hadv. by injection Hadv as <-.
  - by apply (IH t1).
Qed.

End zone.
End Calendar.



(** * Catching up *)

Lemma set_nextBillingDate_same s :
  Subscription.set_nextBillingDate (Subscription.nextBillingDate s) s = s.
Proof. by destruct s. Qed.

Lemma set_nextBillingDate_twice t t' s :
  Subscription.set_nextBillingDate t' (Subscription.set_nextBillingDate t s) =
  Subscription.set_nextBillingDate t' s.
Proof. by destruct s. Qed.


(** * The further theorems at work *)

Import Scenario Cases.

Lemma world1_ledger_ok : ledger_ok (db world1).
Proof.
  apply (handle_ledger_ok (POST user expense50) world0 world0_fault_free).
  split; [exact world0_referential|exact world0_balanced].
Defined.

Lemma world_two_fault_free : fault_free world_two.
Proof. intros n. reflexivity. Defined.

Lemma world_spent_row : transactions (db world_spent) !! "0" = Some row50.
Proof. vm_compute. reflexivity. Defined.

Lemma ledger_world_fault_free : fault_free ledger_world.
Proof. intros n. reflexivity. Defined.

Lemma ledger_world_referential : referential (db ledger_world).
Proof. intros id t H. simpl in H. by rewrite lookup_empty in H. Defined.

Lemma ledger_world_balanced : balanced (db ledger_world).
Proof.
  intros A a H. simpl. rewrite ledger_sum_empty. simpl in H.
  by apply lookup_singleton_Some in H as [_ <-].
Defined.

Lemma yearly_world_fault_free : fault_free yearly_world.
Proof. intros n. reflexivity. Defined.

(** A DELETE of a row that is not there. *)
Lemma not_found_writes_nothing_witness :
  exists w',
    handle (DELETE user "nope") world1 =
      (Normal (json (ErrorBody "Transacción no encontrada") 404), w') /\
    db w' = db world1.
Proof.
  eexists. split; [vm_compute; reflexivity|].
  eapply (not_found_writes_nothing (DELETE user "nope") world1);
    [vm_compute; reflexivity|reflexivity].
Defined.

(** Another user tries to delete and to change the user's row, and the
    timer fires: the row stays. *)
Lemma rows_survive_others_witness :
  let es := [Incoming (DELETE other "0"); Incoming (PUT other "0" amount30);
             Midnight jan01] in
  transactions (db world1) !! "0" = Some row50 /\
  transactions (db (history 0 es world1)) !! "0" = Some row50.
Proof.
  intros es. split; [exact world1_row|].
  apply (rows_survive_others 0 es world1 "0" row50 world1_row).
  repeat constructor; discriminate.
Defined.

(** The EXPENSE made on the USD account is moved to the ARS account: the
    row is on account P and still in USD. *)
Lemma update_keeps_owner_and_currency_witness :
  transactions (db world_spent) !! "0" = Some row50 /\
  Account.currency <$> accounts (db world_spent) !! "acc_P" = Some ARS /\
  exists t',
    transactions (db (handle (PUT user "0" move_to_P) world_spent).2) !! "0"
      = Some t' /\
    Transaction.accountId t' = "acc_P" /\
    Transaction.currency t' = USD.
Proof.
  split; [exact world_spent_row|]. split; [vm_compute; reflexivity|].
  destruct (update_keeps_owner_and_currency user "0" move_to_P world_spent
              row50 world_spent_row) as (t' & Ht' & _ & Hcur & _).
  exists t'. split; [exact Ht'|]. split; [|exact Hcur].
  assert (transactions (db (handle (PUT user "0" move_to_P) world_spent).2)
            !! "0" = Some (Prisma.patched move_to_P row50)) as E
    by (vm_compute; reflexivity).
  rewrite E in Ht'. by injection Ht' as <-.
Defined.


Lemma delete_answer_table_witness :
  (fault_free world1 /\ referential (db world1)) /\
  exists r w',
    handle (DELETE user "0") world1 = (Normal r, w') /\ status r = 200.
Proof.
  split; [split; [exact world1_fault_free|exact (proj1 world1_ledger_ok)]|].
  destruct (delete_answer_table user "0" world1 world1_fault_free
              (proj1 world1_ledger_ok)) as (r & w' & Hrun & H200 & _).
  exists r, w'. split; [exact Hrun|]. apply H200.
  exists row50. split; [exact world1_row|reflexivity].
Defined.


Lemma get_after_write_witness :
  exists w',
    handle (POST user expense50) world0 =
      (Normal (json (TransactionBody "0" row50) 201), w') /\
    (@get Empty_set user "0" w').1 = Normal (json (TransactionBody "0" row50) 200) /\
    (@get Empty_set other "0" w').1 =
      Normal (json (ErrorBody "Transacción no encontrada") 404).
Proof.
  exists world1. split; [exact world1_created|].
  destruct (proj1 get_after_write user expense50 world0 "0" row50 world1
              world1_created eq_refl) as [Hown Hother].
  split; [exact Hown|]. apply Hother. discriminate.
Defined.

(** The amount of the EXPENSE is set to 30 twice. *)
Lemma update_is_idempotent_witness :
  (fault_free world1 /\
   transactions (db world1) !! "0" = Some row50 /\
   Transaction.userId row50 = user /\
   patch_valid amount30 /\
   account_movable user (db world1) row50 (p_accountId amount30) /\
   category_visible user (db world1) (p_categoryId amount30) /\
   is_Some (accounts (db world1) !! Transaction.accountId row50)) /\
  exists w1 w2,
    handle (PUT user "0" amount30) world1 =
      (Normal (json (TransactionBody "0" (Prisma.patched amount30 row50)) 200), w1) /\
    handle (PUT user "0" amount30) w1 =
      (Normal (json (TransactionBody "0" (Prisma.patched amount30 row50)) 200), w2) /\
    db w2 = db w1 /\
    Account.balance <$> accounts (db w2) !! "acc_A" = Some (-30).
Proof.
  assert (patch_valid amount30) as Hvalid by reflexivity.
  assert (is_Some (accounts (db world1) !! Transaction.accountId row50))
    as Hacc by (eexists; exact world1_acc_A).
  split; [by repeat split; try exact world1_fault_free|].
  destruct (update_is_idempotent user "0" amount30 world1 row50
              world1_fault_free world1_row eq_refl Hvalid I I Hacc)
    as (w1 & w2 & Hrun1 & Hrun2 & Hdb).
  exists w1, w2. split; [exact Hrun1|]. split; [exact Hrun2|].
  split; [exact Hdb|]. rewrite Hdb.
  assert (w1 = (handle (PUT user "0" amount30) world1).2) as ->
    by (by rewrite Hrun1).
  vm_compute. reflexivity.
Defined.

Lemma delete_is_final_witness :
  exists w',
    handle (DELETE user "0") world1 = (Normal (json SuccessBody 200), w') /\
    (@get Empty_set user "0" w').1 =
      Normal (json (ErrorBody "Transacción no encontrada") 404) /\
    (handle (DELETE user "0") w').1 =
      Normal (json (ErrorBody "Transacción no encontrada") 404) /\
    db (handle (PUT user "0" amount30) w').2 = db w'.
Proof.
  assert (handle (DELETE user "0") world1 =
          (Normal (json SuccessBody 200), (handle (DELETE user "0") world1).2))
    as Hrun by (vm_compute; reflexivity).
  eexists. split; [exact Hrun|].
  destruct (delete_is_final user "0" world1 _ Hrun eq_refl)
    as (Hget & Hdel & Hput).
  split; [exact (Hget user)|]. split; [exact (proj1 (Hdel user))|].
  assert (patch_valid amount30) as Hvalid by reflexivity.
  exact (proj2 (Hput user amount30 Hvalid)).
Defined.

(** An INCOME of 70 is created, the timer fires and bills the subscription
    of 20, and the INCOME is deleted: the account holds -20, the sum of its
    one row. *)
Lemma ledger_invariant_with_billing_witness :
  let es := [Incoming (POST user income70); Midnight jan01;
             Incoming (DELETE user "0")] in
  (fault_free ledger_world /\ referential (db ledger_world) /\
   balanced (db ledger_world)) /\
  balanced (db (history 0 es ledger_world)) /\
  Account.balance <$> accounts (db (history 0 es ledger_world)) !! "acc_S"
    = Some (-20).
Proof.
  intros es.
  split; [by repeat split; try exact ledger_world_fault_free;
          try exact ledger_world_referential;
          try exact ledger_world_balanced|].
  split; [|vm_compute; reflexivity].
  exact (proj2 (ledger_invariant_with_billing 0 es ledger_world
                  ledger_world_fault_free ledger_world_referential
                  ledger_world_balanced)).
Defined.

(** The run of 2023-12-31 finds nothing due and changes nothing. *)
Lemma run_bills_only_due_witness :
  db (@processSubscriptions Empty_set 0 1703980800000 (billing_world jan01)).2 =
  db (billing_world jan01).
Proof.
  apply (proj2 (run_bills_only_due 0 1703980800000 (billing_world jan01))).
  intros id s Hs. right. simpl in Hs.
  apply lookup_insert_Some in Hs as [[_ <-]|[_ Hs]]; [by vm_compute|].
  apply lookup_singleton_Some in Hs as [_ <-]. by vm_compute.
Defined.

Lemma billed_expense_can_be_deleted_witness :
  let w := billing_world jan01 in
  let s := monthly20 jan01 "acc_S" in
  (fault_free w /\
   subscriptions (db w) !! "sub_1" = Some s /\
   Subscription.isActive s = true /\
   Subscription.nextBillingDate s <= jan01 /\
   accounts (db w) !! Subscription.accountId s = Some account_S /\
   Prisma.references_opt (categories (db w)) (Subscription.categoryId s) = true) /\
  exists txid a1 w2,
    accounts (db (@processSubscriptions Empty_set 0 jan01 w).2) !! "acc_S"
      = Some a1 /\
    handle (DELETE user txid) (@processSubscriptions Empty_set 0 jan01 w).2 =
      (Normal (json SuccessBody 200), w2) /\
    accounts (db w2) !! "acc_S" = Some (Account.add_balance 20 a1).
Proof.
  intros w s.
  assert (Subscription.nextBillingDate s <= jan01) as Hdue by (by vm_compute).
  split; [by repeat split; try exact (billing_world_fault_free jan01)|].
  destruct (billed_expense_can_be_deleted 0 jan01 w "sub_1" s account_S
              (billing_world_fault_free jan01) eq_refl eq_refl Hdue
              eq_refl eq_refl)
    as (txid & a1 & w2 & _ & _ & Ha1 & Hrun & _ & Ha2 & _).
  exists txid, a1, w2. split; [exact Ha1|]. split; [exact Hrun|exact Ha2].
Defined.




(** * Reasoning about the wider server *)

Section wide_rules.
Context {R A : Type}.
Implicit Types (s : Wide.Server) (Q : Completion R A -> Wide.Server -> Prop).

Lemma wide_pure (a : A) s Q : Q (Normal a) s -> Wide.wp (Wide.pure a) s Q.
Proof. done. Qed.

Lemma wide_return (r : R) s Q : Q (Return r) s -> Wide.wp (Wide.return_ r) s Q.
Proof. done. Qed.

Lemma wide_throw (e : Error) s Q : Q (Throw e) s -> Wide.wp (Wide.throw e) s Q.
Proof. done. Qed.

Lemma wide_bind {B} (m : Wide.N R B) (k : B -> Wide.N R A) s Q :
  Wide.wp m s (fun c s1 =>
    match c with
    | Normal b => Wide.wp (k b) s1 Q
    | Return r => Q (Return r) s1
    | Throw e => Q (Throw e) s1
    end) ->
  Wide.wp (Wide.bind m k) s Q.
Proof.
  unfold Wide.wp, Wide.bind. destruct (m s) as [[b|r|e] s1]; simpl; auto.
Qed.

Lemma wide_try_catch (body : Wide.N R A) (handler : Error -> Wide.N R A) s Q :
  Wide.wp body s (fun c s1 =>
    match c with
    | Throw e => Wide.wp (handler e) s1 Q
    | _ => Q c s1
    end) ->
  Wide.wp (Wide.try_catch body handler) s Q.
Proof.
  unfold Wide.wp, Wide.try_catch.
  destruct (body s) as [[b|r|e] s1]; simpl; auto.
Qed.

Lemma wide_storage (c : Wide.StoreCall) (op : Db -> Error + A * Db) s Q :
  (let after d :=
     {| Wide.store := d; Wide.calls := Wide.calls s ++ [c];
        Wide.output := Wide.output s; Wide.down := Wide.down s |} in
   if Wide.down s (length (Wide.calls s))
   then Q (Throw StorageFailure) (after (Wide.store s))
   else match op (Wide.store s) with
        | inl e => Q (Throw e) (after (Wide.store s))
        | inr (a, d) => Q (Normal a) (after d)
        end) ->
  Wide.wp (Wide.storage c op) s Q.
Proof.
  unfold Wide.wp, Wide.storage. cbv zeta.
  destruct (Wide.down s _); [done|].
  by destruct (op (Wide.store s)) as [e|[a d]].
Qed.

Lemma wide_embed (m : M R A) s Q :
  wp m (Wide.world_of s) (fun c w => Q c (Wide.server_after s w)) ->
  Wide.wp (Wide.embed m) s Q.
Proof. done. Qed.

Lemma wide_mono (m : Wide.N R A) s Q Q' :
  (forall c s', Q c s' -> Q' c s') -> Wide.wp m s Q -> Wide.wp m s Q'.
Proof. unfold Wide.wp. auto. Qed.

End wide_rules.

Lemma wide_call {R R'} (body : Wide.N R R) s (Q : Completion R' R -> Wide.Server -> Prop) :
  Wide.wp body s (fun c s1 =>
    match c with
    | Normal r => Q (Normal r) s1
    | Return r => Q (Normal r) s1
    | Throw e => Q (Throw e) s1
    end) ->
  Wide.wp (Wide.call body) s Q.
Proof.
  unfold Wide.wp, Wide.call. destruct (body s) as [[b|r|e] s1]; simpl; auto.
Qed.

Lemma wide_console_error {R} (l : ConsoleLine) s
    (Q : Completion R unit -> Wide.Server -> Prop) :
  Q (Normal tt)
    {| Wide.store := Wide.store s; Wide.calls := Wide.calls s;
       Wide.output := Wide.output s ++ [l]; Wide.down := Wide.down s |} ->
  Wide.wp (Wide.console_error l) s Q.
Proof. done. Qed.

Lemma wide_result {R A} (m : Wide.N R A) s Q :
  Wide.wp m s Q -> exists c s', m s = (c, s') /\ Q c s'.
Proof.
  unfold Wide.wp. intros H. exists (m s).1, (m s).2. by destruct (m s).
Qed.

Lemma world_of_fault_free s : Wide.up s -> fault_free (Wide.world_of s).
Proof. intros Hup n. apply Hup. Qed.

Ltac wide_simpl :=
  cbn [Wide.store Wide.calls Wide.output Wide.down Wide.world_of
       Wide.server_after Wide.reply Wide.code
       db trace console faulty after_call after_log
       accounts transactions subscriptions categories
       set_accounts set_transactions set_subscriptions fst snd
       Subscription.name Subscription.description Subscription.amount
       Subscription.billingCycle Subscription.nextBillingDate
       Subscription.userId Subscription.accountId Subscription.categoryId
       Subscription.isActive Wide.subscription_row
       Prisma.references_opt negb andb orb nullish length app Nat.add] in *.

Ltac wide_step :=
  lazymatch goal with
  | |- Wide.wp (Wide.bind _ _) _ _ => apply wide_bind
  | |- Wide.wp (Wide.try_catch _ _) _ _ => apply wide_try_catch
  | |- Wide.wp (Wide.call _) _ _ => apply wide_call
  | |- Wide.wp (Wide.pure _) _ _ => apply wide_pure
  | |- Wide.wp (Wide.return_ _) _ _ => apply wide_return
  | |- Wide.wp (Wide.throw _) _ _ => apply wide_throw
  | |- Wide.wp (Wide.console_error _) _ _ => apply wide_console_error
  | |- Wide.wp (Wide.storage _ _) _ _ => apply wide_storage; cbv zeta
  | |- Wide.wp (Wide.embed _) _ _ => apply wide_embed
  | |- Wide.wp (Wide.CreateSubscriptionSchema_parse _) _ _ =>
      unfold Wide.CreateSubscriptionSchema_parse
  | |- Wide.wp (Wide.UpdateSubscriptionSchema_parse _) _ _ =>
      unfold Wide.UpdateSubscriptionSchema_parse
  | |- Wide.wp (Wide.subscription_create _ _ _) _ _ =>
      unfold Wide.subscription_create
  | |- Wide.wp (Wide.subscription_findFirst _ _) _ _ =>
      unfold Wide.subscription_findFirst
  | |- Wide.wp (Wide.subscription_update _ _) _ _ =>
      unfold Wide.subscription_update
  | |- Wide.wp (Wide.subscription_delete _) _ _ =>
      unfold Wide.subscription_delete
  | |- Wide.wp (Wide.account_aggregate _ _) _ _ =>
      unfold Wide.account_aggregate
  | |- Wide.wp (match ?x with _ => _ end) _ _ =>
      let y := innermost x in
      first [ match goal with H : y = _ |- _ => rewrite H end
            | match goal with
              | H : Wide.up _ |- _ =>
                  match y with Wide.down _ ?n => rewrite (H n) end
              end
            | destruct y eqn:? ]
  | |- Wide.wp (let _ := _ in _) _ _ => cbv zeta
  | |- match ?x with _ => _ end =>
      let y := innermost x in
      first [ match goal with H : y = _ |- _ => rewrite H end
            | match goal with
              | H : Wide.up _ |- _ =>
                  match y with Wide.down _ ?n => rewrite (H n) end
              end
            | destruct y eqn:? ]
  | |- wp _ _ _ => wp_step
  end; cbv beta iota; wide_simpl; cbv beta iota.

Ltac wide_go := repeat wide_step; wide_simpl.

(** * What the subscriptions router leaves alone *)

Lemma subscriptions_post_frame {R} dflt u b s :
  Wide.wp (@Wide.subscriptions_post dflt R u b) s (fun _ s' =>
    accounts (Wide.store s') = accounts (Wide.store s) /\
    transactions (Wide.store s') = transactions (Wide.store s) /\
    categories (Wide.store s') = categories (Wide.store s) /\
    forall i x, subscriptions (Wide.store s) !! i = Some x ->
                subscriptions (Wide.store s') !! i = Some x).
Proof.
  unfold Wide.subscriptions_post. wide_go.
  all: repeat split; try done.
  all: intros i x Hi; rewrite lookup_insert_ne; [done|].
  all: intros E; subst i; by rewrite fresh_lookup in Hi.
Qed.

Lemma subscriptions_put_frame {R} u id p s :
  Wide.wp (@Wide.subscriptions_put R u id p) s (fun _ s' =>
    accounts (Wide.store s') = accounts (Wide.store s) /\
    transactions (Wide.store s') = transactions (Wide.store s) /\
    categories (Wide.store s') = categories (Wide.store s) /\
    (forall i, i <> id ->
       subscriptions (Wide.store s') !! i = subscriptions (Wide.store s) !! i) /\
    (forall x, subscriptions (Wide.store s) !! id = Some x ->
       Subscription.userId x <> u ->
       subscriptions (Wide.store s') !! id = Some x)).
Proof.
  unfold Wide.subscriptions_put. wide_go.
  all: repeat split; try done.
  all: try (intros i Hi; by rewrite ?lookup_insert_ne by done).
  all: intros x Hx Hu; simplify_eq; try done.
  all: exfalso;
    match goal with
    | H : bool_decide _ = true |- _ => apply bool_decide_eq_true in H; done
    end.
Qed.

Lemma subscriptions_delete_frame {R} u id s :
  Wide.wp (@Wide.subscriptions_delete R u id) s (fun _ s' =>
    accounts (Wide.store s') = accounts (Wide.store s) /\
    transactions (Wide.store s') = transactions (Wide.store s) /\
    categories (Wide.store s') = categories (Wide.store s) /\
    (forall i, i <> id ->
       subscriptions (Wide.store s') !! i = subscriptions (Wide.store s) !! i) /\
    (forall x, subscriptions (Wide.store s) !! id = Some x ->
       Subscription.userId x <> u ->
       subscriptions (Wide.store s') !! id = Some x)).
Proof.
  unfold Wide.subscriptions_delete. wide_go.
  all: repeat split; try done.
  all: try (intros i Hi; by rewrite ?lookup_delete_ne by done).
  all: intros x Hx Hu; simplify_eq; try done.
  all: exfalso;
    match goal with
    | H : bool_decide _ = true |- _ => apply bool_decide_eq_true in H; done
    end.
Qed.

Lemma subscriptions_post_others {R} dflt u b s :
  Wide.wp (@Wide.subscriptions_post dflt R u b) s (fun _ s' =>
    forall i x, Subscription.userId x <> u ->
      subscriptions (Wide.store s') !! i = Some x ->
      subscriptions (Wide.store s) !! i = Some x).
Proof.
  unfold Wide.subscriptions_post. wide_go.
  all: try done.
  all: intros i x Hu Hi; apply lookup_insert_Some in Hi as [[_ <-]|[_ Hi]];
    done.
Qed.

Lemma subscriptions_put_others {R} u id p s :
  Wide.wp (@Wide.subscriptions_put R u id p) s (fun _ s' =>
    forall i x, Subscription.userId x <> u ->
      subscriptions (Wide.store s') !! i = Some x ->
      subscriptions (Wide.store s) !! i = Some x).
Proof.
  unfold Wide.subscriptions_put. wide_go.
  all: try done.
  all: intros i x Hu Hi; apply lookup_insert_Some in Hi as [[_ <-]|[_ Hi]];
    [|done].
  all: exfalso; apply Hu.
  all: repeat match goal with
       | H : bool_decide _ = true |- _ => apply bool_decide_eq_true_1 in H
       | H : Wide.revised _ _ = Some _ |- _ =>
           unfold Wide.revised in H; destruct (s_nextBillingDate _) as [[?|]|];
           simplify_eq
       end.
  all: done.
Qed.

Lemma subscriptions_delete_others {R} u id s :
  Wide.wp (@Wide.subscriptions_delete R u id) s (fun _ s' =>
    forall i x, Subscription.userId x <> u ->
      subscriptions (Wide.store s') !! i = Some x ->
      subscriptions (Wide.store s) !! i = Some x).
Proof.
  unfold Wide.subscriptions_delete. wide_go.
  all: try done.
  all: intros i x Hu Hi; by apply lookup_delete_Some in Hi as [_ Hi].
Qed.

(** X18.  A request to the subscriptions router, whatever it is, whatever
    it answers and whatever fails, changes no account, no transaction and
    no category, and the subscriptions of the other users are the same
    before and after it. *)
Theorem subscription_request_frame (isActive_default : bool)
    (q : Wide.Request) (s : Wide.Server) :
  accounts (Wide.store (Wide.handle isActive_default q s).2)
  = accounts (Wide.store s) /\
  transactions (Wide.store (Wide.handle isActive_default q s).2)
  = transactions (Wide.store s) /\
  categories (Wide.store (Wide.handle isActive_default q s).2)
  = categories (Wide.store s) /\
  forall i x, Subscription.userId x <> Wide.requester q ->
    (subscriptions (Wide.store (Wide.handle isActive_default q s).2) !! i
     = Some x <->
     subscriptions (Wide.store s) !! i = Some x).
Proof.
  destruct q as [u b|u id p|u id]; simpl.
  - pose proof (subscriptions_post_frame (R := Empty_set)
                  isActive_default u b s) as (Ha & Ht & Hc & Hs).
    pose proof (subscriptions_post_others (R := Empty_set)
                  isActive_default u b s) as Ho.
    repeat split; try done; [by apply Ho|by apply Hs].
  - pose proof (subscriptions_put_frame (R := Empty_set) u id p s)
      as (Ha & Ht & Hc & Hne & Hs).
    pose proof (subscriptions_put_others (R := Empty_set) u id p s) as Ho.
    repeat split; try done; [by apply Ho|].
    intros Hx. destruct (decide (i = id)) as [->|Hi]; [by apply Hs|].
    by rewrite Hne.
  - pose proof (subscriptions_delete_frame (R := Empty_set) u id s)
      as (Ha & Ht & Hc & Hne & Hs).
    pose proof (subscriptions_delete_others (R := Empty_set) u id s) as Ho.
    repeat split; try done; [by apply Ho|].
    intros Hx. destruct (decide (i = id)) as [->|Hi]; [by apply Hs|].
    by rewrite Hne.
Qed.

(** * What the subscriptions router answers *)

Lemma named_and_positive (name : string) (amount : Z) :
  negb (String.eqb name EmptyString) && (0 <? amount) = true <->
  name <> EmptyString /\ 0 < amount.
Proof.
  rewrite andb_true_iff, negb_true_iff, Z.ltb_lt.
  split; intros [H1 H2]; (split; [|done]).
  - by apply String.eqb_neq.
  - by apply String.eqb_neq.
Qed.

Lemma category_visible_found u d id c :
  truthy (Some id) = true ->
  categories d !! id = Some c ->
  bool_decide (Category.userId c = Some u) || Category.isDefault c = true ->
  category_visible u d (Some id).
Proof.
  intros Ht Hc H. split; [done|]. exists c. split; [done|].
  apply orb_true_iff in H as [H|H];
    [apply bool_decide_eq_true_1 in H; by left|by right].
Qed.

Lemma category_visible_hidden u d id c :
  categories d !! id = Some c ->
  bool_decide (Category.userId c = Some u) || Category.isDefault c = false ->
  ~ category_visible u d (Some id).
Proof.
  intros Hc H (_ & c' & Hc' & Hvis). simplify_eq.
  apply orb_false_iff in H as [H1 H2].
  apply bool_decide_eq_false_1 in H1. destruct Hvis; congruence.
Qed.

Lemma category_visible_missing u d id :
  categories d !! id = None -> ~ category_visible u d (Some id).
Proof. intros Hc (_ & c' & Hc' & _). congruence. Qed.

(** What the lookups of a handler found, as facts about the store. *)
Ltac lookups u :=
  repeat match goal with
  | H : negb (String.eqb _ EmptyString) && (0 <? _) = true |- _ =>
      apply named_and_positive in H
  | H : negb (String.eqb ?n EmptyString) && (0 <? ?a) = false |- _ =>
      assert (~ (n <> EmptyString /\ 0 < a))
        by (rewrite <- named_and_positive; congruence);
      clear H
  | Ha : accounts _ !! _ = Some _,
    H : bool_decide (Account.userId _ = u) && Account.isActive _ = true |- _ =>
      pose proof (references_Some _ _ _ Ha);
      apply (account_visible_found u _ _ _ Ha) in H
  | Ha : accounts _ !! _ = Some _,
    H : bool_decide (Account.userId _ = u) && Account.isActive _ = false |- _ =>
      apply (account_visible_hidden u _ _ _ Ha) in H
  | Ha : accounts _ !! _ = None |- _ =>
      apply (account_visible_missing u) in Ha
  | Ht : truthy (Some _) = true, Hc : categories _ !! _ = Some _,
    H : bool_decide (Category.userId _ = Some u) || Category.isDefault _ = true
    |- _ =>
      pose proof (references_Some _ _ _ Hc);
      apply (category_visible_found u _ _ _ Ht Hc) in H
  | Hc : categories _ !! _ = Some _,
    H : bool_decide (Category.userId _ = Some u) || Category.isDefault _ = false
    |- _ =>
      apply (category_visible_hidden u _ _ _ Hc) in H
  | Hc : categories _ !! _ = None |- _ =>
      apply (category_visible_missing u) in Hc
  end.

Lemma subscriptions_post_status {R} dflt u b s :
  Wide.up s ->
  n_categoryId b <> Some EmptyString ->
  let valid := n_name b <> EmptyString /\ 0 < n_amount b in
  let found :=
    account_visible u (Wide.store s) (n_accountId b) /\
    category_visible u (Wide.store s) (n_categoryId b) in
  let id := fresh (dom (subscriptions (Wide.store s))) in
  Wide.wp (@Wide.subscriptions_post dflt R u b) s (fun c s' =>
    exists r, c = Normal r /\
      (Wide.code r = 201 /\ valid /\ found /\
       (exists t, n_nextBillingDate b = Some t /\
          Wide.reply r = Wide.SubscriptionReply id
                           (Wide.subscription_row dflt b u t) /\
          Wide.store s' =
          set_subscriptions
            (<[id := Wide.subscription_row dflt b u t]>
               (subscriptions (Wide.store s))) (Wide.store s))
       \/ Wide.code r = 404 /\ valid /\ ~ found /\ Wide.store s' = Wide.store s
       \/ Wide.code r = 500 /\
          (~ valid \/ found /\ n_nextBillingDate b = None) /\
          Wide.store s' = Wide.store s)).
Proof.
  intros Hup Hcat valid found id. subst valid found id.
  unfold Wide.subscriptions_post. wide_go.
  all: eexists; (split; [reflexivity|]); wide_simpl.
  all: lookups u.
  all: try match goal with
       | Ht : truthy (Some ?x) = false |- _ =>
           exfalso; destruct x; [by apply Hcat|discriminate Ht]
       end.
  all: try match goal with
       | H : Prisma.references _ _ && Prisma.references_opt _ _ = false |- _ =>
           exfalso; revert H;
           repeat match goal with
                  | E : n_categoryId _ = _ |- _ => rewrite E
                  | E : Prisma.references _ _ = true |- _ => rewrite E
                  end; simpl;
           repeat match goal with
                  | E : Prisma.references _ _ = true |- _ => rewrite E
                  end; done
       end.
  all: first
    [ left; split; [reflexivity|]; split; [done|]; split; [by split|];
      eexists; by repeat split
    | right; left; split; [reflexivity|]; split; [done|]; split; [tauto|done]
    | right; right; split; [reflexivity|]; split;
      [first [left; assumption
             |right; split; [split; first [assumption|exact I]|done]]|done] ].
Qed.

(** X19.  With a store that answers, and a category id that is not the
    empty string, POST of a subscription answers 201 exactly when the name
    is not empty, the amount is positive, the account exists, is active and
    is the caller's, the category, if one is named, is the caller's or a
    default one, and the date given is a date; it answers 404 exactly when
    name and amount are valid and the account or the category is not found
    so, whatever the date; and it answers 500 in the other cases: an empty
    name, an amount that is not positive, or a date that is none for a body
    that is otherwise accepted.  On 201 the row answered carries the fields
    of the body and the caller as its user, and is stored under a new id;
    otherwise the store is as before. *)
Theorem subscription_create_answer_table (isActive_default : bool)
    (u : string) (b : CreateSubscription) (s : Wide.Server) :
  Wide.up s ->
  n_categoryId b <> Some EmptyString ->
  let valid := n_name b <> EmptyString /\ 0 < n_amount b in
  let found :=
    account_visible u (Wide.store s) (n_accountId b) /\
    category_visible u (Wide.store s) (n_categoryId b) in
  let id := fresh (dom (subscriptions (Wide.store s))) in
  exists r s',
    Wide.handle isActive_default (Wide.POST u b) s = (Normal r, s') /\
    (Wide.code r = 201 <->
     valid /\ found /\ is_Some (n_nextBillingDate b)) /\
    (Wide.code r = 404 <-> valid /\ ~ found) /\
    (Wide.code r = 500 <->
     ~ valid \/ found /\ n_nextBillingDate b = None) /\
    (Wide.code r = 201 ->
     subscriptions (Wide.store s) !! id = None /\
     exists t, n_nextBillingDate b = Some t /\
       Wide.reply r =
       Wide.SubscriptionReply id
         (Wide.subscription_row isActive_default b u t) /\
       Wide.store s' =
       set_subscriptions
         (<[id := Wide.subscription_row isActive_default b u t]>
            (subscriptions (Wide.store s))) (Wide.store s)) /\
    (Wide.code r <> 201 -> Wide.store s' = Wide.store s).
Proof.
  intros Hup Hcat valid found id.
  pose proof (subscriptions_post_status (R := Empty_set)
                isActive_default u b s Hup Hcat) as H.
  cbv zeta in H. apply wide_result in H.
  destruct H as (c & s' & Hrun & r & -> & H).
  exists r, s'. split; [exact Hrun|]. fold valid found id in H.
  clearbody valid found.
  destruct H as [(Hs & Hv & Hf & t & Ht & Hr & Hst)
                |[(Hs & Hv & Hf & Hst)|(Hs & Hv & Hst)]]; rewrite Hs.
  all: repeat split; try done; try tauto.
  - intros [?|[_ E]]; [tauto|congruence].
  - apply fresh_lookup.
  - by exists t.
  - intros (? & ? & [t Ht]). destruct Hv as [?|[_ E]]; [tauto|congruence].
Qed.

(** * Subscriptions made through the router, and the processor *)

Lemma handle_down dflt q s :
  Wide.down (Wide.handle dflt q s).2 = Wide.down s.
Proof.
  assert (Wide.wp (Wide.handle dflt q) s
            (fun _ s' => Wide.down s' = Wide.down s)) as H; [|exact H].
  destruct q as [u b|u id p|u id]; simpl.
  - unfold Wide.subscriptions_post. by wide_go.
  - unfold Wide.subscriptions_put. by wide_go.
  - unfold Wide.subscriptions_delete. by wide_go.
Qed.

Lemma handle_up dflt q s : Wide.up s -> Wide.up (Wide.handle dflt q s).2.
Proof. intros Hup n. by rewrite handle_down. Qed.

(** A billing run of a server whose store answers ends normally, on the
    store [bill_all] describes. *)
Lemma billing_result tza now s :
  Wide.up s ->
  exists s',
    Wide.billing tza now s = (Normal tt, s') /\
    Wide.store s' = bill_all tza (Prisma.due now (Wide.store s)) (Wide.store s).
Proof.
  intros Hup.
  destruct (run_result tza now (Wide.world_of s) (world_of_fault_free s Hup))
    as (w' & Hrun & Hdb).
  exists (Wide.server_after s w'). unfold Wide.billing, Wide.embed.
  by rewrite Hrun.
Qed.

(** What a POST that answered 201 found and wrote. *)
Lemma subscriptions_post_created dflt u b s id row s1 :
  Wide.up s ->
  n_categoryId b <> Some EmptyString ->
  @Wide.subscriptions_post dflt Empty_set u b s
  = (Normal (Wide.json (Wide.SubscriptionReply id row) 201), s1) ->
  exists a t,
    accounts (Wide.store s) !! n_accountId b = Some a /\
    Account.userId a = u /\ Account.isActive a = true /\
    category_visible u (Wide.store s) (n_categoryId b) /\
    n_nextBillingDate b = Some t /\
    id = fresh (dom (subscriptions (Wide.store s))) /\
    row = Wide.subscription_row dflt b u t /\
    Wide.store s1 =
    set_subscriptions (<[id := row]> (subscriptions (Wide.store s)))
      (Wide.store s).
Proof.
  intros Hup Hcat Hrun.
  pose proof (subscriptions_post_status (R := Empty_set) dflt u b s Hup Hcat)
    as H.
  cbv zeta in H. apply wide_result in H.
  destruct H as (c & s' & Hrun' & r & -> & H).
  rewrite Hrun in Hrun'. injection Hrun' as <- <-.
  destruct H as [(_ & _ & [(a & Ha & Hu & Hact) Hc] & t & Ht & Hr & Hst)
                |[(Hs & _)|(Hs & _)]]; [|discriminate Hs..].
  simpl in Hr. injection Hr as -> ->.
  exists a, t. by repeat split.
Qed.


(** What a PUT that answered 200 found and wrote. *)
Lemma subscriptions_put_written {R} u id p s :
  Wide.wp (@Wide.subscriptions_put R u id p) s (fun c s' =>
    forall r, c = Normal r -> Wide.code r = 200 ->
      exists x x',
        subscriptions (Wide.store s) !! id = Some x /\
        Subscription.userId x = u /\
        Wide.revised p x = Some x' /\
        Wide.reply r = Wide.SubscriptionReply id x' /\
        Wide.store s' =
        set_subscriptions (<[id := x']> (subscriptions (Wide.store s)))
          (Wide.store s)).
Proof.
  unfold Wide.subscriptions_put. wide_go.
  all: intros r E Hcode; simplify_eq; try discriminate Hcode.
  all: repeat match goal with
       | H : bool_decide _ = true |- _ => apply bool_decide_eq_true_1 in H
       end.
  all: by eexists _, _.
Qed.

(** What a DELETE that answered 200 found and removed. *)
Lemma subscriptions_delete_removed {R} u id s :
  Wide.wp (@Wide.subscriptions_delete R u id) s (fun c s' =>
    forall r, c = Normal r -> Wide.code r = 200 ->
      exists x,
        subscriptions (Wide.store s) !! id = Some x /\
        Subscription.userId x = u /\
        Wide.store s' =
        set_subscriptions (delete id (subscriptions (Wide.store s)))
          (Wide.store s)).
Proof.
  unfold Wide.subscriptions_delete. wide_go.
  all: intros r E Hcode; simplify_eq; try discriminate Hcode.
  all: repeat match goal with
       | H : bool_decide _ = true |- _ => apply bool_decide_eq_true_1 in H
       end.
  all: by eexists.
Qed.

(** A run leaves a subscription that is not due as it is and emits no row
    for it, whatever fails. *)
Lemma run_idle tza now w id :
  (forall x, subscriptions (db w) !! id = Some x ->
     Subscription.isActive x = false \/ now < Subscription.nextBillingDate x) ->
  subscriptions (db (@processSubscriptions Empty_set tza now w).2) !! id
  = subscriptions (db w) !! id /\
  forall i t,
    transactions (db (@processSubscriptions Empty_set tza now w).2) !! i
    = Some t ->
    emitted_for t = Some id ->
    transactions (db w) !! i = Some t.
Proof.
  intros Hidle.
  assert (forall row, row ∈ Prisma.due now (db w) -> row.1 <> id) as Hne.
  { intros [id' x] Hin <-. apply due_elem in Hin as (Hs & Hact & Hdue).
    simpl in *. destruct (Hidle x Hs); [congruence|lia]. }
  split.
  - apply (run_invariant tza now
             (fun d => subscriptions d !! id = subscriptions (db w) !! id));
      [|done].
    intros row w0 Hin H0. rewrite <- H0.
    by apply billing_other_subscription, Hne.
  - apply (run_invariant tza now
             (fun d => forall i t, transactions d !! i = Some t ->
                         emitted_for t = Some id ->
                         transactions (db w) !! i = Some t)); [|done].
    intros row w0 Hin H0.
    eapply wp_mono; [|apply billing_rows].
    intros c w1 H1 i t Hi Hfor. simpl in H1.
    destruct (H1 i t Hi) as [Hold|Hnew]; [by apply H0|].
    exfalso. apply (Hne row Hin). congruence.
Qed.

Lemma runs_idle tza nows s id :
  (forall x, subscriptions (Wide.store s) !! id = Some x ->
     Subscription.isActive x = false) ->
  subscriptions
    (Wide.store (foldl (fun s now => (Wide.billing tza now s).2) s nows)) !! id
  = subscriptions (Wide.store s) !! id /\
  forall i t,
    transactions
      (Wide.store (foldl (fun s now => (Wide.billing tza now s).2) s nows)) !! i
    = Some t ->
    emitted_for t = Some id ->
    transactions (Wide.store s) !! i = Some t.
Proof.
  revert s. induction nows as [|now nows IH]; intros s Hidle; simpl; [done|].
  destruct (run_idle tza now (Wide.world_of s) id) as [Hsub Htx].
  { intros x Hx. left. by apply Hidle. }
  destruct (IH (Wide.billing tza now s).2) as [Hsub' Htx'].
  { intros x Hx. apply Hidle.
    change (subscriptions (db (Wide.world_of s)) !! id = Some x).
    rewrite <- Hsub. exact Hx. }
  split.
  - etrans; [exact Hsub'|exact Hsub].
  - intros i t Hi Hfor. exact (Htx i t (Htx' i t Hi Hfor) Hfor).
Qed.

(** X21.  A subscription that was stopped through the router is billed no
    more, whatever fails later.  After DELETE answered 200, or after a PUT
    that sets [isActive] to false answered 200, any number of billing runs,
    at whatever times, leave that subscription as the request left it, and
    every row that names it as its source was there before the request. *)
Theorem stopped_subscription_is_not_billed (LocalTZA : Z)
    (isActive_default : bool) (u id : string) (q : Wide.Request)
    (nows : list Z) (s s1 : Wide.Server) (r : Wide.Answer) :
  q = Wide.DELETE u id \/
    (exists p, q = Wide.PUT u id p /\ s_isActive p = Some false) ->
  Wide.handle isActive_default q s = (Normal r, s1) ->
  Wide.code r = 200 ->
  subscriptions
    (Wide.store
       (foldl (fun s now => (Wide.billing LocalTZA now s).2) s1 nows)) !! id
  = subscriptions (Wide.store s1) !! id /\
  forall i t,
    transactions
      (Wide.store
         (foldl (fun s now => (Wide.billing LocalTZA now s).2) s1 nows)) !! i
    = Some t ->
    emitted_for t = Some id ->
    transactions (Wide.store s) !! i = Some t.
Proof.
  intros Hq Hrun Hcode.
  assert (transactions (Wide.store s1) = transactions (Wide.store s) /\
          forall x, subscriptions (Wide.store s1) !! id = Some x ->
                    Subscription.isActive x = false) as [Htx Hidle].
  { destruct Hq as [->|(p & -> & Hp)]; simpl in Hrun.
    - pose proof (subscriptions_delete_removed (R := Empty_set) u id s) as H.
      unfold Wide.wp in H. rewrite Hrun in H. simpl in H.
      destruct (H r eq_refl Hcode) as (x & _ & _ & ->). simpl.
      split; [done|]. intros x' Hx'. by rewrite lookup_delete_eq in Hx'.
    - pose proof (subscriptions_put_written (R := Empty_set) u id p s) as H.
      unfold Wide.wp in H. rewrite Hrun in H. simpl in H.
      destruct (H r eq_refl Hcode) as (x & x' & _ & _ & Hrev & _ & ->). simpl.
      split; [done|]. intros x0 Hx0. rewrite lookup_insert_eq in Hx0.
      simplify_eq. unfold Wide.revised in Hrev.
      destruct (s_nextBillingDate p) as [[?|]|]; simplify_eq; simpl;
        by rewrite Hp. }
  destruct (runs_idle LocalTZA nows s1 id Hidle) as [Hsub Hrows].
  split; [done|]. intros i t Hi Hfor. rewrite <- Htx. by apply Hrows.
Qed.

(** * Reading a subscription back *)

(** What a POST that answered 201 wrote, whatever the store did before. *)
Lemma subscriptions_post_written {R} dflt u b s :
  Wide.wp (@Wide.subscriptions_post dflt R u b) s (fun c s' =>
    forall r, c = Normal r -> Wide.code r = 201 ->
      exists t,
        n_nextBillingDate b = Some t /\
        Wide.reply r =
        Wide.SubscriptionReply (fresh (dom (subscriptions (Wide.store s))))
          (Wide.subscription_row dflt b u t) /\
        Wide.store s' =
        set_subscriptions
          (<[fresh (dom (subscriptions (Wide.store s))) :=
               Wide.subscription_row dflt b u t]>
             (subscriptions (Wide.store s))) (Wide.store s)).
Proof.
  unfold Wide.subscriptions_post. wide_go.
  all: intros r E Hcode; simplify_eq; try discriminate Hcode.
  all: by eexists.
Qed.

Lemma subscriptions_get_answer u id s :
  Wide.down s (length (Wide.calls s)) = false ->
  (@Wide.subscriptions_get Empty_set u id s).1 =
  Normal
    (match subscriptions (Wide.store s) !! id with
     | Some x =>
         if bool_decide (Subscription.userId x = u)
         then Wide.json (Wide.SubscriptionReply id x) 200
         else Wide.json (Wide.ErrorReply "Subscription not found") 404
     | None => Wide.json (Wide.ErrorReply "Subscription not found") 404
     end).
Proof.
  intros Hdown.
  assert (Wide.wp (@Wide.subscriptions_get Empty_set u id) s (fun c _ =>
            c = Normal
                  (match subscriptions (Wide.store s) !! id with
                   | Some x =>
                       if bool_decide (Subscription.userId x = u)
                       then Wide.json (Wide.SubscriptionReply id x) 200
                       else Wide.json
                              (Wide.ErrorReply "Subscription not found") 404
                   | None =>
                       Wide.json (Wide.ErrorReply "Subscription not found") 404
                   end))) as H; [|exact H].
  unfold Wide.subscriptions_get. wide_go; done.
Qed.

(** X22.  A subscription written through the router can be read back
    through it, by its owner alone.  When the store answers the read: after
    POST answered 201 with a row, GET of its id by the same user answers
    200 with that row and GET by any other user answers 404; after PUT
    answered 200 with a row, GET by the same user answers 200 with that
    row; and after DELETE answered 200, GET answers 404 to every user. *)
Theorem subscription_get_after_write (isActive_default : bool) :
  (forall u b s id row s1,
     Wide.handle isActive_default (Wide.POST u b) s
     = (Normal (Wide.json (Wide.SubscriptionReply id row) 201), s1) ->
     Wide.down s1 (length (Wide.calls s1)) = false ->
     (@Wide.subscriptions_get Empty_set u id s1).1
     = Normal (Wide.json (Wide.SubscriptionReply id row) 200) /\
     forall v, v <> u ->
       (@Wide.subscriptions_get Empty_set v id s1).1
       = Normal (Wide.json (Wide.ErrorReply "Subscription not found") 404)) /\
  (forall u id p s id' row s1,
     Wide.handle isActive_default (Wide.PUT u id p) s
     = (Normal (Wide.json (Wide.SubscriptionReply id' row) 200), s1) ->
     Wide.down s1 (length (Wide.calls s1)) = false ->
     id' = id /\
     (@Wide.subscriptions_get Empty_set u id s1).1
     = Normal (Wide.json (Wide.SubscriptionReply id row) 200)) /\
  (forall u id s s1,
     Wide.handle isActive_default (Wide.DELETE u id) s
     = (Normal (Wide.json Wide.SuccessReply 200), s1) ->
     Wide.down s1 (length (Wide.calls s1)) = false ->
     forall v,
       (@Wide.subscriptions_get Empty_set v id s1).1
       = Normal (Wide.json (Wide.ErrorReply "Subscription not found") 404)).
Proof.
  split; [|split].
  - intros u b s id row s1 Hrun Hdown. simpl in Hrun.
    pose proof (subscriptions_post_written (R := Empty_set)
                  isActive_default u b s) as H.
    unfold Wide.wp in H. rewrite Hrun in H. simpl in H.
    destruct (H _ eq_refl eq_refl) as (t & Ht & Hr & Hst).
    injection Hr as -> ->.
    split.
    + rewrite (subscriptions_get_answer u _ s1 Hdown), Hst. simpl.
      rewrite lookup_insert_eq. simpl. by rewrite bool_decide_eq_true_2.
    + intros v Hv. rewrite (subscriptions_get_answer v _ s1 Hdown), Hst.
      simpl. rewrite lookup_insert_eq. simpl.
      by rewrite bool_decide_eq_false_2.
  - intros u id p s id' row s1 Hrun Hdown. simpl in Hrun.
    pose proof (subscriptions_put_written (R := Empty_set) u id p s) as H.
    unfold Wide.wp in H. rewrite Hrun in H. simpl in H.
    destruct (H _ eq_refl eq_refl) as (x & x' & Hx & Hu & Hrev & Hr & Hst).
    injection Hr as -> ->. split; [done|].
    rewrite (subscriptions_get_answer u id s1 Hdown), Hst. simpl.
    rewrite lookup_insert_eq.
    unfold Wide.revised in Hrev.
    destruct (s_nextBillingDate p) as [[?|]|]; simplify_eq; simpl;
      by rewrite bool_decide_eq_true_2.
  - intros u id s s1 Hrun Hdown v. simpl in Hrun.
    pose proof (subscriptions_delete_removed (R := Empty_set) u id s) as H.
    unfold Wide.wp in H. rewrite Hrun in H. simpl in H.
    destruct (H _ eq_refl eq_refl) as (x & Hx & Hu & Hst).
    rewrite (subscriptions_get_answer v id s1 Hdown), Hst. simpl.
    by rewrite lookup_delete_eq.
Qed.

(** * What PUT of a subscription answers *)

Lemma patch_accepted (p : SubscriptionPatch) :
  match s_name p with
  | Some name => negb (String.eqb name EmptyString)
  | None => true
  end
  && match s_amount p with Some a => 0 <? a | None => true end = true <->
  s_name p <> Some EmptyString /\ (forall a, s_amount p = Some a -> 0 < a).
Proof.
  rewrite andb_true_iff.
  destruct (s_name p) as [n|], (s_amount p) as [a|]; simpl;
    rewrite ?negb_true_iff, ?Z.ltb_lt, ?String.eqb_neq.
  all: split; [intros [H1 H2]|intros [H1 H2]]; split; try done.
  all: try (intros ? [= <-]; done).
  all: try (intros [= ->]; done).
  all: try (intros E; apply H1; by rewrite E).
  all: by apply H2.
Qed.

Lemma changed_true (a b : string) :
  truthy (Some a) && negb (String.eqb a b) = true -> a <> b.
Proof.
  intros H. apply andb_true_iff in H as [_ H].
  by apply negb_true_iff, String.eqb_neq in H.
Qed.

Lemma changed_false (a b : string) :
  Some a <> Some EmptyString ->
  truthy (Some a) && negb (String.eqb a b) = false -> a = b.
Proof.
  intros Ha H. rewrite truthy_named in H; [|done..]. simpl in H.
  by apply negb_false_iff, String.eqb_eq in H.
Qed.

Lemma revised_None p x :
  Wide.revised p x = None -> s_nextBillingDate p = Some None.
Proof. unfold Wide.revised. by destruct (s_nextBillingDate p) as [[?|]|]. Qed.

Lemma subscriptions_put_status {R} u id p s :
  Wide.up s ->
  s_accountId p <> Some EmptyString ->
  s_categoryId p <> Some EmptyString ->
  (forall x, subscriptions (Wide.store s) !! id = Some x ->
     is_Some (accounts (Wide.store s) !! Subscription.accountId x)) ->
  let valid :=
    s_name p <> Some EmptyString /\ (forall a, s_amount p = Some a -> 0 < a) in
  let found := fun x =>
    subscriptions (Wide.store s) !! id = Some x /\
    Subscription.userId x = u /\
    (forall a, s_accountId p = Some a ->
       a = Subscription.accountId x \/ account_visible u (Wide.store s) a) /\
    category_visible u (Wide.store s) (s_categoryId p) in
  Wide.wp (@Wide.subscriptions_put R u id p) s (fun c s' =>
    exists r, c = Normal r /\
      (Wide.code r = 200 /\ valid /\
       (exists x x', found x /\ Wide.revised p x = Some x' /\
          Wide.reply r = Wide.SubscriptionReply id x' /\
          Wide.store s' =
          set_subscriptions (<[id := x']> (subscriptions (Wide.store s)))
            (Wide.store s))
       \/ Wide.code r = 404 /\ valid /\ (forall x, ~ found x) /\
          Wide.store s' = Wide.store s
       \/ Wide.code r = 500 /\
          (~ valid \/ (exists x, found x) /\ s_nextBillingDate p = Some None) /\
          Wide.store s' = Wide.store s)).
Proof.
  intros Hup Hacc Hcat Href valid found. subst valid found.
  unfold Wide.subscriptions_put. wide_go.
  all: eexists; (split; [reflexivity|]); wide_simpl.
  all: repeat match goal with
       | H : _ && _ = true |- _ => apply patch_accepted in H
       | H : match s_name _ with _ => _ end && _ = false |- _ =>
           apply not_true_iff_false in H; rewrite patch_accepted in H
       | H : bool_decide _ = true |- _ => apply bool_decide_eq_true_1 in H
       | H : bool_decide _ = false |- _ => apply bool_decide_eq_false_1 in H
       | H : truthy (Some _) && negb (String.eqb _ _) = true |- _ =>
           apply changed_true in H
       | H : truthy (Some _) && negb (String.eqb _ _) = false |- _ =>
           apply changed_false in H; [|assumption]
       | H : Wide.revised _ _ = None |- _ => apply revised_None in H
       end.
  all: lookups u.
  all: try match goal with
       | Ht : truthy (Some ?x) = false |- _ =>
           exfalso; destruct x; [by apply Hcat|discriminate Ht]
       end.
  all: try match goal with
       | H : Prisma.references_opt _ _ && Prisma.references_opt _ _ = false
         |- _ =>
           exfalso; revert H;
           repeat match goal with
                  | E : s_accountId _ = _ |- _ => rewrite E
                  | E : s_categoryId _ = _ |- _ => rewrite E
                  end; simpl;
           try match goal with
               | E : ?a = Subscription.accountId ?t |- _ =>
                   let Hx := fresh in
                   destruct (Href t eq_refl) as [? Hx];
                   rewrite E, (references_Some _ _ _ Hx)
               end;
           repeat match goal with
                  | E : Prisma.references _ _ = true |- _ => rewrite E
                  end; done
       end.
  all: first
    [ left; split; [reflexivity|]; split; [assumption|];
      eexists _, _; split; [|split; [eassumption|split; reflexivity]];
      split; [reflexivity|]; split; [assumption|];
      split; [intros ? ?; simplify_eq; first [by left|by right]
             |first [assumption|exact I]]
    | right; left; split; [reflexivity|]; split; [assumption|];
      split; [|reflexivity];
      let Ha := fresh in
      intros ? (? & ? & Ha & ?); simplify_eq;
      first [done|destruct (Ha _ eq_refl); done]
    | right; right; split; [reflexivity|]; split; [|reflexivity];
      first
        [ left; assumption
        | right; split; [|assumption];
          eexists; split; [reflexivity|]; split; [assumption|];
          split; [intros ? ?; simplify_eq; first [by left|by right]
                 |first [assumption|exact I]] ] ].
Qed.

Lemma revised_Some p x x' :
  Wide.revised p x = Some x' ->
  s_nextBillingDate p <> Some None /\
  Subscription.userId x' = Subscription.userId x.
Proof.
  unfold Wide.revised.
  destruct (s_nextBillingDate p) as [[?|]|]; intros; by simplify_eq.
Qed.

(** X23.  With a store that answers and whose subscriptions name accounts
    that exist, and a body whose account and category ids are not the empty
    string, PUT of a subscription answers 200 exactly when the name given
    is not empty, the amount given is positive, the subscription is the
    caller's, the account given is the one it has or one of the caller's
    active accounts, the category given is the caller's or a default one,
    and the date given is a date; 404 exactly when name and amount are
    valid and the subscription, the account or the category is not found
    so; and 500 in the other cases.  On 200 the row answered is the old row
    with the fields of the body written over it, still the caller's;
    otherwise the store is as before. *)
Theorem subscription_update_answer_table (isActive_default : bool)
    (u id : string) (p : SubscriptionPatch) (s : Wide.Server) :
  Wide.up s ->
  s_accountId p <> Some EmptyString ->
  s_categoryId p <> Some EmptyString ->
  (forall x, subscriptions (Wide.store s) !! id = Some x ->
     is_Some (accounts (Wide.store s) !! Subscription.accountId x)) ->
  let valid :=
    s_name p <> Some EmptyString /\ (forall a, s_amount p = Some a -> 0 < a) in
  let found :=
    exists x,
      subscriptions (Wide.store s) !! id = Some x /\
      Subscription.userId x = u /\
      (forall a, s_accountId p = Some a ->
         a = Subscription.accountId x \/ account_visible u (Wide.store s) a) /\
      category_visible u (Wide.store s) (s_categoryId p) in
  exists r s',
    Wide.handle isActive_default (Wide.PUT u id p) s = (Normal r, s') /\
    (Wide.code r = 200 <->
     valid /\ found /\ s_nextBillingDate p <> Some None) /\
    (Wide.code r = 404 <-> valid /\ ~ found) /\
    (Wide.code r = 500 <->
     ~ valid \/ found /\ s_nextBillingDate p = Some None) /\
    (Wide.code r = 200 ->
     exists x x',
       subscriptions (Wide.store s) !! id = Some x /\
       Wide.revised p x = Some x' /\
       Subscription.userId x' = u /\
       Wide.reply r = Wide.SubscriptionReply id x' /\
       Wide.store s' =
       set_subscriptions (<[id := x']> (subscriptions (Wide.store s)))
         (Wide.store s)) /\
    (Wide.code r <> 200 -> Wide.store s' = Wide.store s).
Proof.
  intros Hup Hacc Hcat Href valid found.
  pose proof (subscriptions_put_status (R := Empty_set) u id p s
                Hup Hacc Hcat Href) as H.
  cbv zeta in H. apply wide_result in H.
  destruct H as (c & s' & Hrun & r & -> & H).
  exists r, s'. split; [exact Hrun|]. fold valid in H.
  assert (forall x, subscriptions (Wide.store s) !! id = Some x /\
            Subscription.userId x = u /\
            (forall a, s_accountId p = Some a ->
               a = Subscription.accountId x \/
               account_visible u (Wide.store s) a) /\
            category_visible u (Wide.store s) (s_categoryId p) -> found)
    as Hfound by (intros x Hx; by exists x).
  assert ((forall x, ~ (subscriptions (Wide.store s) !! id = Some x /\
            Subscription.userId x = u /\
            (forall a, s_accountId p = Some a ->
               a = Subscription.accountId x \/
               account_visible u (Wide.store s) a) /\
            category_visible u (Wide.store s) (s_categoryId p))) -> ~ found)
    as Hnone by (intros Hno [x Hx]; by apply (Hno x)).
  clearbody valid found.
  destruct H as [(Hs & Hv & x & x' & Hf & Hrev & Hr & Hst)
                |[(Hs & Hv & Hf & Hst)|(Hs & Hv & Hst)]]; rewrite Hs.
  - apply Hfound in Hf as Hf'.
    destruct (revised_Some p x x' Hrev) as [Hdate Hu].
    repeat split; try done; try tauto.
    intros _. exists x, x'. destruct Hf as (Hx & Hux & _).
    repeat split; try done. congruence.
  - apply Hnone in Hf.
    repeat split; try done; try tauto.
  - assert (~ valid \/ found /\ s_nextBillingDate p = Some None) as Hv'.
    { destruct Hv as [?|[[x Hx] E]]; [by left|].
      right. split; [by apply (Hfound x)|done]. }
    repeat split; try done; tauto.
Qed.

(** * The balance of the accounts *)

Lemma total_Permutation rows rows' :
  rows ≡ₚ rows' -> Wide.total rows = Wide.total rows'.
Proof.
  unfold Wide.total. induction 1; simpl; lia.
Qed.

Lemma counted_add_balance v cur z a :
  Wide.counted v cur (Account.add_balance z a) = Wide.counted v cur a.
Proof. by destruct a. Qed.

Lemma selected_insert v cur (m : gmap string Account.t) d A a :
  m !! A = None ->
  accounts d = <[A := a]> m ->
  Wide.total (Wide.selected v cur d) =
  (if Wide.counted v cur a then Account.balance a else 0)
  + Wide.total (filter (fun r => Wide.counted v cur r.2 = true)
                  (map_to_list m)).
Proof.
  intros Hm Hd. unfold Wide.selected. rewrite Hd.
  rewrite (total_Permutation _
             (filter (fun r => Wide.counted v cur r.2 = true)
                ((A, a) :: map_to_list m))).
  - rewrite filter_cons. simpl.
    destruct (Wide.counted v cur a) eqn:Hc.
    + by rewrite decide_True.
    + rewrite decide_False; [lia|]. by intros ?.
  - apply filter_Permutation. by apply map_to_list_insert.
Qed.

(** The sum of the selected balances moves with the balance of a selected
    account, and with no other. *)
Lemma selected_adjust v cur d d' A z a :
  accounts d !! A = Some a ->
  accounts d' = adjust A z (accounts d) ->
  Wide.total (Wide.selected v cur d') =
  Wide.total (Wide.selected v cur d)
  + (if Wide.counted v cur a then z else 0).
Proof.
  intros Ha Hd'.
  rewrite (selected_insert v cur (delete A (accounts d)) d A a);
    [|apply lookup_delete_eq|by rewrite insert_delete_id].
  rewrite (selected_insert v cur (delete A (accounts d)) d' A
             (Account.add_balance z a));
    [|apply lookup_delete_eq
     |by rewrite Hd', insert_delete_eq, (adjust_insert _ _ _ a)].
  rewrite counted_add_balance.
  destruct (Wide.counted v cur a); [|lia].
  destruct a; simpl; lia.
Qed.

(** The account a POST that answered 201 was made on. *)
Lemma post_account {R} u b w :
  wp (@post R u b) w (fun c w' =>
    forall id t, c = Normal (json (TransactionBody id t) 201) ->
      exists a,
        accounts (db w) !! Transaction.accountId t = Some a /\
        Account.userId a = u /\ Account.isActive a = true /\
        Transaction.currency t = Account.currency a /\
        accounts (db w') =
          adjust (Transaction.accountId t) (contribution t) (accounts (db w))).
Proof.
  unfold post. wp_go.
  all: intros id' t' Heq; unfold json in Heq; simplify_eq; unfold contribution;
    wsimpl.
  all: match goal with
       | H : bool_decide _ && _ = true |- _ =>
           apply andb_true_iff in H as [Hu Hact];
           apply bool_decide_eq_true_1 in Hu
       end.
  all: eexists; repeat split; try done.
  all: case_types; rewrite ?adjust_0; done.
Qed.

Lemma accounts_balance_known u name cur s :
  name = "USD"%string /\ cur = USD \/ name = "ARS"%string /\ cur = ARS ->
  Wide.wp (@Wide.accounts_balance Empty_set u (Some name)) s (fun c s' =>
    Wide.store s' = Wide.store s /\
    c = Normal
          (if Wide.down s (length (Wide.calls s))
           then Wide.json (Wide.ErrorReply "Error interno del servidor") 500
           else Wide.json
                  (Wide.BalanceReply name
                     (Wide.total (Wide.selected u cur (Wide.store s)))) 200)).
Proof.
  intros [[-> ->]|[-> ->]]; unfold Wide.accounts_balance; simpl.
  all: wide_go; try done.
  all: split; [done|]; by destruct (Wide.selected _ _ _).
Qed.

Lemma balanced_total u cur d :
  balanced d ->
  Wide.total (Wide.selected u cur d) =
  foldr (fun r sum => ledger_sum (transactions d) r.1 + sum) 0
    (Wide.selected u cur d).
Proof.
  intros Hb.
  assert (forall r, r ∈ Wide.selected u cur d ->
            accounts d !! r.1 = Some r.2) as Hin.
  { intros [A a] H. unfold Wide.selected in H.
    apply list_elem_of_filter in H as [_ H].
    by apply elem_of_map_to_list in H. }
  induction (Wide.selected u cur d) as [|r rows IH]; simpl; [done|].
  rewrite IH.
  - rewrite (Hb r.1 r.2); [done|]. apply Hin, elem_of_cons. by left.
  - intros r' Hr'. apply Hin, elem_of_cons. by right.
Qed.



(** * The subscriptions router and the balance at work *)

Import Scenario Cases Served.

Lemma server_two_up : Wide.up server_two.
Proof. intros n. reflexivity. Qed.

Lemma server_music_up : Wide.up server_music.
Proof. intros n. reflexivity. Qed.

Lemma server_music_created :
  Wide.handle true (Wide.POST user music) server_two
  = (Normal (Wide.json
               (Wide.SubscriptionReply "0"
                  (Wide.subscription_row true music user jan01)) 201),
     server_music).
Proof. vm_compute. reflexivity. Qed.

Lemma server_paused_written :
  Wide.handle true (Wide.PUT user "0" pause) server_music
  = (Normal (Wide.json
               (Wide.SubscriptionReply "0"
                  (Wide.subscription_row false music user jan01)) 200),
     server_paused).
Proof. vm_compute. reflexivity. Qed.

Lemma server_spent_created :
  Wide.embed (handle (POST user expense50)) server_two
  = (Normal (json (TransactionBody "0" row50) 201), server_spent).
Proof. vm_compute. reflexivity. Qed.

Lemma subscription_create_answer_table_witness :
  (Wide.up server_two /\ n_categoryId music <> Some EmptyString) /\
  exists r s',
    Wide.handle true (Wide.POST user music) server_two = (Normal r, s') /\
    Wide.code r = 201.
Proof.
  assert (n_categoryId music <> Some EmptyString) as Hcat by discriminate.
  split; [split; [exact server_two_up|exact Hcat]|].
  destruct (subscription_create_answer_table true user music server_two
              server_two_up Hcat) as (r & s' & Hrun & H201 & _).
  exists r, s'. split; [exact Hrun|]. apply H201.
  split; [split; [discriminate|reflexivity]|]. split; [|by eexists].
  split; [|exact I]. exists account_A. by repeat split.
Defined.


Lemma stopped_subscription_is_not_billed_witness :
  subscriptions
    (Wide.store
       (foldl (fun s now => (Wide.billing 0 now s).2) server_paused
          [feb01; mar02])) !! "0"
  = subscriptions (Wide.store server_paused) !! "0".
Proof.
  apply (stopped_subscription_is_not_billed 0 true user "0"
           (Wide.PUT user "0" pause) [feb01; mar02] server_music server_paused
           (Wide.json
              (Wide.SubscriptionReply "0"
                 (Wide.subscription_row false music user jan01)) 200)).
  - right. exists pause. split; reflexivity.
  - exact server_paused_written.
  - reflexivity.
Defined.

Lemma subscription_get_after_write_witness :
  (@Wide.subscriptions_get Empty_set user "0" server_music).1
  = Normal (Wide.json
              (Wide.SubscriptionReply "0"
                 (Wide.subscription_row true music user jan01)) 200) /\
  (@Wide.subscriptions_get Empty_set other "0" server_music).1
  = Normal (Wide.json (Wide.ErrorReply "Subscription not found") 404).
Proof.
  destruct (proj1 (subscription_get_after_write true) user music server_two
              "0" (Wide.subscription_row true music user jan01) server_music
              server_music_created eq_refl) as [Hown Hother].
  split; [exact Hown|]. apply Hother. discriminate.
Defined.

Lemma subscription_update_answer_table_witness :
  (Wide.up server_music /\
   s_accountId pause <> Some EmptyString /\
   s_categoryId pause <> Some EmptyString /\
   (forall x, subscriptions (Wide.store server_music) !! "0" = Some x ->
      is_Some (accounts (Wide.store server_music)
                 !! Subscription.accountId x))) /\
  exists r s',
    Wide.handle true (Wide.PUT user "0" pause) server_music = (Normal r, s') /\
    Wide.code r = 200.
Proof.
  assert (s_accountId pause <> Some EmptyString) as Hacc by discriminate.
  assert (s_categoryId pause <> Some EmptyString) as Hcat by discriminate.
  assert (subscriptions (Wide.store server_music) !! "0"
          = Some (Wide.subscription_row true music user jan01)) as Hrow
    by (vm_compute; reflexivity).
  assert (forall x, subscriptions (Wide.store server_music) !! "0" = Some x ->
            is_Some (accounts (Wide.store server_music)
                       !! Subscription.accountId x)) as Href.
  { intros x Hx. rewrite Hrow in Hx. injection Hx as <-.
    exists account_A. vm_compute. reflexivity. }
  split; [split; [exact server_music_up|split; [exact Hacc|split;
    [exact Hcat|exact Href]]]|].
  destruct (subscription_update_answer_table true user "0" pause server_music
              server_music_up Hacc Hcat Href) as (r & s' & Hrun & H200 & _).
  exists r, s'. split; [exact Hrun|]. apply H200.
  split; [split; [discriminate|intros a Ha; discriminate Ha]|].
  split; [|discriminate].
  exists (Wide.subscription_row true music user jan01).
  split; [exact Hrow|]. split; [reflexivity|].
  split; [intros a Ha; discriminate Ha|exact I].
Defined.


(** * Reading an account and a category *)

Lemma accounts_get_answer u id s :
  Wide.down s (length (Wide.calls s)) = false ->
  (@Wide.accounts_get Empty_set u id s).1 =
  Normal
    (match accounts (Wide.store s) !! id with
     | Some a =>
         if bool_decide (Account.userId a = u) && Account.isActive a
         then Wide.json
                (Wide.AccountReply id a
                   (length (Wide.transactions_of id (Wide.store s)))) 200
         else Wide.json (Wide.ErrorReply "Cuenta no encontrada") 404
     | None => Wide.json (Wide.ErrorReply "Cuenta no encontrada") 404
     end).
Proof.
  intros Hdown.
  assert (Wide.wp (@Wide.accounts_get Empty_set u id) s (fun c _ =>
            c = Normal
                  (match accounts (Wide.store s) !! id with
                   | Some a =>
                       if bool_decide (Account.userId a = u)
                          && Account.isActive a
                       then Wide.json
                              (Wide.AccountReply id a
                                 (length (Wide.transactions_of id
                                            (Wide.store s)))) 200
                       else Wide.json
                              (Wide.ErrorReply "Cuenta no encontrada") 404
                   | None =>
                       Wide.json (Wide.ErrorReply "Cuenta no encontrada") 404
                   end))) as H; [|exact H].
  unfold Wide.accounts_get, Wide.account_findFirst_count. wide_go; done.
Qed.

Lemma categories_get_answer u id s :
  Wide.down s (length (Wide.calls s)) = false ->
  (@Wide.categories_get Empty_set u id s).1 =
  Normal
    (match categories (Wide.store s) !! id with
     | Some c =>
         if bool_decide (Category.userId c = Some u) || Category.isDefault c
         then Wide.json (Wide.CategoryReply id c) 200
         else Wide.json (Wide.ErrorReply "Categoría no encontrada") 404
     | None => Wide.json (Wide.ErrorReply "Categoría no encontrada") 404
     end).
Proof.
  intros Hdown.
  assert (Wide.wp (@Wide.categories_get Empty_set u id) s (fun c _ =>
            c = Normal
                  (match categories (Wide.store s) !! id with
                   | Some c =>
                       if bool_decide (Category.userId c = Some u)
                          || Category.isDefault c
                       then Wide.json (Wide.CategoryReply id c) 200
                       else Wide.json
                              (Wide.ErrorReply "Categoría no encontrada") 404
                   | None =>
                       Wide.json
                         (Wide.ErrorReply "Categoría no encontrada") 404
                   end))) as H; [|exact H].
  unfold Wide.categories_get. wide_go; try done.
  all: rewrite Nat.add_0_r in *; congruence.
Qed.

(** GET shows an account exactly when it is the caller's and active. *)
Lemma accounts_get_shown u id s :
  Wide.down s (length (Wide.calls s)) = false ->
  (exists a n,
     (@Wide.accounts_get Empty_set u id s).1
     = Normal (Wide.json (Wide.AccountReply id a n) 200)) <->
  account_visible u (Wide.store s) id.
Proof.
  intros Hdown. rewrite (accounts_get_answer u id s Hdown).
  destruct (accounts (Wide.store s) !! id) as [a|] eqn:Ha.
  - destruct (bool_decide (Account.userId a = u) && Account.isActive a)
      eqn:Hvis.
    + split; [intros _; by apply (account_visible_found u _ _ a)|].
      intros _. by eexists _, _.
    + split; [intros (a' & n & [=])|].
      intros Hv. by destruct (account_visible_hidden u _ _ a Ha Hvis).
  - split; [intros (a' & n & [=])|].
    intros Hv. by destruct (account_visible_missing u _ _ Ha).
Qed.

(** GET shows a category exactly when it is the caller's or a default
    one. *)
Lemma categories_get_shown u id s :
  Wide.down s (length (Wide.calls s)) = false ->
  truthy (Some id) = true ->
  (exists c,
     (@Wide.categories_get Empty_set u id s).1
     = Normal (Wide.json (Wide.CategoryReply id c) 200)) <->
  category_visible u (Wide.store s) (Some id).
Proof.
  intros Hdown Ht. rewrite (categories_get_answer u id s Hdown).
  destruct (categories (Wide.store s) !! id) as [c|] eqn:Hc.
  - destruct (bool_decide (Category.userId c = Some u) || Category.isDefault c)
      eqn:Hvis.
    + split; [intros _; by apply (category_visible_found u _ _ c)|].
      intros _. by eexists.
    + split; [intros (c' & [=])|].
      intros Hv. by destruct (category_visible_hidden u _ _ c Hc Hvis).
  - split; [intros (c' & [=])|].
    intros Hv. by destruct (category_visible_missing u _ _ Hc).
Qed.

(** The rows counted for an account after one row is added. *)
Lemma transactions_of_insert A d d' i t :
  transactions d !! i = None ->
  transactions d' = <[i := t]> (transactions d) ->
  length (Wide.transactions_of A d') =
  ((if bool_decide (Transaction.accountId t = A) then 1 else 0)
   + length (Wide.transactions_of A d))%nat.
Proof.
  intros Hi Hd'. unfold Wide.transactions_of. rewrite Hd'.
  rewrite (Permutation_length
             (l' := filter (fun r => Transaction.accountId r.2 = A)
                      ((i, t) :: map_to_list (transactions d))));
    [|apply filter_Permutation; by apply map_to_list_insert].
  rewrite filter_cons. simpl.
  destruct (decide (Transaction.accountId t = A)) as [E|E].
  - by rewrite bool_decide_eq_true_2.
  - by rewrite bool_decide_eq_false_2.
Qed.

(** What the server is after code of the transactions router ran in it. *)
Lemma embed_run {A} (m : M Empty_set A) s c s1 :
  Wide.embed m s = (c, s1) ->
  exists w', m (Wide.world_of s) = (c, w') /\ Wide.store s1 = db w'.
Proof.
  unfold Wide.embed. intros [= <- <-]. exists (m (Wide.world_of s)).2.
  split; [|done]. by destruct (m (Wide.world_of s)).
Qed.

(** X26.  The account that GET shows follows the transactions that POST
    creates.  After POST of a transaction by user [u] answered 201 with a
    row, GET of the row's account by [u] answers 200 as it did before, now
    with the signed amount of the row added to the balance and one more
    transaction counted; and GET of any other account answers what it
    answered before, to every user. *)
Theorem account_page_follows_create (u : string) (b : CreateTransaction)
    (s s1 : Wide.Server) (id : string) (t : Transaction.t) :
  Wide.embed (handle (POST u b)) s
  = (Normal (json (TransactionBody id t) 201), s1) ->
  Wide.down s (length (Wide.calls s)) = false ->
  Wide.down s1 (length (Wide.calls s1)) = false ->
  (exists a n,
     (@Wide.accounts_get Empty_set u (Transaction.accountId t) s).1
     = Normal (Wide.json
                 (Wide.AccountReply (Transaction.accountId t) a n) 200) /\
     (@Wide.accounts_get Empty_set u (Transaction.accountId t) s1).1
     = Normal (Wide.json
                 (Wide.AccountReply (Transaction.accountId t)
                    (Account.add_balance (contribution t) a) (S n)) 200)) /\
  (forall v A, A <> Transaction.accountId t ->
     (@Wide.accounts_get Empty_set v A s1).1
     = (@Wide.accounts_get Empty_set v A s).1).
Proof.
  intros Hrun Hdown Hdown1.
  apply embed_run in Hrun as (w' & Hrun & Hs1). simpl in Hrun.
  pose proof (post_account (R := Empty_set) u b (Wide.world_of s)) as Hacc.
  pose proof (post_created (R := Empty_set) u b (Wide.world_of s)) as Hnew.
  unfold wp in Hacc, Hnew. rewrite Hrun in Hacc, Hnew. simpl in Hacc, Hnew.
  destruct (Hacc id t eq_refl) as (a & Ha & Hu & Hact & _ & Haccs).
  destruct (Hnew id t eq_refl) as (Hfree & Htx & _).
  rewrite <- Hs1 in Haccs, Htx.
  split.
  - exists a, (length (Wide.transactions_of (Transaction.accountId t)
                         (Wide.store s))).
    rewrite (accounts_get_answer u _ s Hdown), Ha, Hu, Hact.
    rewrite bool_decide_eq_true_2 by done. split; [done|].
    rewrite (accounts_get_answer u _ s1 Hdown1), Haccs.
    rewrite (adjust_lookup _ _ _ a Ha).
    replace (Account.userId (Account.add_balance (contribution t) a))
      with u by (by destruct a).
    replace (Account.isActive (Account.add_balance (contribution t) a))
      with true by (by destruct a).
    rewrite bool_decide_eq_true_2 by done. simpl.
    rewrite (transactions_of_insert _ (Wide.store s) (Wide.store s1) id t
               Hfree Htx).
    by rewrite bool_decide_eq_true_2.
  - intros v A HA.
    rewrite (accounts_get_answer v A s Hdown),
      (accounts_get_answer v A s1 Hdown1), Haccs.
    rewrite adjust_lookup_ne by done.
    rewrite (transactions_of_insert A (Wide.store s) (Wide.store s1) id t
               Hfree Htx).
    by rewrite bool_decide_eq_false_2.
Qed.


(** * The account page at work *)

Import Scenario Cases Served.

Lemma account_page_follows_create_witness :
  exists a n,
    (@Wide.accounts_get Empty_set user (Transaction.accountId row50)
       server_two).1
    = Normal (Wide.json
                (Wide.AccountReply (Transaction.accountId row50) a n) 200) /\
    (@Wide.accounts_get Empty_set user (Transaction.accountId row50)
       server_spent).1
    = Normal (Wide.json
                (Wide.AccountReply (Transaction.accountId row50)
                   (Account.add_balance (contribution row50) a) (S n)) 200).
Proof.
  apply (account_page_follows_create user expense50 server_two server_spent
           "0" row50).
  - exact server_spent_created.
  - reflexivity.
  - reflexivity.
Defined.

